(** * Shallow embedding of the btr "devices" serial engines

    Two components of the repository are embedded here:

    - [Usart]: the interrupt-driven, ring-buffered AVR USART engine of
      [src/avr/usart.cpp];
    - [I2C]: the typed [read<T>]/[write<T>] wrappers declared inline in
      [include/devices/i2c.hpp].

    Integers are [Z] with the wrap-around of their C++ type written out
    ([u8], [u16], [u32], [int16]); buffers are lists of bytes indexed with
    stdpp's lookup and insert; the object and the registers it points to
    form one record that every operation threads explicitly. *)

From Stdlib Require Import ZArith Lia Bool.
From stdpp Require Import base list.

Local Open Scope Z_scope.

(** ** Fixed-width arithmetic *)

Definition u8 (x : Z) : Z := x mod 256.
Definition u16 (x : Z) : Z := x mod 65536.
Definition u32 (x : Z) : Z := x mod 4294967296.

(** [int] is 16 bits wide on AVR: two's complement wrap. *)
Definition int16 (x : Z) : Z := (x + 32768) mod 65536 - 32768.

(** ** Bit helpers

    [bit_is_set] and [bit_is_clear] are avr-libc's; [set_bit] and
    [clear_bit] are used on 8-bit registers. *)

Definition bit_is_set (r b : Z) : bool := Z.testbit r b.
Definition bit_is_clear (r b : Z) : bool := negb (Z.testbit r b).

(** Modelled from the spec: [set_bit] and [clear_bit] are macros of the
    absent [devices/defines.hpp]; they are the read-modify-write
    [r |= (1 << b)] and [r &= ~(1 << b)] on a [uint8_t] register. *)
Definition set_bit (r b : Z) : Z := u8 (Z.lor r (Z.shiftl 1 b)).
Definition clear_bit (r b : Z) : Z := u8 (Z.land r (Z.lnot (Z.shiftl 1 b))).

Arguments u8 : simpl never.
Arguments u16 : simpl never.
Arguments u32 : simpl never.
Arguments int16 : simpl never.
Arguments bit_is_set : simpl never.
Arguments bit_is_clear : simpl never.
Arguments set_bit : simpl never.
Arguments clear_bit : simpl never.

(** * The USART engine ([src/avr/usart.cpp]) *)

Module Usart.

(** Register bits of the ATmega168/328P/1280/2560, as the source lists
    them. *)
Definition TXC : Z := 6.    (* UCSRnA: transmit complete *)
Definition UDRE : Z := 5.   (* UCSRnA: transmit buffer empty *)
Definition FE : Z := 4.     (* UCSRnA: frame error *)
Definition DOR : Z := 3.    (* UCSRnA: data overrun *)
Definition UPE : Z := 2.    (* UCSRnA: parity error *)
Definition U2X : Z := 1.    (* UCSRnA: double transmission speed *)
Definition RXCIE : Z := 7.  (* UCSRnB: receive complete interrupt enable *)
Definition UDRIE : Z := 5.  (* UCSRnB: transmit buffer empty interrupt enable *)
Definition RXEN : Z := 4.   (* UCSRnB: receive enable *)
Definition TXEN : Z := 3.   (* UCSRnB: transmit enable *)
Definition SREG_I : Z := 7. (* SREG: global interrupt enable *)

(** The build-time configuration. [devices/defines.hpp] and
    [devices/avr/usart.hpp] are not part of the sources at hand, so every
    macro of theirs that [usart.cpp] uses is a field here and the engine is
    parametric in it. [BTR_USART_BAUD n] stands for [BTR_USARTn_BAUD], and
    likewise for parity, stop bits and data bits. *)
Record Defines := mkDefines {
  F_CPU : Z;
  BTR_USART_USE_2X : Z;
  BTR_USART_BAUD : Z -> Z;
  BTR_USART_PARITY : Z -> Z;
  BTR_USART_STOP_BITS : Z -> Z;
  BTR_USART_DATA_BITS : Z -> Z;
  BTR_USART_CONFIG : Z -> Z -> Z -> Z;
  BTR_USART_RX_BUFF_SIZE : Z;
  BTR_USART_TX_BUFF_SIZE : Z;
  BTR_USART_NO_DATA : Z;
  BTR_USART_OVERFLOW_ERR : Z;
  BTR_USART_TIMEDOUT_ERR : Z;
  BTR_USART_TX_DELAY : Z;
  BTR_USART_RX_DELAY : Z;
  send_timeout_default : Z (* default value of [send]'s [timeout] argument *)
}.

(** The object together with the memory-mapped cells its pointers name.
    The data register is two cells in hardware: a read returns the receive
    buffer ([udr_rx]), a write loads the transmit buffer; the writes are
    kept as a log ([udr_tx]). The members are declared in the absent
    [devices/avr/usart.hpp]: the indices are taken to be [uint16_t], the
    type [usart.cpp] gives [head_next], and the error latch [uint8_t]. *)
Record State := mkState {
  id_ : Z; (* [uint8_t id_]: port number, selects the build-time settings *)
  ubrr_h_ : Z; (* [*ubrr_h_]: baud rate register, high byte *)
  ubrr_l_ : Z; (* [*ubrr_l_]: baud rate register, low byte *)
  ucsr_a_ : Z; (* [*ucsr_a_]: status register (TXC, UDRE, FE, DOR, UPE, U2X) *)
  ucsr_b_ : Z; (* [*ucsr_b_]: control register (RXCIE, UDRIE, RXEN, TXEN) *)
  ucsr_c_ : Z; (* [*ucsr_c_]: frame format register *)
  udr_rx : Z; (* [*udr_] when read: the byte in the receive data register *)
  udr_tx : list Z; (* [*udr_] when written: the bytes stored to it, oldest first *)
  sreg : Z; (* [SREG]: CPU status register, bit [SREG_I] enables interrupts *)
  rx_error_ : Z; (* [uint8_t rx_error_]: latched receive error flags *)
  rx_head_ : Z; (* [uint16_t rx_head_]: next slot written by [onRecv] *)
  rx_tail_ : Z; (* [uint16_t rx_tail_]: next slot read by [recv] *)
  tx_head_ : Z; (* [uint16_t tx_head_]: slot last written by [send] *)
  tx_tail_ : Z; (* [uint16_t tx_tail_]: next slot read by [onSend] *)
  rx_buff_ : list Z; (* [uint8_t rx_buff_[BTR_USART_RX_BUFF_SIZE]] *)
  tx_buff_ : list Z; (* [uint8_t tx_buff_[BTR_USART_TX_BUFF_SIZE]] *)
  now : nat (* model time: busy-wait polls elapsed (not a program variable) *)
}.

Definition set_ubrr_h (v : Z) (s : State) : State :=
  mkState (id_ s) v (ubrr_l_ s) (ucsr_a_ s) (ucsr_b_ s) (ucsr_c_ s)
    (udr_rx s) (udr_tx s) (sreg s) (rx_error_ s) (rx_head_ s) (rx_tail_ s)
    (tx_head_ s) (tx_tail_ s) (rx_buff_ s) (tx_buff_ s) (now s).

Definition set_ubrr_l (v : Z) (s : State) : State :=
  mkState (id_ s) (ubrr_h_ s) v (ucsr_a_ s) (ucsr_b_ s) (ucsr_c_ s)
    (udr_rx s) (udr_tx s) (sreg s) (rx_error_ s) (rx_head_ s) (rx_tail_ s)
    (tx_head_ s) (tx_tail_ s) (rx_buff_ s) (tx_buff_ s) (now s).

Definition set_ucsr_a (v : Z) (s : State) : State :=
  mkState (id_ s) (ubrr_h_ s) (ubrr_l_ s) v (ucsr_b_ s) (ucsr_c_ s)
    (udr_rx s) (udr_tx s) (sreg s) (rx_error_ s) (rx_head_ s) (rx_tail_ s)
    (tx_head_ s) (tx_tail_ s) (rx_buff_ s) (tx_buff_ s) (now s).

Definition set_ucsr_b (v : Z) (s : State) : State :=
  mkState (id_ s) (ubrr_h_ s) (ubrr_l_ s) (ucsr_a_ s) v (ucsr_c_ s)
    (udr_rx s) (udr_tx s) (sreg s) (rx_error_ s) (rx_head_ s) (rx_tail_ s)
    (tx_head_ s) (tx_tail_ s) (rx_buff_ s) (tx_buff_ s) (now s).

Definition set_ucsr_c (v : Z) (s : State) : State :=
  mkState (id_ s) (ubrr_h_ s) (ubrr_l_ s) (ucsr_a_ s) (ucsr_b_ s) v
    (udr_rx s) (udr_tx s) (sreg s) (rx_error_ s) (rx_head_ s) (rx_tail_ s)
    (tx_head_ s) (tx_tail_ s) (rx_buff_ s) (tx_buff_ s) (now s).

Definition set_udr_tx (v : list Z) (s : State) : State :=
  mkState (id_ s) (ubrr_h_ s) (ubrr_l_ s) (ucsr_a_ s) (ucsr_b_ s)
    (ucsr_c_ s) (udr_rx s) v (sreg s) (rx_error_ s) (rx_head_ s)
    (rx_tail_ s) (tx_head_ s) (tx_tail_ s) (rx_buff_ s) (tx_buff_ s) (now s).

Definition set_rx_error (v : Z) (s : State) : State :=
  mkState (id_ s) (ubrr_h_ s) (ubrr_l_ s) (ucsr_a_ s) (ucsr_b_ s)
    (ucsr_c_ s) (udr_rx s) (udr_tx s) (sreg s) v (rx_head_ s) (rx_tail_ s)
    (tx_head_ s) (tx_tail_ s) (rx_buff_ s) (tx_buff_ s) (now s).

Definition set_rx_head (v : Z) (s : State) : State :=
  mkState (id_ s) (ubrr_h_ s) (ubrr_l_ s) (ucsr_a_ s) (ucsr_b_ s)
    (ucsr_c_ s) (udr_rx s) (udr_tx s) (sreg s) (rx_error_ s) v (rx_tail_ s)
    (tx_head_ s) (tx_tail_ s) (rx_buff_ s) (tx_buff_ s) (now s).

Definition set_rx_tail (v : Z) (s : State) : State :=
  mkState (id_ s) (ubrr_h_ s) (ubrr_l_ s) (ucsr_a_ s) (ucsr_b_ s)
    (ucsr_c_ s) (udr_rx s) (udr_tx s) (sreg s) (rx_error_ s) (rx_head_ s) v
    (tx_head_ s) (tx_tail_ s) (rx_buff_ s) (tx_buff_ s) (now s).

Definition set_tx_head (v : Z) (s : State) : State :=
  mkState (id_ s) (ubrr_h_ s) (ubrr_l_ s) (ucsr_a_ s) (ucsr_b_ s)
    (ucsr_c_ s) (udr_rx s) (udr_tx s) (sreg s) (rx_error_ s) (rx_head_ s)
    (rx_tail_ s) v (tx_tail_ s) (rx_buff_ s) (tx_buff_ s) (now s).

Definition set_tx_tail (v : Z) (s : State) : State :=
  mkState (id_ s) (ubrr_h_ s) (ubrr_l_ s) (ucsr_a_ s) (ucsr_b_ s)
    (ucsr_c_ s) (udr_rx s) (udr_tx s) (sreg s) (rx_error_ s) (rx_head_ s)
    (rx_tail_ s) (tx_head_ s) v (rx_buff_ s) (tx_buff_ s) (now s).

Definition set_rx_buff (v : list Z) (s : State) : State :=
  mkState (id_ s) (ubrr_h_ s) (ubrr_l_ s) (ucsr_a_ s) (ucsr_b_ s)
    (ucsr_c_ s) (udr_rx s) (udr_tx s) (sreg s) (rx_error_ s) (rx_head_ s)
    (rx_tail_ s) (tx_head_ s) (tx_tail_ s) v (tx_buff_ s) (now s).

Definition set_tx_buff (v : list Z) (s : State) : State :=
  mkState (id_ s) (ubrr_h_ s) (ubrr_l_ s) (ucsr_a_ s) (ucsr_b_ s)
    (ucsr_c_ s) (udr_rx s) (udr_tx s) (sreg s) (rx_error_ s) (rx_head_ s)
    (rx_tail_ s) (tx_head_ s) (tx_tail_ s) (rx_buff_ s) v (now s).

Definition set_now (v : nat) (s : State) : State :=
  mkState (id_ s) (ubrr_h_ s) (ubrr_l_ s) (ucsr_a_ s) (ucsr_b_ s)
    (ucsr_c_ s) (udr_rx s) (udr_tx s) (sreg s) (rx_error_ s) (rx_head_ s)
    (rx_tail_ s) (tx_head_ s) (tx_tail_ s) (rx_buff_ s) (tx_buff_ s) v.

(** The [count] slots of a ring of [n] slots from slot [start] on, in
    the order the indices run (a view for the proofs). *)
Fixpoint ring_slice (buff : list Z) (n start : Z) (count : nat) : list Z :=
  match count with
  | O => []
  | S count' =>
    u8 (default 0 (buff !! Z.to_nat start))
      :: ring_slice buff n ((start + 1) mod n) count'
  end.

(** The ring after the bytes [l] were stored from slot [start] on. *)
Fixpoint ring_store (buff : list Z) (n start : Z) (l : list Z) : list Z :=
  match l with
  | [] => buff
  | ch :: l' =>
    ring_store (<[Z.to_nat start := u8 ch]> buff) n ((start + 1) mod n) l'
  end.

Section Engine.

Variable d : Defines.

(** What the peripheral, and any interrupt handler that is enabled, do to
    the state between two polls of a busy-wait loop; it may depend on the
    model time [now]. The mainline code and the handlers run on one core:
    a handler is taken to strike between two turns of a loop, never in the
    middle of an operation, and the first test of a loop sees the state the
    call was made in. *)
Variable hw : State -> State.

Definition elapse (s : State) : State := hw (set_now (S (now s)) s).

(** [BAUD_CALC]: [unsigned long] arithmetic (32 bits on AVR). *)
Definition BAUD_CALC (BAUD : Z) : Z :=
  if 0 <? BTR_USART_USE_2X d
  then u32 (u32 (F_CPU d + 4 * BAUD) / u32 (8 * BAUD) - 1)
  else u32 (u32 (F_CPU d + 8 * BAUD) / u32 (16 * BAUD) - 1).

(** [Usart::Usart]: members zeroed, the four enable bits cleared. *)
Definition Usart (id ubrr_h ubrr_l ucsr_a ucsr_b ucsr_c udr sreg_ : Z) : State :=
  let s := mkState (u8 id) ubrr_h ubrr_l ucsr_a ucsr_b ucsr_c udr [] sreg_
             0 0 0 0 0
             (replicate (Z.to_nat (BTR_USART_RX_BUFF_SIZE d)) 0)
             (replicate (Z.to_nat (BTR_USART_TX_BUFF_SIZE d)) 0) O in
  let s := set_ucsr_b (clear_bit (ucsr_b_ s) TXEN) s in
  let s := set_ucsr_b (clear_bit (ucsr_b_ s) RXEN) s in
  let s := set_ucsr_b (clear_bit (ucsr_b_ s) RXCIE) s in
  set_ucsr_b (clear_bit (ucsr_b_ s) UDRIE) s.

Definition isOpen (s : State) : bool :=
  bit_is_set (ucsr_b_ s) TXEN || bit_is_set (ucsr_b_ s) RXEN.

(** The [uint16_t baud] and [uint8_t config] of port [n]. *)
Definition settings (n : Z) : Z * Z :=
  (u16 (BAUD_CALC (BTR_USART_BAUD d n)),
   u8 (BTR_USART_CONFIG d (BTR_USART_PARITY d n) (BTR_USART_STOP_BITS d n)
         (BTR_USART_DATA_BITS d n))).

(** The [switch (id_)] of [open]; [None] is its [default: return -1]. *)
Definition port_settings (id : Z) : option (Z * Z) :=
  match id with
  | 1 => Some (settings 1)
  | 2 => Some (settings 2)
  | 3 => Some (settings 3)
  | 4 => Some (settings 4)
  | _ => None
  end.

Definition open (s : State) : Z * State :=
  if isOpen s then (0, s)
  else
    match port_settings (id_ s) with
    | None => (-1, s)
    | Some (baud, config) =>
      let s := if 0 <? BTR_USART_USE_2X d
               then set_ucsr_a (u8 (Z.shiftl 1 U2X)) s else s in
      let s := set_ubrr_h (u8 (Z.shiftr baud 8)) s in
      let s := set_ubrr_l (u8 baud) s in
      let s := set_ucsr_c config s in
      let s := set_ucsr_b (set_bit (ucsr_b_ s) TXEN) s in
      let s := set_ucsr_b (set_bit (ucsr_b_ s) RXEN) s in
      let s := set_ucsr_b (set_bit (ucsr_b_ s) RXCIE) s in
      let s := set_ucsr_b (clear_bit (ucsr_b_ s) UDRIE) s in
      (0, s)
    end.

(** [onRecv] ([LED_TOGGLE] drives a pin outside the modelled state). *)
Definition onRecv (s : State) : State :=
  let s :=
    set_rx_error
      (u8 (Z.land (ucsr_a_ s)
             (Z.lor (Z.lor (Z.shiftl 1 FE) (Z.shiftl 1 DOR)) (Z.shiftl 1 UPE))))
      s in
  let head_next := u16 ((rx_head_ s + 1) mod BTR_USART_RX_BUFF_SIZE d) in
  if negb (head_next =? rx_tail_ s) then
    let s :=
      set_rx_buff (<[Z.to_nat (rx_head_ s) := u8 (udr_rx s)]> (rx_buff_ s)) s in
    set_rx_head head_next s
  else
    set_rx_error
      (u8 (Z.lor (rx_error_ s) (Z.shiftr (BTR_USART_OVERFLOW_ERR d) 8))) s.

Definition onSend (s : State) : State :=
  let ch := u8 (default 0 (tx_buff_ s !! Z.to_nat (tx_tail_ s))) in
  let s := set_tx_tail (u16 ((tx_tail_ s + 1) mod BTR_USART_TX_BUFF_SIZE d)) s in
  let s := set_udr_tx (udr_tx s ++ [ch]) s in
  if tx_head_ s =? tx_tail_ s then
    set_ucsr_b (clear_bit (ucsr_b_ s) UDRIE) s
  else s.

Definition available (s : State) : Z :=
  let bytes := u16 (BTR_USART_RX_BUFF_SIZE d + rx_head_ s - rx_tail_ s) in
  int16 (bytes mod BTR_USART_RX_BUFF_SIZE d).

(** Bytes waiting in the transmit ring, counted as [available] counts
    the receive ring (a measure for the proofs, the code has no such
    function). *)
Definition tx_pending (s : State) : Z :=
  (BTR_USART_TX_BUFF_SIZE d + tx_head_ s - tx_tail_ s)
    mod BTR_USART_TX_BUFF_SIZE d.

(** How many more manual pumps [flush] needs at most (a measure for the
    proofs): none once the transmit-empty interrupt is off; otherwise the
    bytes waiting, or a whole lap when the interrupt is on over an empty
    ring. *)
Definition flush_measure (s : State) : Z :=
  if bit_is_set (ucsr_b_ s) UDRIE then
    if tx_pending s =? 0 then BTR_USART_TX_BUFF_SIZE d else tx_pending s
  else 0.

(** [flush]: [queue_selector] is ignored by the code. [fuel] bounds the
    number of times the loop condition is evaluated; [None] is a loop
    that is still spinning when the fuel is spent. *)
Fixpoint flush (fuel : nat) (s : State) : option (Z * State) :=
  match fuel with
  | O => None
  | S fuel' =>
    if bit_is_set (ucsr_b_ s) UDRIE || bit_is_clear (ucsr_a_ s) TXC then
      let s1 :=
        if bit_is_clear (sreg s) SREG_I && bit_is_set (ucsr_b_ s) UDRIE then
          if bit_is_set (ucsr_a_ s) UDRE then onSend s else s
        else s in
      flush fuel' (elapse s1)
    else Some (0, s)
  end.

Definition close (fuel : nat) (s : State) : option State :=
  match flush fuel s with
  | None => None
  | Some (_, s) =>
    let s := set_ucsr_b (clear_bit (ucsr_b_ s) TXEN) s in
    let s := set_ucsr_b (clear_bit (ucsr_b_ s) RXEN) s in
    let s := set_ucsr_b (clear_bit (ucsr_b_ s) RXCIE) s in
    let s := set_ucsr_b (clear_bit (ucsr_b_ s) UDRIE) s in
    Some (set_rx_head (rx_tail_ s) s)
  end.

(** The state after [n] polls of a loop that only waits. *)
Fixpoint elapse_n (n : nat) (s : State) : State :=
  match n with
  | O => s
  | S n' => elapse_n n' (elapse s)
  end.

(** [send] has to wait and cannot help itself: no room for the slot
    [head_next], and either interrupts are enabled or the data register is
    not empty, so the handler is not called by hand. *)
Definition tx_stuck (head_next : Z) (s : State) : bool :=
  (head_next =? tx_tail_ s)
  && negb (bit_is_clear (sreg s) SREG_I && bit_is_set (ucsr_a_ s) UDRE).

(** The [uint32_t delays] of [send] after [k] rounds of [_delay_ms]. *)
Definition tx_delays (k : nat) : Z := u32 (Z.of_nat k * BTR_USART_TX_DELAY d).

(** The [uint32_t delays] of [recv] after [k] rounds of [_delay_ms]. *)
Definition rx_delays (k : nat) : Z := u32 (Z.of_nat k * BTR_USART_RX_DELAY d).

(** The wait loop of [send]: [Some (true, s)] is the [return -1] inside
    the loop, [Some (false, s)] is the loop left with room in the ring. *)
Fixpoint send_wait (fuel : nat) (head_next timeout delays : Z) (s : State)
  : option (bool * State) :=
  match fuel with
  | O => None
  | S fuel' =>
    if head_next =? tx_tail_ s then
      if bit_is_clear (sreg s) SREG_I && bit_is_set (ucsr_a_ s) UDRE then
        send_wait fuel' head_next timeout delays (elapse (onSend s))
      else if 0 <? timeout then
        let delays := u32 (delays + BTR_USART_TX_DELAY d) in
        if timeout <=? delays then Some (true, s)
        else send_wait fuel' head_next timeout delays (elapse s)
      else send_wait fuel' head_next timeout delays (elapse s)
    else Some (false, s)
  end.

(** [send(char ch, bool drain, uint32_t timeout)]. The [ATOMIC_BLOCK]
    saves and restores [SREG], so it leaves [sreg] as it found it. *)
Definition send (fuel : nat) (ch : Z) (drain : bool) (timeout : Z) (s : State)
  : option (Z * State) :=
  let head_next := u16 ((tx_head_ s + 1) mod BTR_USART_TX_BUFF_SIZE d) in
  match send_wait fuel head_next timeout 0 s with
  | None => None
  | Some (true, s) => Some (-1, s)
  | Some (false, s) =>
    let s := set_tx_buff (<[Z.to_nat head_next := u8 ch]> (tx_buff_ s)) s in
    let s := set_tx_head head_next s in
    let s := set_ucsr_b (set_bit (ucsr_b_ s) UDRIE) s in
    if drain then
      match flush fuel s with
      | None => None
      | Some (_, s) => Some (0, s)
      end
    else Some (0, s)
  end.

(** [send(const char* buff, uint32_t bytes, bool drain)]: [buff] is the
    memory from the pointer on, [*buff] its first byte. *)
Fixpoint send_bytes (fuel : nat) (buff : list Z) (bytes : nat) (s : State)
  : option (Z * State) :=
  match bytes with
  | O => Some (0, s)
  | S bytes' =>
    match send fuel (default 0 (head buff)) false (send_timeout_default d) s with
    | None => None
    | Some (rc, s) =>
      if negb (rc =? 0) then Some (rc, s)
      else send_bytes fuel (tail buff) bytes' s
    end
  end.

Definition send_buf (fuel : nat) (buff : list Z) (bytes : Z) (drain : bool)
  (s : State) : option (Z * State) :=
  match send_bytes fuel buff (Z.to_nat bytes) s with
  | None => None
  | Some (rc, s) =>
    if (rc =? 0) && drain then
      match flush fuel s with
      | None => None
      | Some (_, s) => Some (rc, s)
      end
    else Some (rc, s)
  end.

(** [uint16_t recv()]. *)
Definition recv (s : State) : Z * State :=
  if negb (rx_head_ s =? rx_tail_ s) then
    let ch := u8 (default 0 (rx_buff_ s !! Z.to_nat (rx_tail_ s))) in
    let s := set_rx_tail (u16 ((rx_tail_ s + 1) mod BTR_USART_RX_BUFF_SIZE d)) s in
    let rc := u16 (Z.shiftl (rx_error_ s) 8) in
    let s := set_rx_error 0 s in
    (u16 (rc + ch), s)
  else (u16 (BTR_USART_NO_DATA d), s).

(** The loop of [recv(char* buff, uint16_t bytes, uint32_t timeout)]:
    [buff] is the caller's memory and [pos] the offset the moving pointer
    has reached in it. *)
Fixpoint recv_loop (fuel : nat) (timeout : Z) (buff : list Z) (pos : nat)
  (bytes delays rc : Z) (s : State) : option (Z * list Z * State) :=
  match fuel with
  | O => None
  | S fuel' =>
    if 0 <? bytes then
      let '(ch, s) := recv s in
      if negb (Z.land (BTR_USART_NO_DATA d) ch =? 0) then
        if 0 <? timeout then
          let delays := u32 (delays + BTR_USART_RX_DELAY d) in
          if timeout <=? delays then
            Some (u16 (Z.lor rc (BTR_USART_TIMEDOUT_ERR d)), buff, s)
          else recv_loop fuel' timeout buff pos bytes delays rc (elapse s)
        else recv_loop fuel' timeout buff pos bytes delays rc (elapse s)
      else
        recv_loop fuel' timeout (<[pos := u8 ch]> buff) (S pos) (bytes - 1)
          delays (u16 (Z.lor rc (Z.land ch 65280))) (elapse s)
    else Some (rc, buff, s)
  end.

Definition recv_buf (fuel : nat) (buff : list Z) (bytes timeout : Z)
  (s : State) : option (Z * list Z * State) :=
  recv_loop fuel timeout buff O bytes 0 0 s.

(** The locals of [recv(char* buff, uint16_t bytes, uint32_t timeout)] at
    its return: how far the moving pointer [buff] has got and what is
    left of [bytes]. The same loop as [recv_loop], followed for these two
    variables; each [*buff++ = ch; --bytes;] moves them by one. *)
Fixpoint recv_loop_locals (fuel : nat) (timeout : Z) (pos : nat)
  (bytes delays : Z) (s : State) : option (nat * Z) :=
  match fuel with
  | O => None
  | S fuel' =>
    if 0 <? bytes then
      let '(ch, s) := recv s in
      if negb (Z.land (BTR_USART_NO_DATA d) ch =? 0) then
        if 0 <? timeout then
          let delays := u32 (delays + BTR_USART_RX_DELAY d) in
          if timeout <=? delays then Some (pos, bytes)
          else recv_loop_locals fuel' timeout pos bytes delays (elapse s)
        else recv_loop_locals fuel' timeout pos bytes delays (elapse s)
      else
        recv_loop_locals fuel' timeout (S pos) (bytes - 1) delays (elapse s)
    else Some (pos, bytes)
  end.

Definition recv_buf_locals (fuel : nat) (bytes timeout : Z) (s : State)
  : option (nat * Z) :=
  recv_loop_locals fuel timeout O bytes 0 s.

(** The loop of [send(const char* buff, bool drain)]: it runs up to the
    first zero byte; memory behind the modelled region reads as zero, as
    in [send_bytes]. *)
Fixpoint send_chars (fuel : nat) (buff : list Z) (s : State)
  : option (Z * State) :=
  match buff with
  | [] => Some (0, s)
  | ch :: buff' =>
    if u8 ch =? 0 then Some (0, s)
    else
      match send fuel ch false (send_timeout_default d) s with
      | None => None
      | Some (rc, s) =>
        if negb (rc =? 0) then Some (rc, s)
        else send_chars fuel buff' s
      end
  end.

Definition send_str (fuel : nat) (buff : list Z) (drain : bool) (s : State)
  : option (Z * State) :=
  match send_chars fuel buff s with
  | None => None
  | Some (rc, s) =>
    if (rc =? 0) && drain then
      match flush fuel s with
      | None => None
      | Some (_, s) => Some (rc, s)
      end
    else Some (rc, s)
  end.

(** [Usart::instance]: [enabled n] is [BTR_USARTn_ENABLED]. The result
    [Some n] stands for [&usart_n], the static object constructed with id
    [n] over the registers of USART [n - 1]; [None] is [nullptr]. *)
Definition instance (enabled : Z -> Z) (usart_id : Z) : option Z :=
  match usart_id with
  | 1 => if 0 <? enabled 1 then Some 1 else None
  | 2 => if 0 <? enabled 2 then Some 2 else None
  | 3 => if 0 <? enabled 3 then Some 3 else None
  | 4 => if 0 <? enabled 4 then Some 4 else None
  | _ => None
  end.

(** The unread bytes of the receive ring, oldest first, and the bytes
    [onSend] is going to transmit, next one first (views for the
    proofs). *)
Definition rx_contents (s : State) : list Z :=
  ring_slice (rx_buff_ s) (BTR_USART_RX_BUFF_SIZE d) (rx_tail_ s)
    (Z.to_nat ((BTR_USART_RX_BUFF_SIZE d + rx_head_ s - rx_tail_ s)
                 mod BTR_USART_RX_BUFF_SIZE d)).

Definition tx_contents (s : State) : list Z :=
  ring_slice (tx_buff_ s) (BTR_USART_TX_BUFF_SIZE d) (tx_tail_ s)
    (Z.to_nat (tx_pending s)).

(** The bounds the rings rely on: every index inside its array, both
    arrays of their declared size ([char rx_buff_[BTR_USART_RX_BUFF_SIZE]],
    [char tx_buff_[BTR_USART_TX_BUFF_SIZE]]). *)
Definition in_bounds (s : State) : Prop :=
  0 <= rx_head_ s < BTR_USART_RX_BUFF_SIZE d /\
  0 <= rx_tail_ s < BTR_USART_RX_BUFF_SIZE d /\
  0 <= tx_head_ s < BTR_USART_TX_BUFF_SIZE d /\
  0 <= tx_tail_ s < BTR_USART_TX_BUFF_SIZE d /\
  length (rx_buff_ s) = Z.to_nat (BTR_USART_RX_BUFF_SIZE d) /\
  length (tx_buff_ s) = Z.to_nat (BTR_USART_TX_BUFF_SIZE d).

End Engine.

End Usart.

(** * The typed I2C wrappers ([include/devices/i2c.hpp]) *)

Module I2C.

(** The object: [Bus] stands for the state of the peripheral behind
    [dev_id_], which only the byte-buffer operations touch. *)
Record Device (Bus : Type) := mkDevice {
  dev_id_ : Z;       (* [uint32_t dev_id_] *)
  buff_ : list Z;    (* [uint8_t buff_[sizeof(uint64_t)]]: the scratch buffer *)
  open_ : bool;      (* [bool open_] *)
  bus : Bus
}.

Arguments mkDevice {Bus} _ _ _ _.
Arguments dev_id_ {Bus} _.
Arguments buff_ {Bus} _.
Arguments open_ {Bus} _.
Arguments bus {Bus} _.

Definition set_buff {Bus : Type} (v : list Z) (s : Device Bus) : Device Bus :=
  mkDevice (dev_id_ s) v (open_ s) (bus s).

(** Bytes of an integer, least significant first, and back. *)
Fixpoint le_bytes (n : nat) (x : Z) : list Z :=
  match n with
  | O => []
  | S n' => x mod 256 :: le_bytes n' (x / 256)
  end.

Fixpoint le_value (l : list Z) : Z :=
  match l with
  | [] => 0
  | b :: l' => b + 256 * le_value l'
  end.

Definition be_bytes (n : nat) (x : Z) : list Z := rev (le_bytes n x).
Definition be_value (l : list Z) : Z := le_value (rev l).

Section Wrappers.

Variable Bus : Type.

(** Width of [int] on the target: 16 on AVR, 32 on STM32 and x86. *)
Variable INT_BITS : Z.

(** Modelled from the spec: [ValueCodec::isLittleEndian] of the absent
    [utility/value_codec.hpp] tells the host byte order. *)
Variable isLittleEndian : bool.

(** [is_ok] of the absent [devices/defines.hpp], applied to the [int]. *)
Variable is_ok : Z -> bool.

(** The byte-buffer operations [read(addr, reg, buff, count)] and
    [write(addr, reg, buff, count)] are declared in the header and defined
    elsewhere. [read_bytes s addr reg buff count] receives the memory
    [buff] points to and returns it as the call leaves it. *)
Variable read_bytes :
  Device Bus -> Z -> Z -> list Z -> Z -> Z * list Z * Device Bus.
Variable write_bytes : Device Bus -> Z -> Z -> list Z -> Z -> Z * Device Bus.

(** The object representation of a [sz]-byte integer on the host, and
    the integer a representation stands for. *)
Definition object_bytes (sz : nat) (x : Z) : list Z :=
  if isLittleEndian then le_bytes sz x else be_bytes sz x.

Definition object_value (l : list Z) : Z :=
  if isLittleEndian then le_value l else be_value l.

(** Modelled from the spec: [ValueCodec::swap] is the endianness-swap
    helper, it reverses the bytes of the object in place. *)
Definition swap (sz : nat) (x : Z) : Z :=
  object_value (rev (object_bytes sz x)).

(** Modelled from the spec: [ValueCodec::decodeFixedInt(buff, val, bytes,
    msb)] decodes an integer of [bytes] bytes from wire order to host
    order; [msb] says that the wire carries the most significant byte
    first. The result is the value stored to [*val]. *)
Definition decodeFixedInt (buff : list Z) (bytes : nat) (msb : bool) : Z :=
  if msb then be_value (take bytes buff) else le_value (take bytes buff).

(** Conversion of a [uint32_t] to [int]. *)
Definition to_int (x : Z) : Z :=
  (x + 2 ^ (INT_BITS - 1)) mod 2 ^ INT_BITS - 2 ^ (INT_BITS - 1).

(** [read<T>(addr, reg, T* val)] with [sz = sizeof(T)]; [val] is the
    content of [*val] before the call, the second component of the result
    its content after. *)
Definition read (sz : nat) (s : Device Bus) (addr reg val : Z)
  : Z * Z * Device Bus :=
  let '(r, buff, s) := read_bytes s addr reg (buff_ s) (Z.of_nat sz) in
  let s := set_buff buff s in
  let rc := to_int r in
  let val := if is_ok rc then decodeFixedInt (buff_ s) sz true else val in
  (u32 rc, val, s).

(** [write<T>(addr, reg, T value)]: [value] is the by-value copy, [buff]
    points to its own bytes. *)
Definition write (sz : nat) (s : Device Bus) (addr reg value : Z)
  : Z * Device Bus :=
  let value :=
    if (1 <? Z.of_nat sz) && isLittleEndian then swap sz value else value in
  let buff := object_bytes sz value in
  write_bytes s addr reg buff (Z.of_nat sz).

End Wrappers.

End I2C.

(** * Sample configurations

    Concrete settings on which the engines are run in the examples. *)

(** Modelled from the spec: the values of the macros of the absent
    [devices/defines.hpp]. The no-data status is the pattern with all
    ones in the high byte; the overflow and timeout flags are placed in
    bits 8-15 next to the frame, overrun and parity flags of [UCSRnA];
    sizes, delays, baud rate and frame format are ordinary settings. *)
Definition sample : Usart.Defines :=
  Usart.mkDefines 16000000 0 (fun _ => 115200) (fun _ => 0) (fun _ => 1)
    (fun _ => 8) (fun _ _ _ => 6) 8 8 65280 512 256 1 1 0.

(** Hardware that does nothing on its own between two polls. *)
Definition quiet (s : Usart.State) : Usart.State := s.

(** Hardware with the transmitter ready: whenever the data-register-empty
    interrupt is enabled and interrupts are on, its handler runs. *)
Definition udre_isr (d : Usart.Defines) (s : Usart.State) : Usart.State :=
  if bit_is_set (Usart.sreg s) Usart.SREG_I
     && bit_is_set (Usart.ucsr_b_ s) Usart.UDRIE
     && bit_is_set (Usart.ucsr_a_ s) Usart.UDRE
  then Usart.onSend d s else s.

(** A port just constructed: registers zero except [UCSRnA], which shows
    the transmitter idle ([UDRE] and [TXC] set); [sreg_] is [SREG]. *)
Definition fresh (sreg_ : Z) : Usart.State :=
  Usart.Usart sample 1 0 0 96 0 0 0 sreg_.

(** The bytes of "hello". *)
Definition hello : list Z := [104; 101; 108; 108; 111].

(** The bytes of [buff] sent one by one with [send(ch)], the
    data-register-empty handler running right after each call. *)
Definition send_each (d : Usart.Defines) (buff : list Z) (s : Usart.State)
  : Usart.State :=
  fold_left
    (fun s ch =>
       match Usart.send d quiet 1 ch false 0 s with
       | Some (_, s') => udre_isr d s'
       | None => s
       end)
    buff s.

(** An open port in mid-traffic: the transmit ring is full (head 6, tail
    7 of 8 slots) with its interrupt enabled, two received bytes are
    unread (slots 1 and 2), a frame error is latched and the byte 0x43
    waits in the data register. [sreg_] is [SREG]. *)
Definition busy (sreg_ : Z) : Usart.State :=
  Usart.mkState 1 0 8 96 184 6 67 [] sreg_ 16 3 1 6 7
    [0; 65; 66; 0; 0; 0; 0; 0] [48; 49; 50; 51; 52; 53; 54; 55] O.

(** The same port with the receive ring full (head 0, tail 1). *)
Definition rx_full : Usart.State :=
  Usart.mkState 1 0 8 112 184 6 67 [] 128 0 0 1 6 7
    [72; 65; 66; 67; 68; 69; 70; 71] [48; 49; 50; 51; 52; 53; 54; 55] O.

(** An I2C peripheral that records what it is asked to send. *)
Definition wire_log : Type := list (list Z).

(** A byte-buffer [write] that succeeds: it puts the bytes on the wire
    and touches nothing else of the device. *)
Definition log_write (s : I2C.Device wire_log) (addr reg : Z)
  (buff : list Z) (count : Z) : Z * I2C.Device wire_log :=
  (0, I2C.mkDevice (I2C.dev_id_ s) (I2C.buff_ s) (I2C.open_ s)
        (I2C.bus s ++ [take (Z.to_nat count) buff])).

(** A byte-buffer [read] that fails with status [status] after a stray
    byte [b] has reached the first slot of the destination. *)
Definition failing_read (status b : Z) (s : I2C.Device wire_log)
  (addr reg : Z) (buff : list Z) (count : Z)
  : Z * list Z * I2C.Device wire_log :=
  (status, <[O := b]> buff, s).

(** Modelled from the spec: [is_ok] of the absent [devices/defines.hpp];
    bits 16-31 of a status code are its classification, and the
    classification of success is taken to be 0. *)
Definition status_is_ok (rc : Z) : bool := Z.shiftr (u32 rc) 16 =? 0.

(** A device with a cleared scratch buffer. *)
Definition idle_device : I2C.Device wire_log :=
  I2C.mkDevice 0 (replicate 8 0) true [].

(** * Facts about the fixed-width helpers *)

Lemma u8_range x : 0 <= u8 x < 256.
Proof. unfold u8. apply Z.mod_pos_bound. lia. Qed.

Lemma u16_range x : 0 <= u16 x < 65536.
Proof. unfold u16. apply Z.mod_pos_bound. lia. Qed.

Lemma u32_range x : 0 <= u32 x < 4294967296.
Proof. unfold u32. apply Z.mod_pos_bound. lia. Qed.

Lemma u8_small x : 0 <= x < 256 -> u8 x = x.
Proof. intros. unfold u8. apply Z.mod_small. lia. Qed.

Lemma u16_small x : 0 <= x < 65536 -> u16 x = x.
Proof. intros. unfold u16. apply Z.mod_small. lia. Qed.

Lemma u32_small x : 0 <= x < 4294967296 -> u32 x = x.
Proof. intros. unfold u32. apply Z.mod_small. lia. Qed.

Lemma u8_testbit x n : 0 <= n < 8 -> Z.testbit (u8 x) n = Z.testbit x n.
Proof.
  intros Hn. unfold u8. change 256 with (2 ^ 8).
  apply Z.mod_pow2_bits_low. lia.
Qed.

Lemma set_bit_same r b : 0 <= b < 8 -> bit_is_set (set_bit r b) b = true.
Proof.
  intros Hb. unfold bit_is_set, set_bit.
  rewrite u8_testbit by lia.
  change (Z.lor r (Z.shiftl 1 b)) with (Z.setbit r b).
  apply Z.setbit_eq. lia.
Qed.

Lemma set_bit_other r b c :
  0 <= b < 8 -> 0 <= c < 8 -> b <> c ->
  bit_is_set (set_bit r b) c = bit_is_set r c.
Proof.
  intros Hb Hc Hne. unfold bit_is_set, set_bit.
  rewrite u8_testbit by lia.
  change (Z.lor r (Z.shiftl 1 b)) with (Z.setbit r b).
  apply Z.setbit_neq; lia.
Qed.

Lemma clear_bit_same r b : 0 <= b < 8 -> bit_is_set (clear_bit r b) b = false.
Proof.
  intros Hb. unfold bit_is_set, clear_bit.
  rewrite u8_testbit by lia.
  rewrite <- Z.ldiff_land.
  change (Z.ldiff r (Z.shiftl 1 b)) with (Z.clearbit r b).
  apply Z.clearbit_eq.
Qed.

Lemma clear_bit_other r b c :
  0 <= b < 8 -> 0 <= c < 8 -> b <> c ->
  bit_is_set (clear_bit r b) c = bit_is_set r c.
Proof.
  intros Hb Hc Hne. unfold bit_is_set, clear_bit.
  rewrite u8_testbit by lia.
  rewrite <- Z.ldiff_land.
  change (Z.ldiff r (Z.shiftl 1 b)) with (Z.clearbit r b).
  apply Z.clearbit_neq; lia.
Qed.

Lemma u8_testbit_any x n :
  0 <= n -> Z.testbit (u8 x) n = (n <? 8) && Z.testbit x n.
Proof.
  intros Hn. destruct (Z.ltb_spec n 8) as [Hlt|Hge]; simpl.
  - apply u8_testbit. lia.
  - unfold u8. change 256 with (2 ^ 8).
    apply Z.mod_pow2_bits_high. lia.
Qed.

Lemma u8_lor_land a b : Z.land (u8 (Z.lor a b)) (u8 b) = u8 b.
Proof.
  apply Z.bits_inj'. intros n Hn.
  rewrite Z.land_spec, !u8_testbit_any, Z.lor_spec by lia.
  destruct (n <? 8), (Z.testbit a n), (Z.testbit b n); reflexivity.
Qed.

Lemma u16_mod_small x n : 0 < n <= 65536 -> u16 (x mod n) = x mod n.
Proof.
  intros Hn. apply u16_small.
  pose proof (Z.mod_pos_bound x n ltac:(lia)). lia.
Qed.

(** * The receive ring *)

Import Usart.

Section RingFacts.

Variable d : Defines.
Variable hw : State -> State.

Local Abbreviation RXN := (BTR_USART_RX_BUFF_SIZE d).
Local Abbreviation TXN := (BTR_USART_TX_BUFF_SIZE d).

(** C4. [onRecv] on a receive ring of capacity [N] with both indices in
    range: on a full ring the byte is dropped, the overflow flag is in the
    error latch and head, tail and storage are as before; otherwise the
    byte is stored at [rx_head_] and the head advances by one modulo [N];
    either way both indices stay in [0, N) and no slot other than the one
    at [rx_head_] changes. *)
Theorem onRecv_ring (s : State) :
  0 < RXN <= 65536 ->
  0 <= rx_head_ s < RXN ->
  0 <= rx_tail_ s < RXN ->
  length (rx_buff_ s) = Z.to_nat RXN ->
  let s' := onRecv d s in
  let ovf := u8 (Z.shiftr (BTR_USART_OVERFLOW_ERR d) 8) in
  ((rx_head_ s + 1) mod RXN = rx_tail_ s ->
     rx_buff_ s' = rx_buff_ s /\ rx_head_ s' = rx_head_ s /\
     rx_tail_ s' = rx_tail_ s /\ Z.land (rx_error_ s') ovf = ovf) /\
  ((rx_head_ s + 1) mod RXN <> rx_tail_ s ->
     rx_buff_ s' !! Z.to_nat (rx_head_ s) = Some (u8 (udr_rx s)) /\
     rx_head_ s' = (rx_head_ s + 1) mod RXN /\
     rx_tail_ s' = rx_tail_ s) /\
  (0 <= rx_head_ s' < RXN /\ 0 <= rx_tail_ s' < RXN) /\
  (forall i : nat,
     i <> Z.to_nat (rx_head_ s) -> rx_buff_ s' !! i = rx_buff_ s !! i) /\
  length (rx_buff_ s') = length (rx_buff_ s).
Proof.
  intros HN Hh Ht Hlen s' ovf. subst s' ovf.
  pose proof (Z.mod_pos_bound (rx_head_ s + 1) RXN ltac:(lia)) as Hm.
  unfold onRecv. simpl. rewrite u16_mod_small by lia.
  destruct (Z.eqb_spec ((rx_head_ s + 1) mod RXN) (rx_tail_ s)) as [E|E];
    simpl.
  - repeat split; try lia; try congruence.
    apply u8_lor_land.
  - repeat split; try lia; try congruence.
    + apply list_lookup_insert_eq. lia.
    + intros i Hi. apply list_lookup_insert_ne. congruence.
    + apply length_insert.
Qed.

Lemma mod_wrap_small n x : 0 <= x < n -> (n + x) mod n = x.
Proof.
  intros Hx. rewrite <- (Z.mod_small x n) at 2 by lia.
  replace (n + x) with (x + 1 * n) by lia. apply Z.mod_add. lia.
Qed.

Lemma ring_count n h t :
  0 < n -> 0 <= h < n -> 0 <= t < n ->
  (n + h - t) mod n = if t <=? h then h - t else n + h - t.
Proof.
  intros Hn Hh Ht. destruct (Z.leb_spec t h) as [L|L].
  - replace (n + h - t) with (n + (h - t)) by lia.
    apply mod_wrap_small. lia.
  - apply Z.mod_small. lia.
Qed.

(** C5. [recv()] on an empty receive ring returns the no-data status and
    changes nothing, neither ring nor error latch; when the configured
    no-data status is the pattern 0xFF00 its high byte is all ones. On a
    non-empty ring it returns the byte of the tail slot in bits 0-7 and
    the latched error flags in bits 8-15, advances [rx_tail_] by one
    modulo [N] and clears the latch. *)
Theorem recv_pop (s : State) :
  0 < RXN <= 65536 ->
  0 <= rx_tail_ s < RXN ->
  0 <= rx_error_ s < 256 ->
  (rx_head_ s = rx_tail_ s ->
     recv d s = (u16 (BTR_USART_NO_DATA d), s) /\
     (BTR_USART_NO_DATA d = 65280 ->
        Z.shiftr (fst (recv d s)) 8 = 255 /\ Z.land (fst (recv d s)) 255 = 0)) /\
  (rx_head_ s <> rx_tail_ s ->
     let ch := u8 (default 0 (rx_buff_ s !! Z.to_nat (rx_tail_ s))) in
     let rc := fst (recv d s) in
     let s' := snd (recv d s) in
     Z.land rc 255 = ch /\
     Z.shiftr rc 8 = rx_error_ s /\
     rx_tail_ s' = (rx_tail_ s + 1) mod RXN /\
     rx_error_ s' = 0 /\
     rx_head_ s' = rx_head_ s /\
     rx_buff_ s' = rx_buff_ s).
Proof.
  intros HN Ht He. split.
  - intros E. unfold recv.
    destruct (Z.eqb_spec (rx_head_ s) (rx_tail_ s)) as [_|C]; [|contradiction].
    simpl. split; [reflexivity|].
    intros ->. split; reflexivity.
  - intros NE ch rc s'. subst rc s'. unfold recv.
    destruct (Z.eqb_spec (rx_head_ s) (rx_tail_ s)) as [C|_]; [contradiction|].
    simpl. fold ch.
    pose proof (u8_range (default 0 (rx_buff_ s !! Z.to_nat (rx_tail_ s)))) as Hc.
    fold ch in Hc.
    rewrite Z.shiftl_mul_pow2 by lia. change (2 ^ 8) with 256.
    rewrite (u16_small (rx_error_ s * 256)) by lia.
    rewrite (u16_small (rx_error_ s * 256 + ch)) by lia.
    rewrite u16_mod_small by lia.
    repeat split.
    + change 255 with (Z.ones 8). rewrite Z.land_ones by lia.
      change (2 ^ 8) with 256.
      rewrite Z.add_comm, Z.mod_add by lia. apply Z.mod_small. lia.
    + rewrite Z.shiftr_div_pow2 by lia. change (2 ^ 8) with 256.
      rewrite Z.add_comm, Z.div_add by lia.
      rewrite Z.div_small by lia. lia.
Qed.

(** * The transmit ring *)

(** The wait loop of [send] is only left with room for [head_next]. *)
Lemma send_wait_room (fuel : nat) hn timeout :
  forall delays (s s1 : State),
  send_wait d hw fuel hn timeout delays s = Some (false, s1) ->
  hn <> tx_tail_ s1.
Proof.
  induction fuel as [|fuel IH]; intros delays s s1; [discriminate|].
  cbn [send_wait].
  destruct (Z.eqb_spec hn (tx_tail_ s)) as [E|E].
  - destruct (bit_is_clear (sreg s) SREG_I && bit_is_set (ucsr_a_ s) UDRE);
      [apply IH|].
    destruct (0 <? timeout); [|apply IH].
    destruct (timeout <=? u32 (delays + BTR_USART_TX_DELAY d));
      [discriminate|apply IH].
  - intros [= <-]. exact E.
Qed.

(** C10. With the transmit ring non-empty, [onSend] removes exactly one
    byte: [tx_tail_] advances by one modulo [N] and stays in [0, N), the
    byte of the old tail slot goes to the data register, and the
    transmit-empty interrupt is disabled exactly when the ring is empty
    afterwards. There is no emptiness check: on an empty ring of capacity
    at least 2 the tail still advances, which leaves head and tail apart,
    so the ring then counts [N - 1] bytes. The enable discipline keeps
    the handler away from an empty ring: after [onSend], and after a
    [send] that has stored its byte, the interrupt is enabled only over a
    non-empty ring. *)
Theorem onSend_pop (s : State) :
  0 < TXN <= 65536 ->
  0 <= tx_head_ s < TXN ->
  0 <= tx_tail_ s < TXN ->
  let s' := onSend d s in
  (tx_head_ s <> tx_tail_ s ->
     tx_tail_ s' = (tx_tail_ s + 1) mod TXN /\
     0 <= tx_tail_ s' < TXN /\
     tx_head_ s' = tx_head_ s /\
     tx_buff_ s' = tx_buff_ s /\
     tx_pending d s' = tx_pending d s - 1 /\
     udr_tx s' =
       udr_tx s ++ [u8 (default 0 (tx_buff_ s !! Z.to_nat (tx_tail_ s)))] /\
     (tx_head_ s' = tx_tail_ s' ->
        ucsr_b_ s' = clear_bit (ucsr_b_ s) UDRIE) /\
     (tx_head_ s' <> tx_tail_ s' -> ucsr_b_ s' = ucsr_b_ s)) /\
  (tx_head_ s = tx_tail_ s -> 1 < TXN ->
     tx_head_ s' <> tx_tail_ s' /\
     tx_pending d s' = TXN - 1 /\
     ucsr_b_ s' = ucsr_b_ s) /\
  (bit_is_set (ucsr_b_ s') UDRIE = true -> tx_head_ s' <> tx_tail_ s') /\
  (forall (fuel : nat) (ch timeout : Z) (s1 : State),
     send d hw fuel ch false timeout s = Some (0, s1) ->
     bit_is_set (ucsr_b_ s1) UDRIE = true /\ tx_head_ s1 <> tx_tail_ s1).
Proof.
  intros HN Hh Ht s'. subst s'.
  assert (Hsend : forall (fuel : nat) (ch timeout : Z) (s1 : State),
            send d hw fuel ch false timeout s = Some (0, s1) ->
            bit_is_set (ucsr_b_ s1) UDRIE = true /\
            tx_head_ s1 <> tx_tail_ s1).
  { intros fuel ch timeout s1. unfold send.
    destruct (send_wait d hw fuel
                (u16 ((tx_head_ s + 1) mod TXN)) timeout 0 s)
      as [[[|] s0]|] eqn:Ew; try discriminate.
    intros [= <-]. simpl. split.
    - apply set_bit_same. unfold UDRIE. lia.
    - apply (send_wait_room _ _ _ _ _ _ Ew). }
  cut (let s' := onSend d s in
       (tx_head_ s <> tx_tail_ s ->
        tx_tail_ s' = (tx_tail_ s + 1) mod TXN /\
        0 <= tx_tail_ s' < TXN /\
        tx_head_ s' = tx_head_ s /\
        tx_buff_ s' = tx_buff_ s /\
        tx_pending d s' = tx_pending d s - 1 /\
        udr_tx s' =
          udr_tx s ++ [u8 (default 0 (tx_buff_ s !! Z.to_nat (tx_tail_ s)))] /\
        (tx_head_ s' = tx_tail_ s' ->
           ucsr_b_ s' = clear_bit (ucsr_b_ s) UDRIE) /\
        (tx_head_ s' <> tx_tail_ s' -> ucsr_b_ s' = ucsr_b_ s)) /\
       (tx_head_ s = tx_tail_ s -> 1 < TXN ->
        tx_head_ s' <> tx_tail_ s' /\
        tx_pending d s' = TXN - 1 /\
        ucsr_b_ s' = ucsr_b_ s) /\
       (bit_is_set (ucsr_b_ s') UDRIE = true -> tx_head_ s' <> tx_tail_ s')).
  { intros (H1 & H2 & H3). split; [exact H1|]. split; [exact H2|].
    split; [exact H3|exact Hsend]. }
  clear Hsend. intros s'. subst s'.
  assert (Hnext : (tx_tail_ s + 1) mod TXN =
                  if tx_tail_ s + 1 =? TXN then 0 else tx_tail_ s + 1).
  { destruct (Z.eqb_spec (tx_tail_ s + 1) TXN) as [E|E].
    - rewrite E. apply Z.mod_same. lia.
    - apply Z.mod_small. lia. }
  unfold onSend. simpl.
  rewrite u16_mod_small by lia. rewrite Hnext. clear Hnext.
  destruct (Z.eqb_spec (tx_tail_ s + 1) TXN) as [E1|E1];
    match goal with
    | |- context [Z.eqb ?a ?b] => destruct (Z.eqb_spec a b) as [E|E]
    end; unfold tx_pending; simpl;
    rewrite !ring_count by lia;
    repeat match goal with
    | |- context [Z.leb ?a ?b] => destruct (Z.leb_spec a b)
    end;
    (split; [|split]);
    try (intros NE; repeat split; (lia || congruence));
    try (intros EQ H1; repeat split; (lia || congruence));
    try (intros Hb; rewrite clear_bit_same in Hb by (unfold UDRIE; lia);
         discriminate);
    try (intros _; lia).
Qed.

(** * Opening the port *)

Lemma open_sets_TXEN b :
  bit_is_set
    (clear_bit (set_bit (set_bit (set_bit b TXEN) RXEN) RXCIE) UDRIE) TXEN
  = true.
Proof.
  unfold TXEN, RXEN, RXCIE, UDRIE.
  rewrite clear_bit_other, !set_bit_other, set_bit_same by lia.
  reflexivity.
Qed.


(** * Flushing and closing *)

(** When [flush] returns, the transmit-empty interrupt is off and the
    hardware has signalled transmit-complete. *)
Lemma flush_post fuel s rc s1 :
  flush d hw fuel s = Some (rc, s1) ->
  rc = 0 /\
  bit_is_set (ucsr_b_ s1) UDRIE = false /\
  bit_is_set (ucsr_a_ s1) TXC = true.
Proof.
  revert s. induction fuel as [|fuel IH]; intros s; simpl; [discriminate|].
  destruct (bit_is_set (ucsr_b_ s) UDRIE) eqn:Eb; simpl.
  - apply IH.
  - unfold bit_is_clear. fold (bit_is_set (ucsr_a_ s) TXC).
    destruct (bit_is_set (ucsr_a_ s) TXC) eqn:Ea; simpl.
    + intros [= <- <-]. auto.
    + apply IH.
Qed.

(** More fuel never changes the outcome of a loop that has returned. *)
Lemma flush_fuel_mono fuel fuel' s r :
  flush d hw fuel s = Some r -> (fuel <= fuel')%nat ->
  flush d hw fuel' s = Some r.
Proof.
  revert fuel' s. induction fuel as [|fuel IH]; intros fuel' s; simpl;
    [discriminate|].
  intros H Hle. destruct fuel' as [|fuel']; [lia|]. simpl.
  destruct (bit_is_set (ucsr_b_ s) UDRIE || bit_is_clear (ucsr_a_ s) TXC);
    [|exact H].
  apply IH; [exact H|lia].
Qed.

Lemma clear_all_bits b :
  let b' :=
    clear_bit (clear_bit (clear_bit (clear_bit b TXEN) RXEN) RXCIE) UDRIE in
  bit_is_set b' TXEN = false /\ bit_is_set b' RXEN = false /\
  bit_is_set b' RXCIE = false /\ bit_is_set b' UDRIE = false.
Proof.
  unfold TXEN, RXEN, RXCIE, UDRIE. simpl.
  repeat split.
  - rewrite !clear_bit_other, clear_bit_same by lia. reflexivity.
  - rewrite !clear_bit_other, clear_bit_same by lia. reflexivity.
  - rewrite !clear_bit_other, clear_bit_same by lia. reflexivity.
  - rewrite clear_bit_same by lia. reflexivity.
Qed.

(** What [close()] does once [flush] has returned: it clears the
    transmit and receive enable bits and both interrupt-enable bits and
    empties the receive ring, so the state is the one [flush] left with
    the four bits cleared and [rx_head_] moved to [rx_tail_]; the port is
    closed, [available()] is 0 and [recv()] finds no data, whatever was
    still unread. The transmit ring and the data register log are as
    [flush] left them. *)
Lemma close_discards (fuel : nat) (s s' : State) :
  0 < RXN <= 65536 ->
  close d hw fuel s = Some s' ->
  exists s1,
    flush d hw fuel s = Some (0, s1) /\
    bit_is_set (ucsr_b_ s1) UDRIE = false /\
    bit_is_set (ucsr_a_ s1) TXC = true /\
    ucsr_b_ s' =
      clear_bit (clear_bit (clear_bit (clear_bit (ucsr_b_ s1) TXEN) RXEN)
                   RXCIE) UDRIE /\
    bit_is_set (ucsr_b_ s') TXEN = false /\
    bit_is_set (ucsr_b_ s') RXEN = false /\
    bit_is_set (ucsr_b_ s') RXCIE = false /\
    bit_is_set (ucsr_b_ s') UDRIE = false /\
    isOpen s' = false /\
    rx_head_ s' = rx_tail_ s1 /\
    rx_tail_ s' = rx_tail_ s1 /\
    rx_buff_ s' = rx_buff_ s1 /\
    available d s' = 0 /\
    recv d s' = (u16 (BTR_USART_NO_DATA d), s') /\
    tx_head_ s' = tx_head_ s1 /\
    tx_tail_ s' = tx_tail_ s1 /\
    tx_buff_ s' = tx_buff_ s1 /\
    udr_tx s' = udr_tx s1.
Proof.
  intros HN. unfold close.
  destruct (flush d hw fuel s) as [[rc s1]|] eqn:Ef; [|discriminate].
  intros [= <-]. exists s1.
  destruct (flush_post _ _ _ _ Ef) as (-> & Hu & Ht).
  destruct (clear_all_bits (ucsr_b_ s1)) as (B1 & B2 & B3 & B4).
  simpl in B1, B2, B3, B4.
  split; [reflexivity|]. split; [exact Hu|]. split; [exact Ht|].
  simpl. split; [reflexivity|].
  split; [exact B1|]. split; [exact B2|]. split; [exact B3|].
  split; [exact B4|].
  split. { unfold isOpen. simpl. rewrite B1, B2. reflexivity. }
  split; [reflexivity|]. split; [reflexivity|]. split; [reflexivity|].
  split.
  { unfold available. simpl.
    replace (RXN + rx_tail_ s1 - rx_tail_ s1) with RXN by lia.
    destruct (Z.eq_dec RXN 65536) as [E|E].
    - rewrite E. reflexivity.
    - rewrite u16_small by lia. rewrite Z.mod_same by lia. reflexivity. }
  split.
  { unfold recv. simpl. rewrite Z.eqb_refl. reflexivity. }
  repeat split.
Qed.

Lemma onSend_measure (s : State) :
  0 < TXN <= 65536 ->
  0 <= tx_head_ s < TXN ->
  0 <= tx_tail_ s < TXN ->
  bit_is_set (ucsr_b_ s) UDRIE = true ->
  let s' := onSend d s in
  0 <= tx_tail_ s' < TXN /\ tx_head_ s' = tx_head_ s /\
  sreg s' = sreg s /\ ucsr_a_ s' = ucsr_a_ s /\
  0 <= flush_measure d s' < flush_measure d s.
Proof.
  intros HN Hh Ht Hb s'. subst s'.
  assert (Hnext : (tx_tail_ s + 1) mod TXN =
                  if tx_tail_ s + 1 =? TXN then 0 else tx_tail_ s + 1).
  { destruct (Z.eqb_spec (tx_tail_ s + 1) TXN) as [E|E].
    - rewrite E. apply Z.mod_same. lia.
    - apply Z.mod_small. lia. }
  assert (Hm0 : flush_measure d s =
                if tx_pending d s =? 0 then TXN else tx_pending d s).
  { unfold flush_measure. rewrite Hb. reflexivity. }
  rewrite Hm0. clear Hm0.
  unfold onSend. simpl.
  rewrite u16_mod_small by lia. rewrite Hnext. clear Hnext.
  destruct (Z.eqb_spec (tx_tail_ s + 1) TXN) as [E1|E1];
    match goal with
    | |- context [Z.eqb ?a ?b] => destruct (Z.eqb_spec a b) as [E|E]
    end; unfold flush_measure, tx_pending; simpl;
    rewrite ?clear_bit_same by (unfold UDRIE; lia); rewrite ?Hb;
    rewrite !ring_count by lia;
    repeat match goal with
    | |- context [Z.leb ?a ?b] => destruct (Z.leb_spec a b)
    | |- context [Z.eqb ?a ?b] => destruct (Z.eqb_spec a b)
    end;
    repeat split; lia.
Qed.

(** With interrupts off and the transmitter idle, [flush] pumps the ring
    itself and returns within one lap of the ring. *)
Lemma flush_pump_returns (fuel : nat) (s : State) :
  0 < TXN <= 65536 ->
  0 <= tx_head_ s < TXN ->
  0 <= tx_tail_ s < TXN ->
  bit_is_set (sreg s) SREG_I = false ->
  bit_is_set (ucsr_a_ s) UDRE = true ->
  bit_is_set (ucsr_a_ s) TXC = true ->
  flush_measure d s < Z.of_nat fuel ->
  exists s1, flush d quiet fuel s = Some (0, s1).
Proof.
  intros HN. revert s.
  induction fuel as [|fuel IH]; intros s Hh Ht Hi He Hc Hm.
  - exfalso. unfold flush_measure, tx_pending in Hm.
    pose proof (Z.mod_pos_bound (TXN + tx_head_ s - tx_tail_ s) TXN
                  ltac:(lia)).
    destruct (bit_is_set (ucsr_b_ s) UDRIE); [|lia].
    destruct (Z.eqb_spec ((TXN + tx_head_ s - tx_tail_ s) mod TXN) 0); lia.
  - simpl. unfold bit_is_clear.
    fold (bit_is_set (ucsr_a_ s) TXC). fold (bit_is_set (sreg s) SREG_I).
    rewrite Hi, He, Hc. simpl.
    destruct (bit_is_set (ucsr_b_ s) UDRIE) eqn:Hb; simpl.
    + destruct (onSend_measure s HN Hh Ht Hb) as (T & H & S1 & A1 & M).
      unfold elapse, quiet.
      apply IH; simpl; try congruence; try lia.
      unfold flush_measure in *. simpl. unfold tx_pending in *. simpl. lia.
    + eauto.
Qed.

Lemma flush_measure_bound (s : State) :
  0 < TXN -> 0 <= flush_measure d s <= TXN.
Proof.
  intros HN. unfold flush_measure, tx_pending.
  pose proof (Z.mod_pos_bound (TXN + tx_head_ s - tx_tail_ s) TXN
                ltac:(lia)).
  destruct (bit_is_set (ucsr_b_ s) UDRIE); [|lia].
  destruct (Z.eqb_spec ((TXN + tx_head_ s - tx_tail_ s) mod TXN) 0); lia.
Qed.

(** So [close()] does return there, with one lap of fuel. *)
Lemma close_pump_returns (fuel : nat) (s : State) :
  0 < TXN <= 65536 ->
  0 <= tx_head_ s < TXN ->
  0 <= tx_tail_ s < TXN ->
  bit_is_set (sreg s) SREG_I = false ->
  bit_is_set (ucsr_a_ s) UDRE = true ->
  bit_is_set (ucsr_a_ s) TXC = true ->
  TXN < Z.of_nat fuel ->
  exists s', close d quiet fuel s = Some s'.
Proof.
  intros HN Hh Ht Hi He Hc Hf.
  pose proof (flush_measure_bound s ltac:(lia)) as Hm.
  destruct (flush_pump_returns fuel s HN Hh Ht Hi He Hc ltac:(lia))
    as [s1 H1].
  unfold close. rewrite H1. eauto.
Qed.

(** * Sending into a full ring *)

Lemma u32_add_l a b : u32 (u32 a + b) = u32 (a + b).
Proof. unfold u32. apply Zplus_mod_idemp_l. Qed.

Lemma tx_stuck_inv hn s :
  tx_stuck hn s = true ->
  (hn =? tx_tail_ s) = true /\
  bit_is_clear (sreg s) SREG_I && bit_is_set (ucsr_a_ s) UDRE = false.
Proof.
  unfold tx_stuck. intros H. apply andb_true_iff in H as [H1 H2].
  split; [exact H1|]. apply negb_true_iff. exact H2.
Qed.

(** Polls that find the ring full and the handler out of reach only add
    to [delays] (when a timeout is set) and let the hardware run. *)
Lemma send_wait_skip hn timeout (m f : nat) :
  forall (delays : Z) (s : State),
  0 <= delays < 4294967296 ->
  (forall i, (i < m)%nat -> tx_stuck hn (elapse_n hw i s) = true) ->
  (0 < timeout ->
   forall j, (1 <= j <= m)%nat ->
     u32 (delays + Z.of_nat j * BTR_USART_TX_DELAY d) < timeout) ->
  send_wait d hw (m + f) hn timeout delays s =
  send_wait d hw f hn timeout
    (if 0 <? timeout
     then u32 (delays + Z.of_nat m * BTR_USART_TX_DELAY d) else delays)
    (elapse_n hw m s).
Proof.
  induction m as [|m IH]; intros delays s Hr Hs Hd.
  - simpl. rewrite Z.add_0_r, u32_small by lia.
    destruct (0 <? timeout); reflexivity.
  - destruct (tx_stuck_inv _ _ (Hs O ltac:(lia))) as [Hfull Hpump].
    simpl in Hfull, Hpump.
    change (S m + f)%nat with (S (m + f)).
    cbn [send_wait]. rewrite Hfull, Hpump.
    destruct (Z.ltb_spec 0 timeout) as [Hp|Hp].
    + pose proof (Hd Hp 1%nat ltac:(lia)) as H1.
      change (Z.of_nat 1) with 1 in H1. rewrite Z.mul_1_l in H1.
      destruct (Z.leb_spec timeout (u32 (delays + BTR_USART_TX_DELAY d)))
        as [C|_]; [lia|].
      rewrite IH.
      * destruct (Z.ltb_spec 0 timeout) as [_|C]; [|lia].
        rewrite u32_add_l. simpl elapse_n.
        f_equal. f_equal. lia.
      * apply u32_range.
      * intros i Hi. apply (Hs (S i)). lia.
      * intros _ j Hj. rewrite u32_add_l.
        replace (delays + BTR_USART_TX_DELAY d
                 + Z.of_nat j * BTR_USART_TX_DELAY d)
          with (delays + Z.of_nat (S j) * BTR_USART_TX_DELAY d) by lia.
        apply Hd; [exact Hp|lia].
    + rewrite IH.
      * destruct (Z.ltb_spec 0 timeout) as [C|_]; [lia|]. reflexivity.
      * exact Hr.
      * intros i Hi. apply (Hs (S i)). lia.
      * intros C. lia.
Qed.

(** A bound that leaves room for one more step below [2^32] is reached by
    a [uint32_t] counter that grows in steps of [D > 0]: there is a first
    round at which the counter is no longer below the bound. *)
Lemma delays_reach (D timeout : Z) :
  0 < D -> 0 < timeout -> timeout + D <= 4294967296 ->
  exists n : nat,
    (forall j, (1 <= j <= n)%nat -> u32 (Z.of_nat j * D) < timeout) /\
    timeout <= u32 (Z.of_nat (S n) * D).
Proof.
  intros HD Ht Hw.
  exists (Z.to_nat ((timeout - 1) / D)).
  pose proof (Z.div_pos (timeout - 1) D ltac:(lia) HD) as Hq.
  pose proof (Z.mul_div_le (timeout - 1) D HD) as Hlo.
  pose proof (Z.mul_succ_div_gt (timeout - 1) D HD) as Hhi.
  split.
  - intros j Hj.
    assert (Z.of_nat j <= (timeout - 1) / D) by lia.
    assert (Z.of_nat j * D <= D * ((timeout - 1) / D)) by nia.
    rewrite u32_small by nia. lia.
  - rewrite Nat2Z.inj_succ, Z2Nat.id by lia.
    rewrite u32_small by nia. nia.
Qed.

(** A counter that grows in steps of 2 never reaches [2^32 - 1]: with
    such a delay step and bound the wait would not time out. *)
Lemma delays_never_reach (k : nat) : u32 (Z.of_nat k * 2) < 4294967295.
Proof.
  unfold u32. change 4294967296 with (2147483648 * 2).
  rewrite Z.mul_mod_distr_r by lia.
  pose proof (Z.mod_pos_bound (Z.of_nat k) 2147483648 ltac:(lia)). lia.
Qed.

(** The ring stays full and out of reach for [n + 1] polls, and the
    [n + 1]-th round of delay is the first to reach the bound: [send]
    returns -1 there. *)
Lemma send_times_out (ch timeout : Z) (drain : bool) (n fuel : nat)
  (s : State) :
  let hn := u16 ((tx_head_ s + 1) mod TXN) in
  0 < timeout ->
  (forall i, (i <= n)%nat -> tx_stuck hn (elapse_n hw i s) = true) ->
  (forall j, (1 <= j <= n)%nat -> tx_delays d j < timeout) ->
  timeout <= tx_delays d (S n) ->
  (n < fuel)%nat ->
  send d hw fuel ch drain timeout s = Some (-1, elapse_n hw n s).
Proof.
  intros hn Hp Hs Hd Hto Hf.
  unfold send. fold hn.
  replace fuel with (n + S (fuel - S n))%nat by lia.
  rewrite send_wait_skip; try lia.
  - destruct (Z.ltb_spec 0 timeout) as [_|C]; [|lia].
    destruct (tx_stuck_inv _ _ (Hs n ltac:(lia))) as [Hfull Hpump].
    cbn [send_wait]. rewrite Hfull, Hpump.
    destruct (Z.ltb_spec 0 timeout) as [_|C]; [|lia].
    rewrite u32_add_l, Z.add_0_l.
    replace (Z.of_nat n * BTR_USART_TX_DELAY d + BTR_USART_TX_DELAY d)
      with (Z.of_nat (S n) * BTR_USART_TX_DELAY d) by lia.
    fold (tx_delays d (S n)).
    destruct (Z.leb_spec timeout (tx_delays d (S n))) as [_|C]; [|lia].
    reflexivity.
  - intros i Hi. apply Hs. lia.
  - intros _ j Hj. rewrite Z.add_0_l. apply (Hd j Hj).
Qed.

(** So a [send] with a timeout that leaves room for one more delay step
    below [2^32] does give up on a ring that never gets room. *)
Lemma send_gives_up (ch timeout : Z) (drain : bool) (s : State) :
  let hn := u16 ((tx_head_ s + 1) mod TXN) in
  0 < BTR_USART_TX_DELAY d ->
  0 < timeout ->
  timeout + BTR_USART_TX_DELAY d <= 4294967296 ->
  (forall i, tx_stuck hn (elapse_n hw i s) = true) ->
  exists n : nat,
    forall fuel, (n < fuel)%nat ->
      send d hw fuel ch drain timeout s = Some (-1, elapse_n hw n s).
Proof.
  intros hn HD Ht Hw Hs.
  destruct (delays_reach _ _ HD Ht Hw) as (n & Hlt & Hge).
  exists n. intros fuel Hf.
  apply send_times_out; try assumption.
  intros i _. apply Hs.
Qed.

(** C3. [send(ch, drain, timeout)] with [head_next] the slot after
    [tx_head_]. While there is no room for that slot it busy-waits: a poll
    that finds interrupts disabled and the data register empty calls
    [onSend] by hand and polls again; with [timeout > 0] the call returns
    -1 at the first poll at which the accumulated [delays] have reached
    [timeout] while no room has appeared; with [timeout = 0] it never
    gives up; and when room appears before that, by the hardware or by the
    manual call, the byte is stored, [tx_head_] advances, the
    transmit-empty interrupt is enabled and 0 is returned, with
    [drain = true] once the [flush] that follows has returned. *)
Theorem send_full_ring (ch timeout : Z) (s : State) :
  let hn := u16 ((tx_head_ s + 1) mod TXN) in
  (forall (fuel : nat) (delays : Z) (s0 : State),
     hn = tx_tail_ s0 ->
     bit_is_set (sreg s0) SREG_I = false ->
     bit_is_set (ucsr_a_ s0) UDRE = true ->
     send_wait d hw (S fuel) hn timeout delays s0 =
     send_wait d hw fuel hn timeout delays (elapse hw (onSend d s0))) /\
  (forall (n fuel : nat) (drain : bool),
     0 < timeout ->
     (forall i, (i <= n)%nat -> tx_stuck hn (elapse_n hw i s) = true) ->
     (forall j, (1 <= j <= n)%nat -> tx_delays d j < timeout) ->
     timeout <= tx_delays d (S n) ->
     (n < fuel)%nat ->
     send d hw fuel ch drain timeout s = Some (-1, elapse_n hw n s)) /\
  (forall (fuel : nat) (drain : bool),
     timeout = 0 ->
     (forall i, (i < fuel)%nat -> tx_stuck hn (elapse_n hw i s) = true) ->
     send d hw fuel ch drain timeout s = None) /\
  (forall (m fuel : nat),
     (forall i, (i < m)%nat -> tx_stuck hn (elapse_n hw i s) = true) ->
     (0 < timeout ->
      forall j, (1 <= j <= m)%nat -> tx_delays d j < timeout) ->
     let sm := elapse_n hw m s in
     let sr := if hn =? tx_tail_ sm then elapse hw (onSend d sm) else sm in
     (hn = tx_tail_ sm ->
      bit_is_set (sreg sm) SREG_I = false /\
      bit_is_set (ucsr_a_ sm) UDRE = true) ->
     hn <> tx_tail_ sr ->
     (m + 1 < fuel)%nat ->
     exists s',
       send d hw fuel ch false timeout s = Some (0, s') /\
       tx_buff_ s' = <[Z.to_nat hn := u8 ch]> (tx_buff_ sr) /\
       tx_head_ s' = hn /\
       tx_tail_ s' = tx_tail_ sr /\
       ucsr_b_ s' = set_bit (ucsr_b_ sr) UDRIE /\
       bit_is_set (ucsr_b_ s') UDRIE = true /\
       udr_tx s' = udr_tx sr /\
       send d hw fuel ch true timeout s =
         match flush d hw fuel s' with
         | Some (_, s'') => Some (0, s'')
         | None => None
         end).
Proof.
  intros hn.
  assert (Hd0 : forall m,
            (0 < timeout ->
             forall j, (1 <= j <= m)%nat -> tx_delays d j < timeout) ->
            0 < timeout ->
            forall j, (1 <= j <= m)%nat ->
              u32 (0 + Z.of_nat j * BTR_USART_TX_DELAY d) < timeout).
  { intros m H Hp j Hj. rewrite Z.add_0_l. apply (H Hp j Hj). }
  split; [|split; [|split]].
  - intros fuel delays s0 Hfull Hi He. cbn [send_wait].
    rewrite <- Hfull, Z.eqb_refl. unfold bit_is_clear.
    fold (bit_is_set (sreg s0) SREG_I). rewrite Hi, He. reflexivity.
  - intros n fuel drain Hp Hs Hd Hto Hf.
    apply send_times_out; assumption.
  - intros fuel drain -> Hs.
    unfold send. fold hn.
    replace fuel with (fuel + 0)%nat by lia.
    rewrite send_wait_skip; try lia; [reflexivity|exact Hs].
  - intros m fuel Hs Hd sm sr Hpump Hroom Hf.
    assert (Hw : send_wait d hw fuel hn timeout 0 s = Some (false, sr)).
    { replace fuel with (m + S (S (fuel - m - 2)))%nat by lia.
      rewrite send_wait_skip; try lia; [|exact Hs|apply Hd0; exact Hd].
      fold sm. subst sr.
      destruct (Z.eqb_spec hn (tx_tail_ sm)) as [E|E].
      - destruct (Hpump E) as [Hi He].
        cbn [send_wait]. rewrite <- E at 1. rewrite Z.eqb_refl.
        unfold bit_is_clear. fold (bit_is_set (sreg sm) SREG_I).
        rewrite Hi, He. simpl negb. simpl andb. cbv iota.
        destruct (Z.eqb_spec hn (tx_tail_ (elapse hw (onSend d sm))))
          as [C|_]; [contradiction|]. reflexivity.
      - cbn [send_wait].
        destruct (Z.eqb_spec hn (tx_tail_ sm)) as [C|_]; [contradiction|].
        reflexivity. }
    unfold send. fold hn. rewrite Hw.
    eexists. split; [reflexivity|]. simpl.
    repeat split.
    apply set_bit_same. unfold UDRIE. lia.
Qed.

(** * Receiving into a buffer *)

Lemma recv_empty (s : State) :
  rx_head_ s = rx_tail_ s -> recv d s = (u16 (BTR_USART_NO_DATA d), s).
Proof.
  intros E. unfold recv. rewrite E, Z.eqb_refl. reflexivity.
Qed.

(** With [timeout = 0], polls that find the receive ring empty change
    nothing but the hardware's own state: buffer, position, count and
    status are carried over. *)
Lemma recv_loop_wait0 (m f : nat) buff pos bytes delays rc :
  forall s : State,
  0 < bytes ->
  Z.land (BTR_USART_NO_DATA d) (u16 (BTR_USART_NO_DATA d)) <> 0 ->
  (forall i, (i < m)%nat ->
     rx_head_ (elapse_n hw i s) = rx_tail_ (elapse_n hw i s)) ->
  recv_loop d hw (m + f) 0 buff pos bytes delays rc s =
  recv_loop d hw f 0 buff pos bytes delays rc (elapse_n hw m s).
Proof.
  induction m as [|m IH]; intros s Hb Hnd He; [reflexivity|].
  change (S m + f)%nat with (S (m + f)). cbn [recv_loop].
  destruct (Z.ltb_spec 0 bytes) as [_|C]; [|lia].
  rewrite (recv_empty s (He O ltac:(lia))).
  destruct (Z.eqb_spec (Z.land (BTR_USART_NO_DATA d)
                          (u16 (BTR_USART_NO_DATA d))) 0) as [C|_];
    [contradiction|].
  simpl negb. cbv iota. change (0 <? 0) with false. cbv iota.
  rewrite IH; [reflexivity|exact Hb|exact Hnd|].
  intros i Hi. apply (He (S i)). lia.
Qed.

Lemma u16_lor_land a b : Z.land (u16 (Z.lor a b)) (u16 b) = u16 b.
Proof.
  apply Z.bits_inj'. intros n Hn.
  unfold u16. change 65536 with (2 ^ 16).
  rewrite Z.land_spec.
  destruct (Z.ltb_spec n 16) as [L|L].
  - rewrite !Z.mod_pow2_bits_low, Z.lor_spec by lia.
    destruct (Z.testbit a n), (Z.testbit b n); reflexivity.
  - rewrite !Z.mod_pow2_bits_high by lia. reflexivity.
Qed.

(** With [timeout > 0], once the accumulated [delays] can reach the bound
    the call returns: each turn of the loop either takes a byte or adds
    to [delays]. *)
Lemma recv_loop_returns timeout (n : nat) :
  0 < timeout ->
  timeout <= rx_delays d n ->
  forall (fuel k : nat) buff pos bytes rc (s : State),
  (k < n)%nat ->
  0 <= bytes ->
  (Z.to_nat bytes + (n - k) < fuel)%nat ->
  exists r,
    recv_loop d hw fuel timeout buff pos bytes (rx_delays d k) rc s = Some r.
Proof.
  intros Ht Hn.
  induction fuel as [|fuel IH]; intros k buff pos bytes rc s Hk Hb Hf;
    [lia|].
  cbn [recv_loop].
  destruct (Z.ltb_spec 0 bytes) as [Hp|Hp]; [|eauto].
  destruct (recv d s) as [ch s1].
  destruct (negb (Z.land (BTR_USART_NO_DATA d) ch =? 0)).
  - destruct (Z.ltb_spec 0 timeout) as [_|C]; [|lia].
    assert (E : u32 (rx_delays d k + BTR_USART_RX_DELAY d)
                = rx_delays d (S k)).
    { unfold rx_delays. rewrite u32_add_l. f_equal. lia. }
    rewrite E.
    destruct (Z.leb_spec timeout (rx_delays d (S k))) as [L|L]; [eauto|].
    apply IH; try lia.
    destruct (Nat.eq_dec (S k) n) as [<-|NE]; lia.
  - apply IH; lia.
Qed.

(** With [timeout > 0], polls that find the receive ring empty while the
    bound is not reached only add to [delays]. *)
Lemma recv_loop_wait timeout (m f : nat) buff pos bytes rc :
  forall (delays : Z) (s : State),
  0 < timeout ->
  0 <= delays < 4294967296 ->
  0 < bytes ->
  Z.land (BTR_USART_NO_DATA d) (u16 (BTR_USART_NO_DATA d)) <> 0 ->
  (forall i, (i < m)%nat ->
     rx_head_ (elapse_n hw i s) = rx_tail_ (elapse_n hw i s)) ->
  (forall j, (1 <= j <= m)%nat ->
     u32 (delays + Z.of_nat j * BTR_USART_RX_DELAY d) < timeout) ->
  recv_loop d hw (m + f) timeout buff pos bytes delays rc s =
  recv_loop d hw f timeout buff pos bytes
    (u32 (delays + Z.of_nat m * BTR_USART_RX_DELAY d)) rc (elapse_n hw m s).
Proof.
  induction m as [|m IH]; intros delays s Ht Hr Hb Hnd He Hd.
  - simpl. rewrite Z.add_0_r, u32_small by lia. reflexivity.
  - change (S m + f)%nat with (S (m + f)). cbn [recv_loop].
    destruct (Z.ltb_spec 0 bytes) as [_|C]; [|lia].
    rewrite (recv_empty s (He O ltac:(lia))).
    destruct (Z.eqb_spec (Z.land (BTR_USART_NO_DATA d)
                            (u16 (BTR_USART_NO_DATA d))) 0) as [C|_];
      [contradiction|].
    simpl negb. cbv iota.
    destruct (Z.ltb_spec 0 timeout) as [_|C]; [|lia].
    pose proof (Hd 1%nat ltac:(lia)) as H1.
    change (Z.of_nat 1) with 1 in H1. rewrite Z.mul_1_l in H1.
    destruct (Z.leb_spec timeout (u32 (delays + BTR_USART_RX_DELAY d)))
      as [C|_]; [lia|].
    rewrite IH; try assumption.
    + rewrite u32_add_l. simpl elapse_n. f_equal. f_equal. lia.
    + apply u32_range.
    + intros i Hi. apply (He (S i)). lia.
    + intros j Hj. rewrite u32_add_l.
      replace (delays + BTR_USART_RX_DELAY d
               + Z.of_nat j * BTR_USART_RX_DELAY d)
        with (delays + Z.of_nat (S j) * BTR_USART_RX_DELAY d) by lia.
      apply Hd. lia.
Qed.

(** So [recv(buff, bytes, timeout)] with a timeout that leaves room for
    one more delay step below [2^32] returns, whatever the hardware
    does. *)
Lemma recv_buf_returns (buff : list Z) (bytes timeout : Z) (s : State) :
  0 < BTR_USART_RX_DELAY d ->
  0 < timeout ->
  timeout + BTR_USART_RX_DELAY d <= 4294967296 ->
  0 <= bytes ->
  exists (fuel : nat) r, recv_buf d hw fuel buff bytes timeout s = Some r.
Proof.
  intros HD Ht Hw Hb.
  destruct (delays_reach _ _ HD Ht Hw) as (n & _ & Hge).
  exists (S (Z.to_nat bytes + S n)).
  unfold recv_buf.
  apply (recv_loop_returns timeout (S n) Ht Hge _ O); lia.
Qed.

End RingFacts.

(** * The order of the transmit ring *)

Section TxOrder.

Variable d : Defines.
Variable hw : State -> State.

Local Abbreviation TXN := (BTR_USART_TX_BUFF_SIZE d).

(** [send] stores the byte in the slot after [tx_head_], [onSend] takes
    the byte of the slot at [tx_tail_]. On an empty ring the two differ:
    after [send(ch)] the handler transmits what the tail slot held before,
    whatever [ch] is, and finds the ring empty again, with [ch] left in
    the slot behind. *)
Lemma send_then_onSend_stale (fuel : nat) (ch timeout : Z) (s : State) :
  1 < TXN <= 65536 ->
  0 <= tx_tail_ s < TXN ->
  tx_head_ s = tx_tail_ s ->
  exists s1,
    send d hw (S fuel) ch false timeout s = Some (0, s1) /\
    udr_tx (onSend d s1) =
      udr_tx s ++ [u8 (default 0 (tx_buff_ s !! Z.to_nat (tx_tail_ s)))] /\
    tx_head_ (onSend d s1) = tx_tail_ (onSend d s1) /\
    tx_buff_ (onSend d s1) =
      <[Z.to_nat ((tx_tail_ s + 1) mod TXN) := u8 ch]> (tx_buff_ s).
Proof.
  intros HN Ht Hh.
  pose proof (Z.mod_pos_bound (tx_tail_ s + 1) TXN ltac:(lia)) as Hm.
  assert (Hne : (tx_tail_ s + 1) mod TXN <> tx_tail_ s).
  { destruct (Z.eq_dec (tx_tail_ s + 1) TXN) as [E|E].
    - rewrite E, Z.mod_same by lia. lia.
    - rewrite Z.mod_small by lia. lia. }
  unfold send. rewrite Hh. rewrite u16_mod_small by lia.
  cbn [send_wait].
  destruct (Z.eqb_spec ((tx_tail_ s + 1) mod TXN) (tx_tail_ s)) as [C|_];
    [contradiction|].
  eexists. split; [reflexivity|].
  unfold onSend. simpl. rewrite u16_mod_small by lia.
  rewrite Z.eqb_refl. simpl.
  rewrite list_lookup_insert_ne by lia.
  repeat split.
Qed.

End TxOrder.

(** * The typed I2C wrappers *)

Section BytesFacts.

Import I2C.

Lemma le_bytes_length n x : length (le_bytes n x) = n.
Proof.
  revert x. induction n as [|n IH]; intros x; simpl; [reflexivity|].
  rewrite IH. reflexivity.
Qed.

Lemma le_bytes_range n x : Forall (fun b => 0 <= b < 256) (le_bytes n x).
Proof.
  revert x. induction n as [|n IH]; intros x; simpl; constructor.
  - apply Z.mod_pos_bound. lia.
  - apply IH.
Qed.

Lemma le_value_le_bytes n x : le_value (le_bytes n x) = x mod 256 ^ Z.of_nat n.
Proof.
  revert x. induction n as [|n IH]; intros x.
  - simpl. rewrite Z.mod_1_r. reflexivity.
  - cbn [le_bytes le_value]. rewrite IH.
    rewrite Nat2Z.inj_succ, Z.pow_succ_r by lia.
    rewrite Z.rem_mul_r by lia. lia.
Qed.

Lemma le_bytes_le_value l :
  Forall (fun b => 0 <= b < 256) l ->
  le_bytes (length l) (le_value l) = l.
Proof.
  induction 1 as [|b l Hb Hl IH]; [reflexivity|].
  cbn [length le_value le_bytes].
  f_equal.
  - rewrite (Z.mul_comm 256), Z.mod_add by lia.
    apply Z.mod_small. lia.
  - rewrite (Z.mul_comm 256), Z.div_add by lia.
    rewrite Z.div_small by lia. rewrite Z.add_0_l. exact IH.
Qed.

Lemma be_value_be_bytes n x : be_value (be_bytes n x) = x mod 256 ^ Z.of_nat n.
Proof.
  unfold be_value, be_bytes. rewrite rev_involutive.
  apply le_value_le_bytes.
Qed.

End BytesFacts.

Section WrapperFacts.

Import I2C.

Variable Bus : Type.
Variable INT_BITS : Z.
Variable le : bool.
Variable is_ok : Z -> bool.
Variable read_bytes :
  Device Bus -> Z -> Z -> list Z -> Z -> Z * list Z * Device Bus.
Variable write_bytes : Device Bus -> Z -> Z -> list Z -> Z -> Z * Device Bus.

(** Whatever the host byte order, the bytes [write<T>] hands on are the
    value with its most significant byte first. *)
Lemma wire_order (sz : nat) (value : Z) :
  object_bytes le sz
    (if (1 <? Z.of_nat sz) && le then swap le sz value else value)
  = be_bytes sz value.
Proof.
  destruct le.
  - destruct (Z.ltb_spec 1 (Z.of_nat sz)) as [L|L]; simpl.
    + unfold swap, object_bytes, object_value, be_bytes.
      rewrite <- (le_bytes_length sz value) at 1.
      rewrite <- length_rev.
      apply le_bytes_le_value.
      apply Forall_rev, le_bytes_range.
    + unfold object_bytes, be_bytes.
      destruct sz as [|[|sz]]; [reflexivity|reflexivity|lia].
  - rewrite andb_false_r. reflexivity.
Qed.

(** C8, as the code has it. [write<T>] does not use the scratch buffer:
    it hands the device on as it is, together with the bytes of its own
    copy of the value, most significant byte first, and [sizeof(T)]; these
    bytes are the object's bytes reversed exactly when the host is
    little-endian and [sizeof(T) > 1]. [read<T>] delegates with the
    scratch buffer as destination and [sizeof(T)] as count, keeps what the
    call left there, and decodes it, most significant byte first, when
    the status read as [int] is ok; that decoding is the host's reading of
    the bytes, reversed once exactly when the host is little-endian. What
    [write<T>] sends for a value, [decodeFixedInt] reads back as that
    value. *)
Theorem typed_wrappers_delegate :
  (forall (sz : nat) (s : Device Bus) (addr reg value : Z),
     write Bus le write_bytes sz s addr reg value
       = write_bytes s addr reg (be_bytes sz value) (Z.of_nat sz) /\
     be_bytes sz value
       = if (1 <? Z.of_nat sz) && le
         then rev (object_bytes le sz value)
         else object_bytes le sz value) /\
  (forall (sz : nat) (s : Device Bus) (addr reg val : Z),
     read Bus INT_BITS is_ok read_bytes sz s addr reg val
       = let '(r, buf, s1) :=
           read_bytes s addr reg (buff_ s) (Z.of_nat sz) in
         (u32 (to_int INT_BITS r),
          if is_ok (to_int INT_BITS r) then be_value (take sz buf) else val,
          set_buff buf s1)) /\
  (forall l : list Z,
     be_value l = object_value le (if le then rev l else l)) /\
  (forall (sz : nat) (value : Z) (rest : list Z),
     decodeFixedInt (be_bytes sz value ++ rest) sz true
       = value mod 256 ^ Z.of_nat sz).
Proof.
  split; [|split; [|split]].
  - intros sz s addr reg value. split.
    + unfold write. rewrite wire_order. reflexivity.
    + destruct le.
      * destruct (Z.ltb_spec 1 (Z.of_nat sz)) as [L|L]; simpl.
        -- reflexivity.
        -- unfold object_bytes, be_bytes.
           destruct sz as [|[|sz]]; [reflexivity|reflexivity|lia].
      * rewrite andb_false_r. reflexivity.
  - intros sz s addr reg val. unfold read.
    destruct (read_bytes s addr reg (buff_ s) (Z.of_nat sz)) as [[r buf] s1].
    reflexivity.
  - intros l. destruct le; reflexivity.
  - intros sz value rest. unfold decodeFixedInt.
    assert (Hl : length (be_bytes sz value) = sz).
    { unfold be_bytes. rewrite length_rev. apply le_bytes_length. }
    rewrite take_app_length' by (symmetry; exact Hl).
    apply be_value_be_bytes.
Qed.

(** Where [int] has 32 bits, [read<T>] hands the status back as it got
    it and leaves [*val] alone unless the status is ok. *)
Lemma read_frame_int32 (sz : nat) (s : Device Bus) (addr reg val : Z) :
  INT_BITS = 32 ->
  let '(r, buf, s1) := read_bytes s addr reg (buff_ s) (Z.of_nat sz) in
  0 <= r < 4294967296 ->
  fst (fst (read Bus INT_BITS is_ok read_bytes sz s addr reg val)) = r /\
  (is_ok (to_int INT_BITS r) = false ->
   snd (fst (read Bus INT_BITS is_ok read_bytes sz s addr reg val)) = val).
Proof.
  intros ->. unfold read.
  destruct (read_bytes s addr reg (buff_ s) (Z.of_nat sz)) as [[r buf] s1].
  intros Hr. simpl. split.
  - unfold to_int. change (2 ^ (32 - 1)) with 2147483648.
    change (2 ^ 32) with 4294967296.
    destruct (Z_lt_le_dec r 2147483648) as [L|L].
    + rewrite Z.mod_small by lia.
      replace (r + 2147483648 - 2147483648) with r by lia.
      apply u32_small. lia.
    + replace (r + 2147483648) with (r - 2147483648 + 1 * 4294967296)
        by lia.
      rewrite Z.mod_add by lia. rewrite Z.mod_small by lia.
      unfold u32.
      replace (r - 2147483648 - 2147483648)
        with (r + (-1) * 4294967296) by lia.
      rewrite Z.mod_add by lia. apply Z.mod_small. lia.
  - intros ->. reflexivity.
Qed.

(** Where [int] has 16 bits, only the low half of the status survives
    the assignment to [int rc]. *)
Lemma read_status_int16 (sz : nat) (s : Device Bus) (addr reg val : Z) :
  INT_BITS = 16 ->
  fst (fst (read Bus INT_BITS is_ok read_bytes sz s addr reg val))
  = u32 (int16 (fst (fst (read_bytes s addr reg (buff_ s) (Z.of_nat sz))))).
Proof.
  intros ->. unfold read.
  destruct (read_bytes s addr reg (buff_ s) (Z.of_nat sz)) as [[r buf] s1].
  reflexivity.
Qed.

End WrapperFacts.

(** * The engines at work on the sample configurations *)

Lemma elapse_n_quiet_rx (n : nat) (s : State) :
  rx_head_ (elapse_n quiet n s) = rx_head_ s /\
  rx_tail_ (elapse_n quiet n s) = rx_tail_ s.
Proof.
  revert s. induction n as [|n IH]; intros s; [split; reflexivity|].
  simpl. destruct (IH (elapse quiet s)) as [-> ->]. split; reflexivity.
Qed.

(** C1. What the code does with "hello": on a port just constructed and
    opened, [send("hello", 5, drain = true)] returns 0, but the bytes that
    reached the data register are the initial content of slot 0 followed
    by 'h', 'e', 'l', 'l'; the 'o' is still in slot 5 of the ring, which
    the engine takes to be empty. This is so with interrupts disabled,
    where [flush] calls [onSend] itself, with interrupts enabled, where
    the handler runs between the polls of [flush], and when the handler
    runs right after every single [send]. *)
Theorem send_hello_on_the_wire :
  (exists s',
     send_buf sample quiet 20 hello 5 true (snd (open sample (fresh 0)))
       = Some (0, s') /\
     udr_tx s' = [0; 104; 101; 108; 108] /\
     tx_buff_ s' !! 5%nat = Some 111 /\
     tx_head_ s' = tx_tail_ s') /\
  (exists s',
     send_buf sample (udre_isr sample) 20 hello 5 true
       (snd (open sample (fresh 128)))
       = Some (0, s') /\
     udr_tx s' = [0; 104; 101; 108; 108] /\
     tx_buff_ s' !! 5%nat = Some 111 /\
     tx_head_ s' = tx_tail_ s') /\
  (let s' := send_each sample hello (snd (open sample (fresh 128))) in
   udr_tx s' = [0; 104; 101; 108; 108] /\
   tx_buff_ s' !! 5%nat = Some 111 /\
   tx_head_ s' = tx_tail_ s').
Proof.
  split; [|split].
  - eexists. split; [vm_compute; reflexivity|]. repeat split; reflexivity.
  - eexists. split; [vm_compute; reflexivity|]. repeat split; reflexivity.
  - vm_compute. repeat split; reflexivity.
Qed.

(** C2 as stated fails: on a port with an empty receive ring and nothing
    arriving, [recv(buff, 2, 0)] does not return, however long it is
    given. *)
Lemma recv_timeout0_never_returns :
  ~ exists (fuel : nat) r,
      recv_buf sample quiet fuel [9; 9] 2 0 (fresh 0) = Some r.
Proof.
  intros (fuel & r & H). unfold recv_buf in H.
  replace fuel with (fuel + 0)%nat in H by lia.
  rewrite (recv_loop_wait0 sample quiet fuel 0) in H.
  - discriminate.
  - lia.
  - vm_compute. discriminate.
  - intros i _.
    destruct (elapse_n_quiet_rx i (fresh 0)) as [-> ->].
    reflexivity.
Qed.

Lemma send_full_ring_witness :
  send sample quiet 2 33 false 2 (busy 128)
    = Some (-1, elapse_n quiet 1 (busy 128)) /\
  send sample quiet 5 33 true 0 (busy 128) = None /\
  (exists s',
     send sample (udre_isr sample) 3 33 false 2 (busy 128) = Some (0, s') /\
     tx_head_ s' = 7 /\ bit_is_set (ucsr_b_ s') UDRIE = true) /\
  (exists s',
     send sample quiet 3 33 false 2 (busy 0) = Some (0, s') /\
     tx_head_ s' = 7 /\ udr_tx s' = [55]).
Proof.
  split; [|split; [|split]].
  - destruct (send_full_ring sample quiet 33 2 (busy 128))
      as (_ & Hto & _).
    apply (Hto 1%nat 2%nat false).
    + lia.
    + intros i Hi. destruct i as [|[|i]]; [reflexivity|reflexivity|lia].
    + intros j Hj. assert (j = 1%nat) as -> by lia. vm_compute. reflexivity.
    + vm_compute. discriminate.
    + lia.
  - destruct (send_full_ring sample quiet 33 0 (busy 128))
      as (_ & _ & Hnever & _).
    apply (Hnever 5%nat true).
    + reflexivity.
    + intros i Hi.
      destruct i as [|[|[|[|[|i]]]]]; try reflexivity. lia.
  - destruct (send_full_ring sample (udre_isr sample) 33 2 (busy 128))
      as (_ & _ & _ & Hroom).
    destruct (Hroom 1%nat 3%nat)
      as (s' & Hs & _ & Hh & _ & _ & Hb & _).
    + intros i Hi. assert (i = O) as -> by lia. reflexivity.
    + intros _ j Hj. assert (j = 1%nat) as -> by lia.
      vm_compute. reflexivity.
    + vm_compute. discriminate.
    + vm_compute. discriminate.
    + lia.
    + exists s'. split; [exact Hs|]. split; [exact Hh|exact Hb].
  - destruct (send_full_ring sample quiet 33 2 (busy 0))
      as (_ & _ & _ & Hroom).
    destruct (Hroom O 3%nat)
      as (s' & Hs & _ & Hh & _ & _ & _ & Hu & _).
    + intros i Hi. lia.
    + intros _ j Hj. lia.
    + intros _. split; reflexivity.
    + vm_compute. discriminate.
    + lia.
    + exists s'. split; [exact Hs|]. split; [exact Hh|exact Hu].
Defined.

Lemma onRecv_ring_witness :
  (rx_buff_ (onRecv sample rx_full) = rx_buff_ rx_full /\
   rx_head_ (onRecv sample rx_full) = 0 /\
   Z.land (rx_error_ (onRecv sample rx_full)) 2 = 2) /\
  (rx_buff_ (onRecv sample (busy 128)) !! 3%nat = Some 67 /\
   rx_head_ (onRecv sample (busy 128)) = 4).
Proof.
  split.
  - destruct (onRecv_ring sample rx_full) as (Hfull & _).
    + cbn. lia.
    + cbn. lia.
    + cbn. lia.
    + reflexivity.
    + destruct Hfull as (Hb & Hh & _ & He); [reflexivity|].
      split; [exact Hb|]. split; [exact Hh|exact He].
  - destruct (onRecv_ring sample (busy 128)) as (_ & Hroom & _).
    + cbn. lia.
    + cbn. lia.
    + cbn. lia.
    + reflexivity.
    + destruct Hroom as (Hb & Hh & _); [vm_compute; discriminate|].
      split; [exact Hb|exact Hh].
Defined.

Lemma recv_pop_witness :
  recv sample (fresh 0) = (65280, fresh 0) /\
  Z.land (fst (recv sample (busy 128))) 255 = 65 /\
  Z.shiftr (fst (recv sample (busy 128))) 8 = 16 /\
  rx_tail_ (snd (recv sample (busy 128))) = 2 /\
  rx_error_ (snd (recv sample (busy 128))) = 0.
Proof.
  split.
  - destruct (recv_pop sample (fresh 0)) as (Hempty & _).
    + cbn. lia.
    + cbn. lia.
    + cbn. lia.
    + destruct Hempty as (He & _); [reflexivity|exact He].
  - destruct (recv_pop sample (busy 128)) as (_ & Hpop).
    + cbn. lia.
    + cbn. lia.
    + cbn. lia.
    + destruct Hpop as (Hc & He & Ht & Hz & _); [vm_compute; discriminate|].
      split; [exact Hc|]. split; [exact He|]. split; [exact Ht|exact Hz].
Defined.

Lemma onSend_pop_witness :
  tx_tail_ (onSend sample (busy 128)) = 0 /\
  udr_tx (onSend sample (busy 128)) = [55] /\
  tx_pending sample (onSend sample (busy 128)) = 6 /\
  tx_head_ (onSend sample (fresh 0)) <> tx_tail_ (onSend sample (fresh 0)) /\
  (exists s1,
     send sample quiet 1 33 false 0 (fresh 0) = Some (0, s1) /\
     tx_head_ s1 <> tx_tail_ s1).
Proof.
  destruct (onSend_pop sample quiet (busy 128)) as (Hpop & _).
  { cbn. lia. } { cbn. lia. } { cbn. lia. }
  destruct Hpop as (Ht & _ & _ & _ & Hp & Hu & _); [vm_compute; discriminate|].
  destruct (onSend_pop sample quiet (fresh 0)) as (_ & Hempty & _ & Hsend).
  { cbn. lia. } { cbn. lia. } { cbn. lia. }
  destruct Hempty as (Hne & _); [reflexivity|cbn; lia|].
  split; [exact Ht|]. split; [exact Hu|]. split; [exact Hp|].
  split; [exact Hne|].
  eexists. split; [vm_compute; reflexivity|].
  refine (proj2 (Hsend 1%nat 33 0 _ _)). vm_compute. reflexivity.
Defined.


(** C8 as stated fails for [write<T>]: a 16-bit value written on a
    little-endian host goes out most significant byte first, and the
    scratch buffer is as it was before the call. *)
Lemma write_skips_scratch :
  I2C.bus (snd (I2C.write wire_log true log_write 2 idle_device 80 0 4660))
    = [[18; 52]] /\
  I2C.buff_ (snd (I2C.write wire_log true log_write 2 idle_device 80 0 4660))
    = I2C.buff_ idle_device /\
  take 2 (I2C.buff_
            (snd (I2C.write wire_log true log_write 2 idle_device 80 0 4660)))
    <> [18; 52].
Proof.
  split; [reflexivity|]. split; [reflexivity|].
  vm_compute. discriminate.
Qed.

(** C9. Where [int] has 16 bits, a byte-buffer read that fails with the
    status 0x00010000 makes [read<uint8_t>] return 0 and store the stray
    byte of the scratch buffer to [*val]; with a 32-bit [int] the same
    call returns 0x00010000 and leaves [*val] at 119. *)
Theorem read_loses_status_int16 :
  I2C.read wire_log 16 status_is_ok (failing_read 65536 171) 1
    idle_device 80 0 119
    = (0, 171, I2C.set_buff [171; 0; 0; 0; 0; 0; 0; 0] idle_device) /\
  I2C.read wire_log 32 status_is_ok (failing_read 65536 171) 1
    idle_device 80 0 119
    = (65536, 119, I2C.set_buff [171; 0; 0; 0; 0; 0; 0; 0] idle_device).
Proof.
  split; reflexivity.
Qed.

(** * More of the USART engine *)

Lemma int16_small x : 0 <= x < 32768 -> int16 x = x.
Proof.
  intros H. unfold int16. rewrite Z.mod_small by lia. lia.
Qed.

Lemma next_index n x :
  0 < n -> 0 <= x < n ->
  (x + 1) mod n = if x + 1 =? n then 0 else x + 1.
Proof.
  intros Hn Hx. destruct (Z.eqb_spec (x + 1) n) as [E|E].
  - rewrite E. apply Z.mod_same. lia.
  - apply Z.mod_small. lia.
Qed.

Section Counting.

Variable d : Defines.

Local Abbreviation RXN := (BTR_USART_RX_BUFF_SIZE d).

Lemma available_eq (s : State) :
  0 < RXN <= 32768 ->
  0 <= rx_head_ s < RXN ->
  0 <= rx_tail_ s < RXN ->
  available d s =
    if rx_tail_ s <=? rx_head_ s then rx_head_ s - rx_tail_ s
    else RXN + rx_head_ s - rx_tail_ s.
Proof.
  intros HN Hh Ht. unfold available.
  rewrite u16_small by lia.
  rewrite ring_count by lia.
  apply int16_small. destruct (Z.leb_spec (rx_tail_ s) (rx_head_ s)); lia.
Qed.

(** X1. [available()] counts the unread bytes: it lies between 0 and [N - 1],
    is 0 exactly on the empty ring and [N - 1] exactly on the full one,
    goes up by one with each byte [onRecv] stores, stays put when [onRecv]
    drops a byte, and goes down by one with each byte [recv()] takes. *)
Theorem available_counts (s : State) :
  0 < RXN <= 32768 ->
  0 <= rx_head_ s < RXN ->
  0 <= rx_tail_ s < RXN ->
  0 <= available d s <= RXN - 1 /\
  (available d s = 0 <-> rx_head_ s = rx_tail_ s) /\
  (available d s = RXN - 1 <-> (rx_head_ s + 1) mod RXN = rx_tail_ s) /\
  ((rx_head_ s + 1) mod RXN <> rx_tail_ s ->
     available d (onRecv d s) = available d s + 1) /\
  ((rx_head_ s + 1) mod RXN = rx_tail_ s ->
     available d (onRecv d s) = available d s) /\
  (rx_head_ s <> rx_tail_ s ->
     available d (snd (recv d s)) = available d s - 1) /\
  (rx_head_ s = rx_tail_ s -> available d (snd (recv d s)) = 0).
Proof.
  intros HN Hh Ht.
  pose proof (next_index RXN (rx_head_ s) ltac:(lia) Hh) as Hnh.
  pose proof (next_index RXN (rx_tail_ s) ltac:(lia) Ht) as Hnt.
  rewrite (available_eq s) by lia.
  assert (Hr : available d (onRecv d s) =
               if (rx_head_ s + 1) mod RXN =? rx_tail_ s
               then (if rx_tail_ s <=? rx_head_ s then rx_head_ s - rx_tail_ s
                     else RXN + rx_head_ s - rx_tail_ s)
               else (if rx_tail_ s <=? (rx_head_ s + 1) mod RXN
                     then (rx_head_ s + 1) mod RXN - rx_tail_ s
                     else RXN + (rx_head_ s + 1) mod RXN - rx_tail_ s)).
  { unfold onRecv. cbn [rx_head_ rx_tail_ set_rx_error].
    rewrite u16_mod_small by lia.
    destruct (Z.eqb_spec ((rx_head_ s + 1) mod RXN) (rx_tail_ s)) as [E|E];
      cbn [negb].
    - rewrite available_eq by (cbn; lia). reflexivity.
    - rewrite available_eq
        by (cbn; try lia; apply Z.mod_pos_bound; lia).
      reflexivity. }
  assert (Hp : available d (snd (recv d s)) =
               if rx_head_ s =? rx_tail_ s then 0
               else (if (rx_tail_ s + 1) mod RXN <=? rx_head_ s
                     then rx_head_ s - (rx_tail_ s + 1) mod RXN
                     else RXN + rx_head_ s - (rx_tail_ s + 1) mod RXN)).
  { unfold recv.
    destruct (Z.eqb_spec (rx_head_ s) (rx_tail_ s)) as [E|E]; cbn [negb snd].
    - rewrite available_eq by lia. rewrite E.
      destruct (Z.leb_spec (rx_tail_ s) (rx_tail_ s)); lia.
    - rewrite available_eq
        by (cbn; rewrite ?u16_mod_small by lia; try lia;
            apply Z.mod_pos_bound; lia).
      cbn. rewrite u16_mod_small by lia. reflexivity. }
  rewrite Hr, Hp. rewrite Hnh, Hnt.
  destruct (Z.eqb_spec (rx_head_ s + 1) RXN);
    destruct (Z.eqb_spec (rx_tail_ s + 1) RXN);
    repeat match goal with
    | |- context [Z.leb ?a ?b] => destruct (Z.leb_spec a b)
    | |- context [Z.eqb ?a ?b] => destruct (Z.eqb_spec a b)
    end;
    repeat split; intros; lia.
Qed.

End Counting.

(** * The rings as queues *)

Lemma ring_slice_length buff n start count :
  length (ring_slice buff n start count) = count.
Proof.
  revert start. induction count as [|c IH]; intros start; simpl;
    [reflexivity|]. rewrite IH. reflexivity.
Qed.

Lemma ring_step_ne n start j :
  0 <= start < n -> 0 < j < n -> (start + j) mod n <> start.
Proof.
  intros Hs Hj. destruct (Z_lt_le_dec (start + j) n) as [L|L].
  - rewrite Z.mod_small by lia. lia.
  - replace (start + j) with (start + j - n + 1 * n) by lia.
    rewrite Z.mod_add by lia. rewrite Z.mod_small by lia. lia.
Qed.

Lemma ring_step_add n start j :
  0 < n -> ((start + 1) mod n + j) mod n = (start + (j + 1)) mod n.
Proof.
  intros Hn. rewrite Zplus_mod_idemp_l. f_equal. lia.
Qed.

Lemma ring_slice_snoc buff n :
  0 < n ->
  forall (c : nat) (start : Z),
  0 <= start < n ->
  ring_slice buff n start (S c) =
  ring_slice buff n start c
    ++ [u8 (default 0 (buff !! Z.to_nat ((start + Z.of_nat c) mod n)))].
Proof.
  intros Hn. induction c as [|c IH]; intros start Hs.
  - simpl. rewrite Z.add_0_r, Z.mod_small by lia. reflexivity.
  - change (ring_slice buff n start (S (S c)))
      with (u8 (default 0 (buff !! Z.to_nat start))
              :: ring_slice buff n ((start + 1) mod n) (S c)).
    rewrite IH by (apply Z.mod_pos_bound; lia).
    rewrite ring_step_add by lia.
    replace (Z.of_nat c + 1) with (Z.of_nat (S c)) by lia.
    reflexivity.
Qed.

(** A store to a slot the slice does not reach leaves the slice alone. *)
Lemma ring_slice_insert_far buff n v :
  0 < n ->
  forall (c : nat) (start j : Z),
  0 <= start < n ->
  Z.of_nat c <= j < n ->
  ring_slice (<[Z.to_nat ((start + j) mod n) := v]> buff) n start c =
  ring_slice buff n start c.
Proof.
  intros Hn. induction c as [|c IH]; intros start j Hs Hj; [reflexivity|].
  cbn [ring_slice]. f_equal.
  - rewrite list_lookup_insert_ne; [reflexivity|].
    pose proof (ring_step_ne n start j Hs ltac:(lia)) as Hne.
    pose proof (Z.mod_pos_bound (start + j) n Hn).
    intros E. apply Z2Nat.inj in E; lia.
  - replace ((start + j) mod n)
      with (((start + 1) mod n + (j - 1)) mod n).
    + apply IH; [apply Z.mod_pos_bound; lia|lia].
    + rewrite ring_step_add by lia. f_equal. lia.
Qed.

Lemma u8_u8 x : u8 (u8 x) = u8 x.
Proof. apply u8_small, u8_range. Qed.

(** The low byte of what [recv()] returns is the byte it took. *)
Lemma recv_low_byte e b :
  0 <= b < 256 -> Z.land (u16 (u16 (Z.shiftl e 8) + b)) 255 = b.
Proof.
  intros Hb. change 255 with (Z.ones 8). rewrite Z.land_ones by lia.
  change (2 ^ 8) with 256.
  assert (Hdiv : (256 | 65536)) by (exists 256; reflexivity).
  unfold u16.
  rewrite Z.mod_mod_divide by exact Hdiv.
  rewrite Zplus_mod.
  rewrite Z.mod_mod_divide by exact Hdiv.
  rewrite Z.shiftl_mul_pow2 by lia. change (2 ^ 8) with 256.
  rewrite Z.mod_mul by lia. rewrite Z.add_0_l, Z.mod_mod by lia.
  apply Z.mod_small. lia.
Qed.

Section Queues.

Variable d : Defines.

Local Abbreviation RXN := (BTR_USART_RX_BUFF_SIZE d).
Local Abbreviation TXN := (BTR_USART_TX_BUFF_SIZE d).

(** X2. The receive ring is a queue. A byte that [onRecv] stores joins
    [rx_contents] at the back, a byte it drops changes nothing; [recv()]
    returns the front byte in bits 0-7 and leaves the rest; on the empty
    ring there is nothing to take. *)
Theorem rx_ring_fifo (s : State) :
  0 < RXN <= 65536 ->
  0 <= rx_head_ s < RXN ->
  0 <= rx_tail_ s < RXN ->
  length (rx_buff_ s) = Z.to_nat RXN ->
  ((rx_head_ s + 1) mod RXN <> rx_tail_ s ->
     rx_contents d (onRecv d s) = rx_contents d s ++ [u8 (udr_rx s)]) /\
  ((rx_head_ s + 1) mod RXN = rx_tail_ s ->
     rx_contents d (onRecv d s) = rx_contents d s) /\
  (rx_head_ s <> rx_tail_ s ->
     rx_contents d s =
       Z.land (fst (recv d s)) 255 :: rx_contents d (snd (recv d s))) /\
  (rx_head_ s = rx_tail_ s ->
     rx_contents d s = [] /\ rx_contents d (snd (recv d s)) = []).
Proof.
  intros HN Hh Ht Hlen.
  pose proof (next_index RXN (rx_head_ s) ltac:(lia) Hh) as Hnh.
  pose proof (next_index RXN (rx_tail_ s) ltac:(lia) Ht) as Hnt.
  pose proof (ring_count RXN (rx_head_ s) (rx_tail_ s) ltac:(lia) Hh Ht)
    as Hc.
  set (c := (RXN + rx_head_ s - rx_tail_ s) mod RXN) in *.
  assert (Hc0 : 0 <= c < RXN).
  { subst c. apply Z.mod_pos_bound. lia. }
  assert (Hhc : (rx_tail_ s + c) mod RXN = rx_head_ s).
  { rewrite Hc. destruct (Z.leb_spec (rx_tail_ s) (rx_head_ s)).
    - replace (rx_tail_ s + (rx_head_ s - rx_tail_ s)) with (rx_head_ s)
        by lia. apply Z.mod_small. lia.
    - replace (rx_tail_ s + (RXN + rx_head_ s - rx_tail_ s))
        with (RXN + rx_head_ s) by lia.
      apply mod_wrap_small. lia. }
  split; [|split; [|split]].
  - intros NF. unfold rx_contents, onRecv.
    simpl.
    rewrite u16_mod_small by lia.
    destruct (Z.eqb_spec ((rx_head_ s + 1) mod RXN) (rx_tail_ s)) as [C|_];
      [contradiction|].
    simpl.
    assert (Hc1 : (RXN + (rx_head_ s + 1) mod RXN - rx_tail_ s) mod RXN
                  = c + 1).
    { rewrite ring_count by (try lia; apply Z.mod_pos_bound; lia).
      rewrite Hc. rewrite Hnh in *.
      destruct (Z.eqb_spec (rx_head_ s + 1) RXN);
        repeat match goal with
        | |- context [Z.leb ?a ?b] => destruct (Z.leb_spec a b)
        end; lia. }
    rewrite Hc1. fold c.
    replace (Z.to_nat (c + 1)) with (S (Z.to_nat c)) by lia.
    rewrite ring_slice_snoc by lia.
    rewrite Z2Nat.id by lia. rewrite Hhc.
    rewrite list_lookup_insert_eq by lia. simpl. rewrite u8_u8.
    f_equal. rewrite <- Hhc at 1.
    apply ring_slice_insert_far; lia.
  - intros F. unfold rx_contents, onRecv.
    simpl.
    rewrite u16_mod_small by lia.
    destruct (Z.eqb_spec ((rx_head_ s + 1) mod RXN) (rx_tail_ s)) as [_|C];
      [|contradiction].
    reflexivity.
  - intros NE. unfold rx_contents, recv.
    destruct (Z.eqb_spec (rx_head_ s) (rx_tail_ s)) as [C|_];
      [contradiction|].
    simpl.
    rewrite u16_mod_small by lia.
    assert (Hc1 : (RXN + rx_head_ s - (rx_tail_ s + 1) mod RXN) mod RXN
                  = c - 1).
    { rewrite ring_count by (try lia; apply Z.mod_pos_bound; lia).
      rewrite Hc. rewrite Hnt in *.
      destruct (Z.eqb_spec (rx_tail_ s + 1) RXN);
        repeat match goal with
        | |- context [Z.leb ?a ?b] => destruct (Z.leb_spec a b)
        end; lia. }
    rewrite Hc1. fold c.
    assert (Hpos : 0 < c).
    { rewrite Hc. destruct (Z.leb_spec (rx_tail_ s) (rx_head_ s)); lia. }
    replace (Z.to_nat c) with (S (Z.to_nat (c - 1))) by lia.
    cbn [ring_slice]. f_equal.
    symmetry. apply recv_low_byte, u8_range.
  - intros E. unfold rx_contents, recv.
    destruct (Z.eqb_spec (rx_head_ s) (rx_tail_ s)) as [_|C];
      [|contradiction].
    simpl. rewrite E.
    replace (RXN + rx_tail_ s - rx_tail_ s) with (RXN) by lia.
    rewrite Z.mod_same by lia. split; reflexivity.
Qed.

End Queues.

(** The high byte of what [recv()] returns is the error latch. *)
Lemma recv_high_byte e b :
  0 <= e < 256 -> 0 <= b < 256 ->
  Z.shiftr (u16 (u16 (Z.shiftl e 8) + b)) 8 = e.
Proof.
  intros He Hb. rewrite Z.shiftl_mul_pow2 by lia. change (2 ^ 8) with 256.
  rewrite (u16_small (e * 256)) by lia.
  rewrite u16_small by lia.
  rewrite Z.shiftr_div_pow2 by lia. change (2 ^ 8) with 256.
  rewrite Z.add_comm, Z.div_add by lia.
  rewrite Z.div_small by lia. lia.
Qed.

Section Latch.

Variable d : Defines.

Local Abbreviation RXN := (BTR_USART_RX_BUFF_SIZE d).

(** X3. The error latch holds the flags of the latest receive event only.
    When [onRecv] stores a byte behind one that is still unread, the
    flags latched before are overwritten, and the next [recv()] returns
    the older byte together with the flags of the newer one; after that
    the latch is clear. *)
Theorem latch_holds_latest (s : State) :
  0 < RXN <= 65536 ->
  0 <= rx_head_ s < RXN ->
  0 <= rx_tail_ s < RXN ->
  rx_head_ s <> rx_tail_ s ->
  (rx_head_ s + 1) mod RXN <> rx_tail_ s ->
  let flags := u8 (Z.land (ucsr_a_ s) 28) in
  let s1 := onRecv d s in
  rx_error_ s1 = flags /\
  Z.shiftr (fst (recv d s1)) 8 = flags /\
  Z.land (fst (recv d s1)) 255
    = u8 (default 0 (rx_buff_ s !! Z.to_nat (rx_tail_ s))) /\
  rx_error_ (snd (recv d s1)) = 0.
Proof.
  intros HN Hh Ht NE NF flags s1. subst s1.
  pose proof (Z.mod_pos_bound (rx_head_ s + 1) RXN ltac:(lia)) as Hm.
  assert (Hs1 : onRecv d s =
                set_rx_head ((rx_head_ s + 1) mod RXN)
                  (set_rx_buff
                     (<[Z.to_nat (rx_head_ s) := u8 (udr_rx s)]> (rx_buff_ s))
                     (set_rx_error flags s))).
  { unfold onRecv. simpl. rewrite u16_mod_small by lia.
    destruct (Z.eqb_spec ((rx_head_ s + 1) mod RXN) (rx_tail_ s)) as [C|_];
      [contradiction|]. reflexivity. }
  rewrite Hs1. split; [reflexivity|].
  unfold recv. simpl.
  destruct (Z.eqb_spec ((rx_head_ s + 1) mod RXN) (rx_tail_ s)) as [C|_];
    [contradiction|]. simpl.
  rewrite list_lookup_insert_ne
    by (intros E; apply Z2Nat.inj in E; lia).
  split; [|split; [|reflexivity]].
  - apply recv_high_byte; apply u8_range.
  - apply recv_low_byte, u8_range.
Qed.

End Latch.

(** * Bringing a port up *)

Section BringUp.

Variable d : Defines.

Lemma port_settings_spec (id : Z) :
  port_settings d id =
    if (1 <=? id) && (id <=? 4) then Some (settings d id) else None.
Proof.
  destruct id as [|p|p]; [reflexivity| |reflexivity].
  destruct p as [[[p|p|]|[p|p|]|]|[[p|p|]|[p|p|]|]|]; reflexivity.
Qed.

Lemma open_sets_bits b :
  let b' :=
    clear_bit (set_bit (set_bit (set_bit b TXEN) RXEN) RXCIE) UDRIE in
  bit_is_set b' TXEN = true /\ bit_is_set b' RXEN = true /\
  bit_is_set b' RXCIE = true /\ bit_is_set b' UDRIE = false /\
  (forall c, 0 <= c < 8 -> c <> TXEN -> c <> RXEN -> c <> RXCIE ->
             c <> UDRIE -> bit_is_set b' c = bit_is_set b c).
Proof.
  unfold TXEN, RXEN, RXCIE, UDRIE. simpl. repeat split.
  - rewrite clear_bit_other, !set_bit_other, set_bit_same by lia.
    reflexivity.
  - rewrite clear_bit_other, set_bit_other, set_bit_same by lia.
    reflexivity.
  - rewrite clear_bit_other, set_bit_same by lia. reflexivity.
  - apply clear_bit_same. lia.
  - intros c Hc H3 H4 H7 H5.
    rewrite clear_bit_other, !set_bit_other by lia. reflexivity.
Qed.

(** X4. [open()] on a closed port. A port whose id is not 1 to 4 is refused
    with -1 and nothing is written. Otherwise the call returns 0: the baud
    rate divisor of that port is split over the two baud registers, the
    frame format register gets the port's configuration, the status
    register is set to the double-speed bit alone when double speed is
    configured and is left alone when not, transmitter, receiver and the
    receive interrupt are enabled, the transmit-empty interrupt is
    disabled, the other bits of the control register stay, and the rings
    and the error latch are left as they were. *)
Theorem open_configures (s : State) :
  isOpen s = false ->
  (~ 1 <= id_ s <= 4 -> open d s = (-1, s)) /\
  (1 <= id_ s <= 4 ->
     let s' := snd (open d s) in
     fst (open d s) = 0 /\
     ubrr_h_ s' * 256 + ubrr_l_ s' = fst (settings d (id_ s)) /\
     0 <= ubrr_h_ s' < 256 /\ 0 <= ubrr_l_ s' < 256 /\
     ucsr_c_ s' = snd (settings d (id_ s)) /\
     ucsr_a_ s' = (if 0 <? BTR_USART_USE_2X d then 2 else ucsr_a_ s) /\
     bit_is_set (ucsr_b_ s') TXEN = true /\
     bit_is_set (ucsr_b_ s') RXEN = true /\
     bit_is_set (ucsr_b_ s') RXCIE = true /\
     bit_is_set (ucsr_b_ s') UDRIE = false /\
     (forall c, 0 <= c < 8 -> c <> TXEN -> c <> RXEN -> c <> RXCIE ->
                c <> UDRIE ->
                bit_is_set (ucsr_b_ s') c = bit_is_set (ucsr_b_ s) c) /\
     rx_head_ s' = rx_head_ s /\ rx_tail_ s' = rx_tail_ s /\
     tx_head_ s' = tx_head_ s /\ tx_tail_ s' = tx_tail_ s /\
     rx_buff_ s' = rx_buff_ s /\ tx_buff_ s' = tx_buff_ s /\
     rx_error_ s' = rx_error_ s /\ udr_tx s' = udr_tx s).
Proof.
  intros Hc. split.
  - intros Hid. unfold open. rewrite Hc, port_settings_spec.
    destruct (Z.leb_spec 1 (id_ s)); destruct (Z.leb_spec (id_ s) 4);
      simpl; try reflexivity. lia.
  - intros Hid s'. subst s'. unfold open. rewrite Hc, port_settings_spec.
    destruct (Z.leb_spec 1 (id_ s)); [|lia].
    destruct (Z.leb_spec (id_ s) 4); [|lia]. simpl.
    set (baud := u16 (BAUD_CALC d (BTR_USART_BAUD d (id_ s)))).
    pose proof (u16_range (BAUD_CALC d (BTR_USART_BAUD d (id_ s)))) as Hb.
    fold baud in Hb.
    assert (Hh : u8 (Z.shiftr baud 8) = baud / 256).
    { rewrite Z.shiftr_div_pow2 by lia. change (2 ^ 8) with 256.
      apply u8_small. split; [apply Z.div_pos; lia|].
      apply Z.div_lt_upper_bound; lia. }
    destruct (open_sets_bits
                (ucsr_b_ (if 0 <? BTR_USART_USE_2X d
                          then set_ucsr_a (u8 (Z.shiftl 1 U2X)) s else s)))
      as (B1 & B2 & B3 & B4 & B5).
    simpl in B1, B2, B3, B4, B5.
    rewrite Hh.
    split; [reflexivity|].
    split. { unfold u8. pose proof (Z.div_mod baud 256 ltac:(lia)). lia. }
    split. { split; [apply Z.div_pos; lia|].
             apply Z.div_lt_upper_bound; lia. }
    split; [apply u8_range|].
    split; [reflexivity|].
    destruct (0 <? BTR_USART_USE_2X d); simpl in *;
      repeat split; auto.
Qed.

(** X5. [BAUD_CALC] in 32-bit unsigned arithmetic, [m] being 8 at double
    speed and 16 otherwise. As long as the sum does not wrap, the divisor
    [BAUD_CALC + 1] is [F_CPU / (m * BAUD)] rounded to the nearest integer;
    a baud rate too high for the clock, for which that quotient rounds to
    0, makes the subtraction wrap: the result is [2^32 - 1], which [open]
    cuts to the divisor 65535. *)
Theorem BAUD_CALC_rounds (BAUD : Z) :
  let m := if 0 <? BTR_USART_USE_2X d then 8 else 16 in
  0 < BAUD ->
  0 <= F_CPU d ->
  F_CPU d + m / 2 * BAUD < 4294967296 ->
  m * BAUD < 4294967296 ->
  (m / 2 * BAUD <= F_CPU d ->
     0 <= BAUD_CALC d BAUD /\
     m * BAUD * (BAUD_CALC d BAUD + 1) - m / 2 * BAUD <= F_CPU d /\
     F_CPU d < m * BAUD * (BAUD_CALC d BAUD + 1) + m / 2 * BAUD) /\
  (F_CPU d < m / 2 * BAUD ->
     BAUD_CALC d BAUD = 4294967295 /\ u16 (BAUD_CALC d BAUD) = 65535).
Proof.
  intros m HB HF Hsum Hm.
  assert (E : BAUD_CALC d BAUD
              = u32 ((F_CPU d + m / 2 * BAUD) / (m * BAUD) - 1)).
  { unfold BAUD_CALC. subst m.
    destruct (0 <? BTR_USART_USE_2X d).
    - change (8 / 2) with 4 in *.
      rewrite (u32_small (F_CPU d + 4 * BAUD)) by lia.
      rewrite (u32_small (8 * BAUD)) by lia. reflexivity.
    - change (16 / 2) with 8 in *.
      rewrite (u32_small (F_CPU d + 8 * BAUD)) by lia.
      rewrite (u32_small (16 * BAUD)) by lia. reflexivity. }
  assert (Hmm : m = 2 * (m / 2) /\ 0 < m / 2).
  { subst m. destruct (0 <? BTR_USART_USE_2X d); split; reflexivity. }
  destruct Hmm as [Hm2 Hh]. set (h := m / 2) in *.
  assert (Hmb : 0 < m * BAUD) by nia.
  set (q := (F_CPU d + h * BAUD) / (m * BAUD)) in *.
  pose proof (Z.mul_div_le (F_CPU d + h * BAUD) (m * BAUD) Hmb) as Hlo.
  pose proof (Z.mul_succ_div_gt (F_CPU d + h * BAUD) (m * BAUD) Hmb) as Hhi.
  fold q in Hlo, Hhi.
  assert (Hq : 0 <= q) by (apply Z.div_pos; nia).
  split.
  - intros Hfit.
    assert (Hq1 : 1 <= q).
    { apply Z.div_le_lower_bound; nia. }
    assert (Hqu : q < 4294967296) by nia.
    rewrite E, u32_small by lia. nia.
  - intros Hhigh.
    assert (Hq0 : q = 0).
    { apply Z.div_small. nia. }
    rewrite E, Hq0. split; reflexivity.
Qed.

(** X6. [Usart::instance] hands out nothing for an id that is not 1 to 4 or
    whose port is not enabled in the build. What it does hand out is the
    static object of that very id, which is closed after construction
    whatever its control register held, has both rings empty, and is
    accepted by [open()]. *)
Theorem instance_port (enabled : Z -> Z) (usart_id : Z) :
  (instance enabled usart_id = None <->
     ~ (1 <= usart_id <= 4 /\ 0 < enabled usart_id)) /\
  (forall n,
     instance enabled usart_id = Some n ->
     n = usart_id /\
     forall ubrr_h ubrr_l ucsr_a ucsr_b ucsr_c udr sreg_ : Z,
       let s := Usart d n ubrr_h ubrr_l ucsr_a ucsr_b ucsr_c udr sreg_ in
       id_ s = usart_id /\
       isOpen s = false /\
       rx_head_ s = rx_tail_ s /\ tx_head_ s = tx_tail_ s /\
       fst (open d s) = 0 /\
       isOpen (snd (open d s)) = true).
Proof.
  assert (E : instance enabled usart_id =
              if (1 <=? usart_id) && (usart_id <=? 4)
                 && (0 <? enabled usart_id)
              then Some usart_id else None).
  { destruct usart_id as [|p|p]; [reflexivity| |reflexivity].
    destruct p as [[[p|p|]|[p|p|]|]|[[p|p|]|[p|p|]|]|]; try reflexivity;
      unfold instance; simpl;
      match goal with |- context [Z.ltb 0 ?x] => destruct (Z.ltb 0 x) end;
      reflexivity. }
  rewrite E. split.
  { destruct (Z.leb_spec 1 usart_id); destruct (Z.leb_spec usart_id 4);
      destruct (Z.ltb_spec 0 (enabled usart_id)); simpl;
      (split; [try discriminate; intros; lia
              |try reflexivity; intros C; exfalso; apply C; lia]). }
  intros n Hn.
  assert (Hr : 1 <= usart_id <= 4 /\ n = usart_id).
  { destruct (Z.leb_spec 1 usart_id); destruct (Z.leb_spec usart_id 4);
      destruct (Z.ltb_spec 0 (enabled usart_id)); simpl in Hn;
      try discriminate. injection Hn as <-. lia. }
  destruct Hr as [Hr ->]. clear Hn E.
  split; [reflexivity|].
  intros ubrr_h ubrr_l ucsr_a ucsr_b ucsr_c udr sreg_ s.
  assert (Hid : id_ s = usart_id).
  { subst s. unfold Usart. simpl. apply u8_small. lia. }
  assert (Hclosed : isOpen s = false).
  { subst s. unfold Usart, isOpen. simpl.
    destruct (clear_all_bits ucsr_b) as (B1 & B2 & _). simpl in B1, B2.
    rewrite B1, B2. reflexivity. }
  split; [exact Hid|]. split; [exact Hclosed|].
  split; [reflexivity|]. split; [reflexivity|].
  unfold open. rewrite Hclosed, port_settings_spec, Hid.
  destruct (Z.leb_spec 1 usart_id); [|lia].
  destruct (Z.leb_spec usart_id 4); [|lia]. simpl.
  split; [reflexivity|].
  unfold isOpen. simpl. rewrite open_sets_TXEN. reflexivity.
Qed.

End BringUp.

(** * Draining the transmit ring *)

Section Draining.

Variable d : Defines.

Local Abbreviation TXN := (BTR_USART_TX_BUFF_SIZE d).

(** One call of [onSend] on a non-empty ring, field by field. *)
Lemma onSend_step (s : State) :
  0 < TXN <= 65536 ->
  0 <= tx_head_ s < TXN ->
  0 <= tx_tail_ s < TXN ->
  tx_head_ s <> tx_tail_ s ->
  let s' := onSend d s in
  tx_tail_ s' = (tx_tail_ s + 1) mod TXN /\
  0 <= tx_tail_ s' < TXN /\
  tx_head_ s' = tx_head_ s /\
  tx_buff_ s' = tx_buff_ s /\
  tx_pending d s' = tx_pending d s - 1 /\
  0 < tx_pending d s /\
  udr_tx s' =
    udr_tx s ++ [u8 (default 0 (tx_buff_ s !! Z.to_nat (tx_tail_ s)))] /\
  ucsr_b_ s' =
    (if tx_pending d s =? 1 then clear_bit (ucsr_b_ s) UDRIE
     else ucsr_b_ s) /\
  ucsr_a_ s' = ucsr_a_ s /\ sreg s' = sreg s /\ now s' = now s /\
  rx_head_ s' = rx_head_ s /\ rx_tail_ s' = rx_tail_ s /\
  rx_buff_ s' = rx_buff_ s /\ rx_error_ s' = rx_error_ s.
Proof.
  intros HN Hh Ht NE s'. subst s'.
  pose proof (next_index TXN (tx_tail_ s) ltac:(lia) Ht) as Hnext.
  unfold onSend. simpl.
  rewrite u16_mod_small by lia. rewrite Hnext. clear Hnext.
  destruct (Z.eqb_spec (tx_tail_ s + 1) TXN) as [E1|E1];
    match goal with
    | |- context [Z.eqb ?a ?b] => destruct (Z.eqb_spec a b) as [E|E]
    end; unfold tx_pending; simpl;
    rewrite !ring_count by lia;
    repeat match goal with
    | |- context [Z.leb ?a ?b] => destruct (Z.leb_spec a b)
    | |- context [Z.eqb ?a ?b] => destruct (Z.eqb_spec a b)
    end;
    repeat split; (lia || congruence).
Qed.

Lemma flush_idle (hw : State -> State) (fuel : nat) (s : State) :
  bit_is_set (ucsr_b_ s) UDRIE = false ->
  bit_is_set (ucsr_a_ s) TXC = true ->
  flush d hw (S fuel) s = Some (0, s).
Proof.
  intros Hb Hc. cbn [flush]. unfold bit_is_clear.
  fold (bit_is_set (ucsr_a_ s) TXC). rewrite Hb, Hc. reflexivity.
Qed.

Lemma flush_pump_step (hw : State -> State) (fuel : nat) (s : State) :
  bit_is_set (sreg s) SREG_I = false ->
  bit_is_set (ucsr_a_ s) UDRE = true ->
  bit_is_set (ucsr_b_ s) UDRIE = true ->
  flush d hw (S fuel) s = flush d hw fuel (elapse hw (onSend d s)).
Proof.
  intros Hi He Hb. cbn [flush]. unfold bit_is_clear.
  fold (bit_is_set (sreg s) SREG_I). rewrite Hb, Hi, He. reflexivity.
Qed.

Lemma flush_pump_aux :
  0 < TXN <= 65536 ->
  forall (k fuel : nat) (s : State),
  0 <= tx_head_ s < TXN ->
  0 <= tx_tail_ s < TXN ->
  bit_is_set (sreg s) SREG_I = false ->
  bit_is_set (ucsr_a_ s) UDRE = true ->
  bit_is_set (ucsr_a_ s) TXC = true ->
  bit_is_set (ucsr_b_ s) UDRIE = true ->
  tx_pending d s = Z.of_nat (S k) ->
  (S k < fuel)%nat ->
  exists s',
    flush d quiet fuel s = Some (0, s') /\
    udr_tx s' =
      udr_tx s ++ ring_slice (tx_buff_ s) TXN (tx_tail_ s) (S k) /\
    tx_tail_ s' = tx_head_ s /\ tx_head_ s' = tx_head_ s /\
    tx_buff_ s' = tx_buff_ s /\
    bit_is_set (ucsr_b_ s') UDRIE = false /\
    rx_head_ s' = rx_head_ s /\ rx_tail_ s' = rx_tail_ s /\
    rx_buff_ s' = rx_buff_ s /\
    now s' = (now s + S k)%nat.
Proof.
  intros HN. induction k as [|k IH];
    intros fuel s Hh Ht Hi He Hc Hb Hp Hf.
  - destruct fuel as [|[|fuel]]; try lia.
    assert (NE : tx_head_ s <> tx_tail_ s).
    { intros E. unfold tx_pending in Hp. rewrite E in Hp.
      replace (TXN + tx_tail_ s - tx_tail_ s) with TXN in Hp by lia.
      rewrite Z.mod_same in Hp by lia. lia. }
    destruct (onSend_step s HN Hh Ht NE)
      as (T1 & T2 & T3 & T4 & T5 & T6 & T7 & T8 & T9 & T10 & T11 & R1 & R2
          & R3 & R4).
    rewrite Hp in T8. simpl in T8.
    rewrite flush_pump_step by assumption.
    unfold elapse, quiet.
    rewrite flush_idle.
    + eexists. split; [reflexivity|]. simpl.
      rewrite T7, R1, R2, R3, T3, T4, T8, T11.
      assert (Hpt : tx_tail_ (onSend d s) = tx_head_ s).
      { unfold tx_pending in T5. rewrite T3 in T5.
        rewrite ring_count in T5 by lia.
        fold (tx_pending d s) in T5. rewrite Hp in T5.
        destruct (Z.leb_spec (tx_tail_ (onSend d s)) (tx_head_ s)); lia. }
      repeat split; try reflexivity; try assumption.
      * apply clear_bit_same. unfold UDRIE. lia.
      * lia.
    + simpl. rewrite T8. apply clear_bit_same. unfold UDRIE. lia.
    + simpl. rewrite T9. exact Hc.
  - destruct fuel as [|fuel]; try lia.
    assert (NE : tx_head_ s <> tx_tail_ s).
    { intros E. unfold tx_pending in Hp. rewrite E in Hp.
      replace (TXN + tx_tail_ s - tx_tail_ s) with TXN in Hp by lia.
      rewrite Z.mod_same in Hp by lia. lia. }
    destruct (onSend_step s HN Hh Ht NE)
      as (T1 & T2 & T3 & T4 & T5 & T6 & T7 & T8 & T9 & T10 & T11 & R1 & R2
          & R3 & R4).
    destruct (Z.eqb_spec (tx_pending d s) 1) as [C|_]; [lia|].
    rewrite flush_pump_step by assumption.
    unfold elapse, quiet.
    destruct (IH fuel (set_now (S (now (onSend d s))) (onSend d s)))
      as (s' & F & U & P1 & P2 & P3 & P4 & Q1 & Q2 & Q3 & Q4);
      simpl; try congruence; try lia.
    { unfold tx_pending in *. simpl. lia. }
    simpl in U, P1, P2, P3, Q1, Q2, Q3, Q4.
    exists s'. split; [exact F|].
    rewrite U, T7, T1, T4, <- app_assoc.
    repeat split; try congruence; try lia.
Qed.

(** X7. With interrupts disabled and the transmitter idle, [flush] does the
    handler's work itself: it returns, having written to the data register
    exactly the bytes of the slots from [tx_tail_] up to [tx_head_], in
    that order, and leaves the ring empty with the transmit-empty
    interrupt off; the receive ring is not touched. *)
Theorem flush_pump_drains (fuel : nat) (s : State) :
  0 < TXN <= 65536 ->
  0 <= tx_head_ s < TXN ->
  0 <= tx_tail_ s < TXN ->
  tx_head_ s <> tx_tail_ s ->
  bit_is_set (sreg s) SREG_I = false ->
  bit_is_set (ucsr_a_ s) UDRE = true ->
  bit_is_set (ucsr_a_ s) TXC = true ->
  bit_is_set (ucsr_b_ s) UDRIE = true ->
  tx_pending d s < Z.of_nat fuel ->
  exists s',
    flush d quiet fuel s = Some (0, s') /\
    udr_tx s' = udr_tx s ++ tx_contents d s /\
    length (tx_contents d s) = Z.to_nat (tx_pending d s) /\
    tx_tail_ s' = tx_head_ s /\ tx_head_ s' = tx_head_ s /\
    tx_buff_ s' = tx_buff_ s /\
    bit_is_set (ucsr_b_ s') UDRIE = false /\
    rx_head_ s' = rx_head_ s /\ rx_tail_ s' = rx_tail_ s /\
    rx_buff_ s' = rx_buff_ s.
Proof.
  intros HN Hh Ht NE Hi He Hc Hb Hf.
  assert (Hp : 0 < tx_pending d s < TXN).
  { unfold tx_pending. rewrite ring_count by lia.
    destruct (Z.leb_spec (tx_tail_ s) (tx_head_ s)); lia. }
  destruct (flush_pump_aux HN (Z.to_nat (tx_pending d s) - 1) fuel s)
    as (s' & F & U & P1 & P2 & P3 & P4 & Q1 & Q2 & Q3 & _);
    try assumption; try lia.
  exists s'. unfold tx_contents.
  replace (Z.to_nat (tx_pending d s))
    with (S (Z.to_nat (tx_pending d s) - 1)) by lia.
  rewrite ring_slice_length.
  repeat split; assumption.
Qed.

(** X8. [flush] depends on the hardware. Whatever the hardware does, the
    call only returns in a state with the transmit-empty interrupt off
    and transmit-complete set. If it cannot call the handler itself
    (interrupts enabled, data register not empty, or the interrupt
    already off) and the hardware does nothing, it never returns. *)
Theorem flush_waits_for_hardware :
  (forall (hw : State -> State) (fuel : nat) (s : State) rc s1,
     flush d hw fuel s = Some (rc, s1) ->
     rc = 0 /\
     bit_is_set (ucsr_b_ s1) UDRIE = false /\
     bit_is_set (ucsr_a_ s1) TXC = true) /\
  (forall (fuel : nat) (s : State),
     bit_is_set (ucsr_b_ s) UDRIE = true \/
     bit_is_set (ucsr_a_ s) TXC = false ->
     bit_is_set (sreg s) SREG_I = true \/
     bit_is_set (ucsr_a_ s) UDRE = false \/
     bit_is_set (ucsr_b_ s) UDRIE = false ->
     flush d quiet fuel s = None).
Proof.
  split.
  - intros hw fuel. induction fuel as [|fuel IH]; intros s rc s1; simpl;
      [discriminate|].
    destruct (bit_is_set (ucsr_b_ s) UDRIE) eqn:Eb; simpl.
    + apply IH.
    + unfold bit_is_clear. fold (bit_is_set (ucsr_a_ s) TXC).
      destruct (bit_is_set (ucsr_a_ s) TXC) eqn:Ea; simpl.
      * intros [= <- <-]. auto.
      * apply IH.
  - intros fuel. induction fuel as [|fuel IH]; intros s Hloop Hstuck;
      [reflexivity|].
    cbn [flush]. unfold bit_is_clear.
    fold (bit_is_set (ucsr_a_ s) TXC). fold (bit_is_set (sreg s) SREG_I).
    assert (Hcond : bit_is_set (ucsr_b_ s) UDRIE
                    || negb (bit_is_set (ucsr_a_ s) TXC) = true).
    { destruct Hloop as [-> | ->]; [reflexivity|apply orb_true_r]. }
    rewrite Hcond.
    assert (Hno : (if negb (bit_is_set (sreg s) SREG_I)
                      && bit_is_set (ucsr_b_ s) UDRIE
                   then if bit_is_set (ucsr_a_ s) UDRE then onSend d s else s
                   else s) = s).
    { destruct Hstuck as [-> | [-> | ->]]; simpl.
      - reflexivity.
      - destruct (negb (bit_is_set (sreg s) SREG_I)
                  && bit_is_set (ucsr_b_ s) UDRIE); reflexivity.
      - rewrite andb_false_r. reflexivity. }
    rewrite Hno. unfold elapse, quiet. apply IH; simpl; assumption.
Qed.

End Draining.

(** * Queueing bytes for transmission *)

Lemma ring_store_length buff n start l :
  length (ring_store buff n start l) = length buff.
Proof.
  revert buff start. induction l as [|ch l IH]; intros buff start; simpl;
    [reflexivity|]. rewrite IH. apply length_insert.
Qed.

(** Stores that begin [j] slots further on and do not come round leave a
    slice of up to [j] slots alone. *)
Lemma ring_slice_store_far n (c : nat) (start : Z) :
  0 < n -> 0 <= start < n ->
  forall (l : list Z) (buff : list Z) (j : Z),
  Z.of_nat c <= j ->
  j + Z.of_nat (length l) <= n ->
  ring_slice (ring_store buff n ((start + j) mod n) l) n start c =
  ring_slice buff n start c.
Proof.
  intros Hn Hs. induction l as [|ch l IH]; intros buff j Hc Hj;
    [reflexivity|].
  cbn [ring_store length] in *.
  rewrite Zplus_mod_idemp_l.
  replace (start + j + 1) with (start + (j + 1)) by lia.
  rewrite IH by lia.
  apply ring_slice_insert_far; lia.
Qed.

Lemma ring_slice_app buff n :
  0 < n ->
  forall (a c : nat) (start : Z),
  0 <= start < n ->
  ring_slice buff n start (a + c) =
  ring_slice buff n start a
    ++ ring_slice buff n ((start + Z.of_nat a) mod n) c.
Proof.
  intros Hn. induction a as [|a IH]; intros c start Hs.
  - simpl. rewrite Z.add_0_r, Z.mod_small by lia. reflexivity.
  - change (S a + c)%nat with (S (a + c)). cbn [ring_slice].
    rewrite IH by (apply Z.mod_pos_bound; lia).
    rewrite ring_step_add by lia.
    replace (Z.of_nat a + 1) with (Z.of_nat (S a)) by lia.
    reflexivity.
Qed.

(** Reading back what was stored: the slots from [start] on hold the
    bytes, as long as they did not come round. *)
Lemma ring_slice_store n :
  0 < n ->
  forall (l : list Z) (buff : list Z) (start : Z),
  0 <= start < n ->
  length buff = Z.to_nat n ->
  Z.of_nat (length l) <= n ->
  ring_slice (ring_store buff n start l) n start (length l) = map u8 l.
Proof.
  intros Hn. induction l as [|ch l IH]; intros buff start Hs Hlen Hl;
    [reflexivity|].
  cbn [ring_store length map] in *.
  change (ring_slice ?b n start (S ?k))
    with (u8 (default 0 (b !! Z.to_nat start))
            :: ring_slice b n ((start + 1) mod n) k).
  f_equal.
  - pose proof (ring_slice_store_far n 1 start Hn Hs l
                  (<[Z.to_nat start := u8 ch]> buff) 1 ltac:(lia) ltac:(lia))
      as Hfar.
    cbn [ring_slice] in Hfar. injection Hfar as Hfar.
    rewrite Hfar. rewrite list_lookup_insert_eq by lia.
    simpl. apply u8_u8.
  - apply IH.
    + apply Z.mod_pos_bound. lia.
    + rewrite length_insert. exact Hlen.
    + lia.
Qed.

Section Queueing.

Variable d : Defines.
Variable hw : State -> State.

Local Abbreviation TXN := (BTR_USART_TX_BUFF_SIZE d).

(** [send] with room in the ring does not wait. *)
Lemma send_room (fuel : nat) (ch timeout : Z) (s : State) :
  let hn := u16 ((tx_head_ s + 1) mod TXN) in
  hn <> tx_tail_ s ->
  send d hw (S fuel) ch false timeout s =
  Some (0, set_ucsr_b (set_bit (ucsr_b_ s) UDRIE)
             (set_tx_head hn
                (set_tx_buff (<[Z.to_nat hn := u8 ch]> (tx_buff_ s)) s))).
Proof.
  intros hn Hroom. unfold send. fold hn. cbn [send_wait].
  destruct (Z.eqb_spec hn (tx_tail_ s)) as [C|_]; [contradiction|].
  reflexivity.
Qed.

Lemma send_bytes_fits (fuel : nat) :
  0 < TXN <= 65536 ->
  forall (l rest : list Z) (s : State),
  0 <= tx_head_ s < TXN ->
  0 <= tx_tail_ s < TXN ->
  tx_pending d s + Z.of_nat (length l) <= TXN - 1 ->
  exists s',
    send_bytes d hw (S fuel) (l ++ rest) (length l) s = Some (0, s') /\
    tx_head_ s' = (tx_head_ s + Z.of_nat (length l)) mod TXN /\
    tx_tail_ s' = tx_tail_ s /\
    tx_buff_ s' =
      ring_store (tx_buff_ s) TXN ((tx_head_ s + 1) mod TXN) l /\
    tx_pending d s' = tx_pending d s + Z.of_nat (length l) /\
    (l <> [] -> bit_is_set (ucsr_b_ s') UDRIE = true) /\
    (l = [] -> s' = s) /\
    udr_tx s' = udr_tx s /\ now s' = now s /\ sreg s' = sreg s /\
    ucsr_a_ s' = ucsr_a_ s /\
    rx_head_ s' = rx_head_ s /\ rx_tail_ s' = rx_tail_ s /\
    rx_buff_ s' = rx_buff_ s /\ rx_error_ s' = rx_error_ s.
Proof.
  intros HN. induction l as [|ch l IH]; intros rest s Hh Ht Hroom.
  - exists s. simpl. rewrite Z.add_0_r, Z.mod_small by lia.
    repeat split; try reflexivity; try lia. intros C. contradiction.
  - cbn [length app send_bytes head tail] in *. simpl default.
    pose proof (next_index TXN (tx_head_ s) ltac:(lia) Hh) as Hnh.
    pose proof (Z.mod_pos_bound (tx_head_ s + 1) TXN ltac:(lia)) as Hm.
    assert (Hp : tx_pending d s =
                 if tx_tail_ s <=? tx_head_ s then tx_head_ s - tx_tail_ s
                 else TXN + tx_head_ s - tx_tail_ s).
    { unfold tx_pending. apply ring_count; lia. }
    assert (Hne : u16 ((tx_head_ s + 1) mod TXN) <> tx_tail_ s).
    { rewrite u16_mod_small by lia. rewrite Hnh.
      destruct (Z.eqb_spec (tx_head_ s + 1) TXN);
        destruct (Z.leb_spec (tx_tail_ s) (tx_head_ s)); lia. }
    rewrite send_room by exact Hne.
    rewrite u16_mod_small by lia. simpl negb. cbv iota.
    set (s1 := set_ucsr_b (set_bit (ucsr_b_ s) UDRIE)
                 (set_tx_head ((tx_head_ s + 1) mod TXN)
                    (set_tx_buff
                       (<[Z.to_nat ((tx_head_ s + 1) mod TXN) := u8 ch]>
                          (tx_buff_ s)) s))).
    assert (Hp1 : tx_pending d s1 = tx_pending d s + 1).
    { unfold tx_pending. subst s1. simpl.
      rewrite !ring_count by lia. rewrite Hnh.
      fold (tx_pending d s) in Hp.
      destruct (Z.eqb_spec (tx_head_ s + 1) TXN);
        repeat match goal with
        | |- context [Z.leb ?a ?b] => destruct (Z.leb_spec a b)
        end; lia. }
    destruct (IH rest s1) as (s' & F & H1 & H2 & H3 & H4 & H5 & _ & H6);
      try (subst s1; simpl; lia).
    exists s'. split; [exact F|].
    split.
    { rewrite H1. subst s1. simpl. rewrite ring_step_add by lia.
      f_equal. lia. }
    split; [rewrite H2; reflexivity|].
    split; [rewrite H3; reflexivity|].
    split; [lia|].
    split.
    { intros _. destruct l as [|c l'].
      - destruct (IH rest s1) as (s2 & F2 & _ & _ & _ & _ & _ & E2 & _);
          try (subst s1; simpl; lia).
        rewrite F in F2. injection F2 as <-. rewrite (E2 eq_refl).
        subst s1. simpl. apply set_bit_same. unfold UDRIE. lia.
      - apply H5. discriminate. }
    split; [discriminate|].
    exact H6.
Qed.

(** X9. [send(buff, bytes, false)] called with interrupts disabled, so
    that no handler runs during the call, and with room for all the bytes
    never waits: it returns 0 with [tx_head_] advanced by the count, the
    bytes in the slots after the old [tx_head_], in order, and the
    transmit-empty interrupt enabled; it does not touch [tx_tail_], the
    data register or the receive side, and interrupts are still disabled.
    With a count of 0 it changes nothing. *)
Theorem send_buf_fits (fuel : nat) (l rest : list Z) (s : State) :
  0 < TXN <= 65536 ->
  0 <= tx_head_ s < TXN ->
  0 <= tx_tail_ s < TXN ->
  length (tx_buff_ s) = Z.to_nat TXN ->
  tx_pending d s + Z.of_nat (length l) <= TXN - 1 ->
  bit_is_set (sreg s) SREG_I = false ->
  exists s',
    send_buf d hw (S fuel) (l ++ rest) (Z.of_nat (length l)) false s
      = Some (0, s') /\
    tx_head_ s' = (tx_head_ s + Z.of_nat (length l)) mod TXN /\
    tx_tail_ s' = tx_tail_ s /\
    ring_slice (tx_buff_ s') TXN ((tx_head_ s + 1) mod TXN) (length l)
      = map u8 l /\
    tx_pending d s' = tx_pending d s + Z.of_nat (length l) /\
    (l <> [] -> bit_is_set (ucsr_b_ s') UDRIE = true) /\
    (l = [] -> s' = s) /\
    udr_tx s' = udr_tx s /\ now s' = now s /\
    rx_head_ s' = rx_head_ s /\ rx_tail_ s' = rx_tail_ s /\
    rx_buff_ s' = rx_buff_ s /\
    bit_is_set (sreg s') SREG_I = false.
Proof.
  intros HN Hh Ht Hlen Hroom Hi.
  destruct (send_bytes_fits fuel HN l rest s Hh Ht Hroom)
    as (s' & F & H1 & H2 & H3 & H4 & H5 & H6 & H7 & H8 & S1 & _ & R1 & R2
        & R3 & _).
  assert (Hi' : bit_is_set (sreg s') SREG_I = false) by congruence.
  assert (Hp0 : 0 <= tx_pending d s).
  { unfold tx_pending. apply Z.mod_pos_bound. lia. }
  exists s'. unfold send_buf. rewrite Nat2Z.id, F. simpl.
  split; [reflexivity|].
  split; [exact H1|]. split; [exact H2|].
  split.
  { rewrite H3. apply ring_slice_store; try lia.
    apply Z.mod_pos_bound. lia. }
  repeat split; assumption.
Qed.

(** The queue as the handler sees it once [l] has been stored behind
    [tx_head_]. *)
Lemma tx_contents_after (l : list Z) (s s' : State) :
  0 < TXN <= 65536 ->
  0 <= tx_head_ s < TXN ->
  0 <= tx_tail_ s < TXN ->
  length (tx_buff_ s) = Z.to_nat TXN ->
  tx_pending d s + Z.of_nat (length l) <= TXN - 1 ->
  l <> [] ->
  tx_head_ s' = (tx_head_ s + Z.of_nat (length l)) mod TXN ->
  tx_tail_ s' = tx_tail_ s ->
  tx_buff_ s' = ring_store (tx_buff_ s) TXN ((tx_head_ s + 1) mod TXN) l ->
  tx_pending d s' = tx_pending d s + Z.of_nat (length l) ->
  tx_contents d s' =
    tx_contents d s
      ++ u8 (default 0 (tx_buff_ s !! Z.to_nat (tx_head_ s)))
      :: removelast (map u8 l) /\
  u8 (default 0 (tx_buff_ s' !! Z.to_nat (tx_head_ s')))
    = u8 (List.last l 0).
Proof.
  intros HN Hh Ht Hlen Hroom Hl H1 H2 H3 H4.
  assert (Hp0 : 0 <= tx_pending d s < TXN).
  { unfold tx_pending. apply Z.mod_pos_bound. lia. }
  assert (Hsl : ring_slice (tx_buff_ s') TXN ((tx_head_ s + 1) mod TXN)
                  (length l) = map u8 l).
  { rewrite H3. apply ring_slice_store; try lia.
    apply Z.mod_pos_bound. lia. }
  assert (Hhc : (tx_tail_ s + tx_pending d s) mod TXN = tx_head_ s).
  { unfold tx_pending. rewrite ring_count by lia.
    destruct (Z.leb_spec (tx_tail_ s) (tx_head_ s)).
    - replace (tx_tail_ s + (tx_head_ s - tx_tail_ s)) with (tx_head_ s)
        by lia. apply Z.mod_small. lia.
    - replace (tx_tail_ s + (TXN + tx_head_ s - tx_tail_ s))
        with (TXN + tx_head_ s) by lia.
      apply mod_wrap_small. lia. }
  destruct l as [|c0 l0] eqn:El; [contradiction|]. rewrite <- El in *.
  assert (Hk : (0 < length l)%nat) by (rewrite El; simpl; lia).
  split.
  - unfold tx_contents. rewrite H4, H2.
    set (p := Z.to_nat (tx_pending d s)).
    replace (Z.to_nat (tx_pending d s + Z.of_nat (length l)))
      with (S p + (length l - 1))%nat by lia.
    rewrite ring_slice_app by lia.
    replace (Z.of_nat (S p)) with (tx_pending d s + 1) by lia.
    replace ((tx_tail_ s + (tx_pending d s + 1)) mod TXN)
      with ((tx_head_ s + 1) mod TXN)
      by (rewrite <- Hhc, Zplus_mod_idemp_l; f_equal; lia).
    rewrite H3.
    replace ((tx_head_ s + 1) mod TXN)
      with ((tx_tail_ s + (tx_pending d s + 1)) mod TXN) at 1
      by (rewrite <- Hhc, Zplus_mod_idemp_l; f_equal; lia).
    rewrite ring_slice_store_far by lia.
    rewrite ring_slice_snoc by lia.
    subst p. rewrite Z2Nat.id by lia. rewrite Hhc.
    rewrite <- app_assoc. f_equal. simpl. f_equal.
    rewrite <- H3.
    replace (length l) with (S (length l - 1)) in Hsl by lia.
    rewrite ring_slice_snoc in Hsl by (try apply Z.mod_pos_bound; lia).
    rewrite <- Hsl. rewrite removelast_last. reflexivity.
  - replace (length l) with (S (length l - 1)) in Hsl by lia.
    rewrite ring_slice_snoc in Hsl by (try apply Z.mod_pos_bound; lia).
    rewrite ring_step_add in Hsl by lia.
    replace (Z.of_nat (length l - 1) + 1) with (Z.of_nat (length l)) in Hsl
      by lia.
    rewrite <- H1 in Hsl.
    assert (Hlast : List.last (map u8 l) 0 = u8 (List.last l 0)).
    { clear. induction l as [|a [|b l'] IH]; try reflexivity.
      exact IH. }
    rewrite <- Hlast, <- Hsl. rewrite last_last. reflexivity.
Qed.

(** X10. What the handler will transmit after a [send(buff, bytes,
    false)] that was called with interrupts disabled, so that no handler
    has run meanwhile, and with room for all the bytes: the bytes that
    were waiting, then the byte that the slot at the old [tx_head_]
    happened to hold, then the new bytes except the last one. The last
    byte sits in the slot at the new [tx_head_], which the handler does
    not reach. *)
Theorem send_buf_queue_shift (fuel : nat) (l rest : list Z) (s : State) :
  0 < TXN <= 65536 ->
  0 <= tx_head_ s < TXN ->
  0 <= tx_tail_ s < TXN ->
  length (tx_buff_ s) = Z.to_nat TXN ->
  tx_pending d s + Z.of_nat (length l) <= TXN - 1 ->
  l <> [] ->
  bit_is_set (sreg s) SREG_I = false ->
  exists s',
    send_buf d hw (S fuel) (l ++ rest) (Z.of_nat (length l)) false s
      = Some (0, s') /\
    tx_contents d s' =
      tx_contents d s
        ++ u8 (default 0 (tx_buff_ s !! Z.to_nat (tx_head_ s)))
        :: removelast (map u8 l) /\
    u8 (default 0 (tx_buff_ s' !! Z.to_nat (tx_head_ s')))
      = u8 (List.last l 0).
Proof.
  intros HN Hh Ht Hlen Hroom Hl Hi.
  destruct (send_bytes_fits fuel HN l rest s Hh Ht Hroom)
    as (s' & F & H1 & H2 & H3 & H4 & _).
  exists s'. unfold send_buf. rewrite Nat2Z.id, F. simpl.
  split; [reflexivity|].
  apply tx_contents_after; assumption.
Qed.

End Queueing.

Section DrainedWire.

Variable d : Defines.

Local Abbreviation TXN := (BTR_USART_TX_BUFF_SIZE d).

(** X11. [send(buff, bytes, true)] with interrupts disabled and the
    transmitter idle: the call queues the bytes and then pumps the handler
    itself until the ring reads empty. What it has written to the data
    register when it returns is the bytes that were waiting, the byte the
    slot at the old [tx_head_] held, and the new bytes except the last;
    the last byte is still in the ring, in the slot at [tx_head_], and
    [tx_head_ = tx_tail_]. *)
Theorem send_buf_drain_wire (fuel : nat) (l rest : list Z) (s : State) :
  0 < TXN <= 65536 ->
  0 <= tx_head_ s < TXN ->
  0 <= tx_tail_ s < TXN ->
  length (tx_buff_ s) = Z.to_nat TXN ->
  tx_pending d s + Z.of_nat (length l) <= TXN - 1 ->
  l <> [] ->
  bit_is_set (sreg s) SREG_I = false ->
  bit_is_set (ucsr_a_ s) UDRE = true ->
  bit_is_set (ucsr_a_ s) TXC = true ->
  tx_pending d s + Z.of_nat (length l) < Z.of_nat fuel ->
  exists s',
    send_buf d quiet fuel (l ++ rest) (Z.of_nat (length l)) true s
      = Some (0, s') /\
    udr_tx s' =
      udr_tx s ++ tx_contents d s
        ++ u8 (default 0 (tx_buff_ s !! Z.to_nat (tx_head_ s)))
        :: removelast (map u8 l) /\
    tx_head_ s' = tx_tail_ s' /\
    tx_head_ s' = (tx_head_ s + Z.of_nat (length l)) mod TXN /\
    u8 (default 0 (tx_buff_ s' !! Z.to_nat (tx_head_ s')))
      = u8 (List.last l 0) /\
    bit_is_set (ucsr_b_ s') UDRIE = false.
Proof.
  intros HN Hh Ht Hlen Hroom Hl Hi He Hc Hf.
  assert (Hp0 : 0 <= tx_pending d s < TXN).
  { unfold tx_pending. apply Z.mod_pos_bound. lia. }
  destruct fuel as [|fuel]; [lia|].
  destruct (send_bytes_fits d quiet fuel HN l rest s Hh Ht Hroom)
    as (s1 & F & H1 & H2 & H3 & H4 & H5 & _ & H6 & _ & H7 & H8 & _).
  destruct (tx_contents_after d l s s1 HN Hh Ht Hlen Hroom Hl H1 H2 H3 H4)
    as (Hq & Hlast).
  assert (Hk : (0 < length l)%nat).
  { destruct l; [contradiction|simpl; lia]. }
  pose proof (Z.mod_pos_bound (tx_head_ s + Z.of_nat (length l)) TXN
                ltac:(lia)) as Hm.
  assert (Hi1 : bit_is_set (sreg s1) SREG_I = false) by congruence.
  assert (He1 : bit_is_set (ucsr_a_ s1) UDRE = true) by congruence.
  assert (Hc1 : bit_is_set (ucsr_a_ s1) TXC = true) by congruence.
  assert (Hb1 : bit_is_set (ucsr_b_ s1) UDRIE = true) by (apply H5, Hl).
  assert (Hh1 : 0 <= tx_head_ s1 < TXN) by lia.
  assert (Ht1 : 0 <= tx_tail_ s1 < TXN) by lia.
  assert (Hp1 : tx_pending d s1
                = Z.of_nat (S (Z.to_nat (tx_pending d s1) - 1))) by lia.
  assert (Hf1 : (S (Z.to_nat (tx_pending d s1) - 1) < S fuel)%nat) by lia.
  destruct (flush_pump_aux d HN
              (Z.to_nat (tx_pending d s1) - 1) (S fuel) s1
              Hh1 Ht1 Hi1 He1 Hc1 Hb1 Hp1 Hf1)
    as (s' & F' & U & P1 & P2 & P3 & P4 & _).
  exists s'. unfold send_buf. rewrite Nat2Z.id, F.
  change ((0 =? 0) && true) with true. cbv iota. rewrite F'.
  split; [reflexivity|].
  split.
  { rewrite U, H6, <- Hq. unfold tx_contents. f_equal. f_equal. lia. }
  split; [congruence|].
  split; [congruence|].
  split; [rewrite P2, P3; exact Hlast|exact P4].
Qed.

End DrainedWire.

(** * Reading a run of bytes *)

Lemma land_low_byte N b : Z.land N 255 = 0 -> 0 <= b < 256 -> Z.land N b = 0.
Proof.
  intros H Hb.
  assert (E : b = Z.land 255 b).
  { change 255 with (Z.ones 8). rewrite Z.land_comm, Z.land_ones by lia.
    symmetry. apply Z.mod_small. change (2 ^ 8) with 256. lia. }
  rewrite E, Z.land_assoc, H. apply Z.land_0_l.
Qed.

Lemma land_high_byte b : 0 <= b < 256 -> Z.land b 65280 = 0.
Proof.
  intros Hb. apply Z.bits_inj'. intros n Hn.
  rewrite Z.land_spec, Z.bits_0.
  destruct (Z.ltb_spec n 8) as [L|L].
  - change 65280 with (Z.shiftl 255 8).
    rewrite (Z.shiftl_spec_low 255 8 n) by lia. apply andb_false_r.
  - rewrite <- (Z.mod_small b (2 ^ 8)) by (change (2 ^ 8) with 256; lia).
    rewrite Z.mod_pow2_bits_high by lia. reflexivity.
Qed.

Section Reading.

Variable d : Defines.

Local Abbreviation RXN := (BTR_USART_RX_BUFF_SIZE d).

(** [recv()] on a ring with data and a clear latch takes the front byte
    and returns it as it is. *)
Lemma recv_clean (s : State) :
  0 < RXN <= 65536 ->
  0 <= rx_head_ s < RXN ->
  0 <= rx_tail_ s < RXN ->
  rx_contents d s <> [] ->
  rx_error_ s = 0 ->
  exists b rest,
    rx_contents d s = b :: rest /\ 0 <= b < 256 /\
    recv d s =
      (b, set_rx_error 0 (set_rx_tail ((rx_tail_ s + 1) mod RXN) s)) /\
    rx_contents d
      (set_rx_error 0 (set_rx_tail ((rx_tail_ s + 1) mod RXN) s)) = rest.
Proof.
  intros HN Hh Ht Hne He.
  pose proof (next_index RXN (rx_tail_ s) ltac:(lia) Ht) as Hnt.
  pose proof (ring_count RXN (rx_head_ s) (rx_tail_ s) ltac:(lia) Hh Ht)
    as Hc.
  unfold rx_contents in *.
  set (c := (RXN + rx_head_ s - rx_tail_ s) mod RXN) in *.
  assert (Hc0 : 0 <= c < RXN).
  { subst c. apply Z.mod_pos_bound. lia. }
  assert (Hpos : 0 < c).
  { destruct (Z.to_nat c) eqn:E; [contradiction Hne; reflexivity|lia]. }
  assert (NE : rx_head_ s <> rx_tail_ s).
  { intros C. rewrite C in Hc.
    destruct (Z.leb_spec (rx_tail_ s) (rx_tail_ s)); lia. }
  assert (Hc1 : (RXN + rx_head_ s - (rx_tail_ s + 1) mod RXN) mod RXN
                = c - 1).
  { rewrite ring_count by (try lia; apply Z.mod_pos_bound; lia).
    rewrite Hc. rewrite Hnt in *.
    destruct (Z.eqb_spec (rx_tail_ s + 1) RXN);
      repeat match goal with
      | |- context [Z.leb ?a ?b] => destruct (Z.leb_spec a b)
      end; lia. }
  exists (u8 (default 0 (rx_buff_ s !! Z.to_nat (rx_tail_ s)))),
    (ring_slice (rx_buff_ s) RXN ((rx_tail_ s + 1) mod RXN)
       (Z.to_nat (c - 1))).
  split.
  { replace (Z.to_nat c) with (S (Z.to_nat (c - 1))) by lia. reflexivity. }
  split; [apply u8_range|].
  split.
  { unfold recv.
    destruct (Z.eqb_spec (rx_head_ s) (rx_tail_ s)) as [C|_];
      [contradiction|].
    simpl. rewrite He. rewrite u16_mod_small by lia.
    rewrite Z.shiftl_0_l. change (u16 0) with 0. rewrite Z.add_0_l.
    rewrite u16_small; [reflexivity|].
    pose proof (u8_range (default 0 (rx_buff_ s !! Z.to_nat (rx_tail_ s)))).
    lia. }
  simpl. rewrite Hc1. reflexivity.
Qed.

Lemma recv_loop_takes (timeout : Z) :
  0 < RXN <= 65536 ->
  Z.land (BTR_USART_NO_DATA d) 255 = 0 ->
  forall (k fuel : nat) (buff : list Z) (pos : nat) (delays : Z) (s : State),
  0 <= rx_head_ s < RXN ->
  0 <= rx_tail_ s < RXN ->
  rx_error_ s = 0 ->
  (k <= length (rx_contents d s))%nat ->
  (pos + k <= length buff)%nat ->
  exists s',
    recv_loop d quiet (S (k + fuel)) timeout buff pos (Z.of_nat k) delays 0 s
      = Some (0,
              take pos buff ++ take k (rx_contents d s)
                ++ drop (pos + k) buff,
              s') /\
    rx_contents d s' = drop k (rx_contents d s) /\
    rx_tail_ s' = (rx_tail_ s + Z.of_nat k) mod RXN /\
    rx_head_ s' = rx_head_ s /\
    rx_error_ s' = 0 /\
    rx_buff_ s' = rx_buff_ s /\
    now s' = (now s + k)%nat /\
    tx_head_ s' = tx_head_ s /\ tx_tail_ s' = tx_tail_ s /\
    tx_buff_ s' = tx_buff_ s /\ udr_tx s' = udr_tx s /\
    ucsr_b_ s' = ucsr_b_ s.
Proof.
  intros HN Hnd. induction k as [|k IH];
    intros fuel buff pos delays s Hh Ht He Hk Hp.
  - exists s. cbn [recv_loop Nat.add]. change (0 <? Z.of_nat 0) with false.
    cbv iota. rewrite Nat.add_0_r, take_0, app_nil_l, take_drop.
    rewrite drop_0, Z.add_0_r, Z.mod_small by lia.
    repeat split; try reflexivity; lia.
  - assert (Hne : rx_contents d s <> []).
    { intros C. rewrite C in Hk. simpl in Hk. lia. }
    destruct (recv_clean s HN Hh Ht Hne He) as (b & rest & Hc & Hb & Hr & Hc').
    change (S (S k + fuel)) with (S (S (k + fuel))).
    remember (S (k + fuel)) as f eqn:Ef.
    cbn [recv_loop].
    destruct (Z.ltb_spec 0 (Z.of_nat (S k))) as [_|C]; [|lia].
    rewrite Hr.
    rewrite (land_low_byte _ _ Hnd Hb). change (0 =? 0) with true.
    simpl negb. cbv iota.
    rewrite (land_high_byte _ Hb). change (u16 (Z.lor 0 0)) with 0.
    rewrite (u8_small b) by lia.
    replace (Z.of_nat (S k) - 1) with (Z.of_nat k) by lia.
    subst f.
    set (s1 := elapse quiet
                 (set_rx_error 0
                    (set_rx_tail ((rx_tail_ s + 1) mod RXN) s))).
    assert (Hc1 : rx_contents d s1 = rest) by exact Hc'.
    pose proof (Z.mod_pos_bound (rx_tail_ s + 1) RXN ltac:(lia)) as Hm.
    destruct (IH fuel (<[pos := b]> buff) (S pos) delays s1)
      as (s' & F & G1 & G2 & G3 & G4 & G5 & G6 & G7);
      try (subst s1; simpl; lia); try reflexivity.
    { rewrite Hc1. rewrite Hc in Hk. simpl in Hk. lia. }
    { rewrite length_insert. lia. }
    exists s'. rewrite F, Hc1, Hc.
    split.
    { f_equal. f_equal. f_equal.
      rewrite insert_take_drop by lia.
      assert (Hlt : length (take pos buff ++ [b]) = S pos).
      { rewrite length_app, length_take. simpl. lia. }
      rewrite (cons_middle b (take pos buff) (drop (S pos) buff)).
      rewrite (app_assoc (take pos buff) [b] (drop (S pos) buff)).
      rewrite take_app_length' by (symmetry; exact Hlt).
      rewrite drop_app_add' by (symmetry; exact Hlt).
      rewrite drop_drop. rewrite <- app_assoc. f_equal. simpl. f_equal.
      f_equal. f_equal. lia. }
    split; [rewrite G1, Hc1; reflexivity|].
    split.
    { rewrite G2. subst s1. simpl. rewrite ring_step_add by lia.
      f_equal. lia. }
    split; [rewrite G3; reflexivity|].
    split; [exact G4|].
    split; [rewrite G5; reflexivity|].
    destruct G7 as (G7 & G8 & G9 & G10 & G11).
    split; [rewrite G6; subst s1; simpl; lia|].
    repeat split; assumption.
Qed.

(** X12. [recv(buff, bytes, timeout)] when the ring already holds the bytes:
    with no error flag latched, no newer byte arriving meanwhile and a
    no-data sentinel that lives in the high byte, it returns status 0
    after [bytes] turns of the loop, whatever the timeout; the first
    [bytes] of the queue are in the buffer in order, the rest of the buffer
    is as it was, the queue has lost exactly these bytes, and [rx_head_]
    and the transmit side are not touched. *)
Theorem recv_buf_takes (k fuel : nat) (buff : list Z) (timeout : Z)
  (s : State) :
  0 < RXN <= 32768 ->
  Z.land (BTR_USART_NO_DATA d) 255 = 0 ->
  0 <= rx_head_ s < RXN ->
  0 <= rx_tail_ s < RXN ->
  rx_error_ s = 0 ->
  Z.of_nat k <= available d s ->
  (k <= length buff)%nat ->
  (k < fuel)%nat ->
  exists s',
    recv_buf d quiet fuel buff (Z.of_nat k) timeout s
      = Some (0, take k (rx_contents d s) ++ drop k buff, s') /\
    rx_contents d s' = drop k (rx_contents d s) /\
    rx_tail_ s' = (rx_tail_ s + Z.of_nat k) mod RXN /\
    rx_head_ s' = rx_head_ s /\
    rx_error_ s' = 0 /\
    rx_buff_ s' = rx_buff_ s /\
    now s' = (now s + k)%nat /\
    tx_head_ s' = tx_head_ s /\ tx_tail_ s' = tx_tail_ s /\
    tx_buff_ s' = tx_buff_ s /\ udr_tx s' = udr_tx s /\
    ucsr_b_ s' = ucsr_b_ s.
Proof.
  intros HN Hnd Hh Ht He Hk Hb Hf.
  assert (Hlen : (k <= length (rx_contents d s))%nat).
  { unfold rx_contents. rewrite ring_slice_length.
    rewrite available_eq in Hk by lia.
    rewrite ring_count by lia. lia. }
  replace fuel with (S (k + (fuel - S k)))%nat by lia.
  assert (HN' : 0 < RXN <= 65536) by lia.
  destruct (recv_loop_takes timeout HN' Hnd k (fuel - S k) buff O 0 s
              Hh Ht He Hlen ltac:(lia)) as (s' & F & G).
  exists s'. unfold recv_buf. rewrite F. split; [reflexivity|exact G].
Qed.

(** Polls of the empty ring that nothing refills can only end in the
    timeout return: nothing is stored and the ring stays as it is. *)
Lemma recv_loop_empty_quiet (timeout : Z) :
  Z.land (BTR_USART_NO_DATA d) (u16 (BTR_USART_NO_DATA d)) <> 0 ->
  forall (fuel : nat) (buff : list Z) (pos : nat) (bytes delays rc : Z)
         (s : State) r,
  0 < bytes ->
  rx_head_ s = rx_tail_ s ->
  recv_loop d quiet fuel timeout buff pos bytes delays rc s = Some r ->
  exists s',
    r = (u16 (Z.lor rc (BTR_USART_TIMEDOUT_ERR d)), buff, s') /\
    rx_head_ s' = rx_head_ s /\ rx_tail_ s' = rx_tail_ s /\
    rx_error_ s' = rx_error_ s.
Proof.
  intros Hnd. induction fuel as [|fuel IH];
    intros buff pos bytes delays rc s r Hb He; [discriminate|].
  cbn [recv_loop].
  destruct (Z.ltb_spec 0 bytes) as [_|C]; [|lia].
  rewrite (recv_empty d s He).
  destruct (Z.eqb_spec (Z.land (BTR_USART_NO_DATA d)
                          (u16 (BTR_USART_NO_DATA d))) 0) as [C|_];
    [contradiction|].
  simpl negb. cbv iota.
  destruct (0 <? timeout).
  - destruct (timeout <=? u32 (delays + BTR_USART_RX_DELAY d)).
    + intros [= <-]. exists s. repeat split; reflexivity.
    + intros H. apply IH in H; [|exact Hb|exact He].
      destruct H as (s' & -> & G1 & G2 & G3). exists s'.
      repeat split; assumption.
  - intros H. apply IH in H; [|exact Hb|exact He].
    destruct H as (s' & -> & G1 & G2 & G3). exists s'.
    repeat split; assumption.
Qed.

(** X13. A byte that reaches [recv(buff, bytes, timeout)] together with a flag
    that the no-data sentinel also has is taken out of the ring and not
    stored, and its flags do not reach the status: with one such byte
    waiting and nothing arriving afterwards, the call returns with the
    timeout flag alone, the buffer as it was, the ring empty and the latch
    clear. *)
Theorem recv_buf_drops_flagged (buff : list Z) (bytes timeout : Z)
  (s : State) :
  0 < RXN <= 65536 ->
  0 <= rx_tail_ s < RXN ->
  rx_head_ s = (rx_tail_ s + 1) mod RXN ->
  rx_head_ s <> rx_tail_ s ->
  Z.land (BTR_USART_NO_DATA d) (fst (recv d s)) <> 0 ->
  Z.land (BTR_USART_NO_DATA d) (u16 (BTR_USART_NO_DATA d)) <> 0 ->
  0 < BTR_USART_RX_DELAY d ->
  0 < timeout ->
  timeout + BTR_USART_RX_DELAY d <= 4294967296 ->
  0 < bytes ->
  exists (fuel : nat) s',
    recv_buf d quiet fuel buff bytes timeout s
      = Some (u16 (BTR_USART_TIMEDOUT_ERR d), buff, s') /\
    rx_head_ s' = rx_tail_ s' /\
    rx_tail_ s' = rx_head_ s /\
    rx_error_ s' = 0 /\
    available d s' = 0.
Proof.
  intros HN Ht Hone NE Hflag Hnd HD Hto Hw Hb.
  destruct (delays_reach _ _ HD Hto Hw) as (n & _ & Hge).
  set (fuel := S (Z.to_nat bytes + S n)).
  assert (Hav : forall s' : State,
            rx_head_ s' = rx_tail_ s' -> 0 <= rx_tail_ s' < RXN ->
            available d s' = 0).
  { intros s' E R. unfold available. rewrite E.
    replace (RXN + rx_tail_ s' - rx_tail_ s') with RXN by lia.
    destruct (Z.eq_dec RXN 65536) as [->|NE']; [reflexivity|].
    rewrite u16_small by lia. rewrite Z.mod_same by lia. reflexivity. }
  pose proof (Z.mod_pos_bound (rx_tail_ s + 1) RXN ltac:(lia)) as Hm.
  unfold recv_buf.
  destruct (recv d s) as [ch s1] eqn:Er. simpl in Hflag.
  assert (Es1 : rx_head_ s1 = rx_tail_ s1 /\ rx_tail_ s1 = rx_head_ s /\
                rx_error_ s1 = 0).
  { unfold recv in Er.
    destruct (Z.eqb_spec (rx_head_ s) (rx_tail_ s)) as [C|_];
      [contradiction|].
    simpl in Er. injection Er as _ <-. simpl.
    rewrite u16_mod_small by lia. repeat split; congruence. }
  destruct Es1 as (E1 & E2 & E3).
  destruct (Z.leb_spec timeout (u32 (0 + BTR_USART_RX_DELAY d))) as [L|L].
  - exists 1%nat, s1. cbn [recv_loop].
    destruct (Z.ltb_spec 0 bytes) as [_|C]; [|lia].
    rewrite Er.
    destruct (Z.eqb_spec (Z.land (BTR_USART_NO_DATA d) ch) 0) as [C|_];
      [contradiction|].
    simpl negb. cbv iota.
    destruct (Z.ltb_spec 0 timeout) as [_|C]; [|lia].
    destruct (Z.leb_spec timeout (u32 (0 + BTR_USART_RX_DELAY d)))
      as [_|C]; [|lia].
    split; [reflexivity|].
    repeat split; try assumption. apply Hav; [exact E1|lia].
  - assert (Hn1 : (1 < S n)%nat).
    { destruct n; [|lia]. unfold rx_delays in Hge.
      rewrite Z.add_0_l in L. change (Z.of_nat 1) with 1 in Hge.
      rewrite Z.mul_1_l in Hge. lia. }
    destruct (recv_loop_returns d quiet timeout (S n) Hto Hge
                (Z.to_nat bytes + S n)%nat 1%nat buff O bytes 0
                (elapse quiet s1) Hn1 ltac:(lia) ltac:(lia)) as [r Hr].
    assert (Ed : rx_delays d 1 = u32 (0 + BTR_USART_RX_DELAY d)).
    { unfold rx_delays. f_equal. lia. }
    rewrite Ed in Hr.
    destruct (recv_loop_empty_quiet timeout Hnd _ _ _ _ _ _ _ r Hb
                (E1 : rx_head_ (elapse quiet s1) = rx_tail_ (elapse quiet s1))
                Hr) as (s' & -> & G1 & G2 & G3).
    exists fuel, s'. subst fuel. cbn [recv_loop].
    destruct (Z.ltb_spec 0 bytes) as [_|C]; [|lia].
    rewrite Er.
    destruct (Z.eqb_spec (Z.land (BTR_USART_NO_DATA d) ch) 0) as [C|_];
      [contradiction|].
    simpl negb. cbv iota.
    destruct (Z.ltb_spec 0 timeout) as [_|C]; [|lia].
    destruct (Z.leb_spec timeout (u32 (0 + BTR_USART_RX_DELAY d)))
      as [C|_]; [lia|].
    rewrite Hr. change (Z.lor 0 ?x) with x.
    split; [reflexivity|].
    change (rx_head_ (elapse quiet s1)) with (rx_head_ s1) in G1.
    change (rx_tail_ (elapse quiet s1)) with (rx_tail_ s1) in G2.
    change (rx_error_ (elapse quiet s1)) with (rx_error_ s1) in G3.
    repeat split; try congruence.
    apply Hav; [congruence|]. rewrite G2, E2, Hone. lia.
Qed.

End Reading.

(** * Zero-terminated strings *)

Section Strings.

Variable d : Defines.
Variable hw : State -> State.

Lemma send_chars_bytes (fuel : nat) (l rest : list Z) :
  Forall (fun ch => u8 ch <> 0) l ->
  forall s : State,
  send_chars d hw fuel (l ++ 0 :: rest) s =
  send_bytes d hw fuel (l ++ 0 :: rest) (length l) s.
Proof.
  induction 1 as [|ch l Hch Hl IH]; intros s.
  - reflexivity.
  - cbn [app length send_chars send_bytes head tail]. simpl default.
    destruct (Z.eqb_spec (u8 ch) 0) as [C|_]; [contradiction|].
    destruct (send d hw fuel ch false (send_timeout_default d) s)
      as [[rc s1]|]; [|reflexivity].
    destruct (negb (rc =? 0)); [reflexivity|]. apply IH.
Qed.

(** X14. [send(buff, drain)] on a string is [send(buff, bytes, drain)] with
    the length of the string for [bytes]: the same bytes are queued, the
    same status comes back, the same state is left, and where one does
    not return the other does not either. The terminating zero is not
    sent; a byte that is zero as a [char] ends the string. *)
Theorem send_str_is_send_buf (fuel : nat) (l rest : list Z) (drain : bool)
  (s : State) :
  Forall (fun ch => u8 ch <> 0) l ->
  send_str d hw fuel (l ++ 0 :: rest) drain s =
    send_buf d hw fuel (l ++ 0 :: rest) (Z.of_nat (length l)) drain s /\
  (forall ch : Z, u8 ch = 0 ->
     send_str d hw fuel (ch :: rest) drain s =
       if drain then
         match flush d hw fuel s with
         | None => None
         | Some (_, s') => Some (0, s')
         end
       else Some (0, s)).
Proof.
  intros Hl. split.
  - unfold send_str, send_buf. rewrite Nat2Z.id.
    rewrite send_chars_bytes by exact Hl. reflexivity.
  - intros ch Hz. unfold send_str. cbn [send_chars].
    rewrite Hz. change (0 =? 0) with true. cbv iota.
    destruct drain; reflexivity.
Qed.

End Strings.

(** * Indices stay inside the rings *)

Section Bounds.

Variable d : Defines.
Variable hw : State -> State.

Local Abbreviation RXN := (BTR_USART_RX_BUFF_SIZE d).
Local Abbreviation TXN := (BTR_USART_TX_BUFF_SIZE d).

Hypothesis HRX : 0 < RXN <= 65536.
Hypothesis HTX : 0 < TXN <= 65536.
Hypothesis Hhw : forall s : State, in_bounds d s -> in_bounds d (hw s).

Lemma in_bounds_onRecv (s : State) : in_bounds d s -> in_bounds d (onRecv d s).
Proof.
  unfold in_bounds, onRecv. intros (H1 & H2 & H3 & H4 & H5 & H6).
  pose proof (Z.mod_pos_bound (rx_head_ s + 1) RXN ltac:(lia)).
  simpl. rewrite u16_mod_small by lia.
  destruct (negb ((rx_head_ s + 1) mod RXN =? rx_tail_ s)); simpl;
    rewrite ?length_insert; repeat split; lia.
Qed.

Lemma in_bounds_onSend (s : State) : in_bounds d s -> in_bounds d (onSend d s).
Proof.
  unfold in_bounds, onSend. intros (H1 & H2 & H3 & H4 & H5 & H6).
  pose proof (Z.mod_pos_bound (tx_tail_ s + 1) TXN ltac:(lia)).
  simpl. rewrite u16_mod_small by lia.
  destruct (tx_head_ s =? (tx_tail_ s + 1) mod TXN); simpl;
    repeat split; lia.
Qed.

Lemma in_bounds_recv (s : State) :
  in_bounds d s -> in_bounds d (snd (recv d s)).
Proof.
  unfold in_bounds, recv. intros (H1 & H2 & H3 & H4 & H5 & H6).
  pose proof (Z.mod_pos_bound (rx_tail_ s + 1) RXN ltac:(lia)).
  destruct (negb (rx_head_ s =? rx_tail_ s)); simpl;
    rewrite ?u16_mod_small by lia; repeat split; lia.
Qed.

Lemma in_bounds_open (s : State) :
  in_bounds d s -> in_bounds d (snd (open d s)).
Proof.
  unfold open. intros H.
  destruct (isOpen s); [exact H|].
  destruct (port_settings d (id_ s)) as [[baud config]|]; [|exact H].
  destruct (0 <? BTR_USART_USE_2X d); exact H.
Qed.

Lemma in_bounds_elapse (s : State) :
  in_bounds d s -> in_bounds d (elapse hw s).
Proof. intros H. apply Hhw. exact H. Qed.

Lemma in_bounds_flush (fuel : nat) :
  forall (s : State) r s',
  in_bounds d s -> flush d hw fuel s = Some (r, s') -> in_bounds d s'.
Proof.
  induction fuel as [|fuel IH]; intros s r s' H; [discriminate|].
  cbn [flush].
  destruct (bit_is_set (ucsr_b_ s) UDRIE || bit_is_clear (ucsr_a_ s) TXC).
  - intros F. apply IH in F; [exact F|].
    apply in_bounds_elapse.
    destruct (bit_is_clear (sreg s) SREG_I && bit_is_set (ucsr_b_ s) UDRIE);
      [|exact H].
    destruct (bit_is_set (ucsr_a_ s) UDRE); [|exact H].
    apply in_bounds_onSend. exact H.
  - intros [= <- <-]. exact H.
Qed.

Lemma in_bounds_close (fuel : nat) (s s' : State) :
  in_bounds d s -> close d hw fuel s = Some s' -> in_bounds d s'.
Proof.
  intros H. unfold close.
  destruct (flush d hw fuel s) as [[r s1]|] eqn:F; [|discriminate].
  intros [= <-]. apply in_bounds_flush in F; [|exact H].
  unfold in_bounds in *. simpl. lia.
Qed.

Lemma in_bounds_send_wait (fuel : nat) (hn timeout : Z) :
  forall (delays : Z) (s : State) b s',
  in_bounds d s ->
  send_wait d hw fuel hn timeout delays s = Some (b, s') -> in_bounds d s'.
Proof.
  induction fuel as [|fuel IH]; intros delays s b s' H; [discriminate|].
  cbn [send_wait].
  destruct (hn =? tx_tail_ s).
  - destruct (bit_is_clear (sreg s) SREG_I && bit_is_set (ucsr_a_ s) UDRE).
    + apply IH. apply in_bounds_elapse, in_bounds_onSend. exact H.
    + destruct (0 <? timeout).
      * destruct (timeout <=? u32 (delays + BTR_USART_TX_DELAY d)).
        -- intros [= <- <-]. exact H.
        -- apply IH. apply in_bounds_elapse. exact H.
      * apply IH. apply in_bounds_elapse. exact H.
  - intros [= <- <-]. exact H.
Qed.

Lemma in_bounds_send (fuel : nat) (ch : Z) (drain : bool) (timeout : Z)
  (s : State) r s' :
  in_bounds d s ->
  send d hw fuel ch drain timeout s = Some (r, s') -> in_bounds d s'.
Proof.
  intros H. unfold send.
  pose proof H as (H1 & H2 & H3 & H4 & H5 & H6).
  pose proof (Z.mod_pos_bound (tx_head_ s + 1) TXN ltac:(lia)) as Hm.
  rewrite u16_mod_small by lia.
  destruct (send_wait d hw fuel ((tx_head_ s + 1) mod TXN) timeout 0 s)
    as [[[|] s1]|] eqn:W; [| |discriminate].
  - intros [= <- <-]. apply in_bounds_send_wait in W; assumption.
  - apply in_bounds_send_wait in W; [|exact H].
    assert (Hs : in_bounds d
              (set_ucsr_b
                 (set_bit
                    (ucsr_b_
                       (set_tx_head ((tx_head_ s + 1) mod TXN)
                          (set_tx_buff
                             (<[Z.to_nat ((tx_head_ s + 1) mod TXN) := u8 ch]>
                                (tx_buff_ s1)) s1))) UDRIE)
                 (set_tx_head ((tx_head_ s + 1) mod TXN)
                    (set_tx_buff
                       (<[Z.to_nat ((tx_head_ s + 1) mod TXN) := u8 ch]>
                          (tx_buff_ s1)) s1)))).
    { unfold in_bounds in *. simpl. rewrite length_insert. lia. }
    destruct drain.
    + destruct (flush d hw fuel _) as [[r1 s2]|] eqn:F; [|discriminate].
      intros [= <- <-]. apply in_bounds_flush in F; assumption.
    + intros [= <- <-]. exact Hs.
Qed.

Lemma in_bounds_send_bytes (fuel : nat) (bytes : nat) :
  forall (buff : list Z) (s : State) r s',
  in_bounds d s ->
  send_bytes d hw fuel buff bytes s = Some (r, s') -> in_bounds d s'.
Proof.
  induction bytes as [|bytes IH]; intros buff s r s' H.
  - intros [= <- <-]. exact H.
  - cbn [send_bytes].
    destruct (send d hw fuel (default 0 (head buff)) false
                (send_timeout_default d) s) as [[rc s1]|] eqn:S1;
      [|discriminate].
    apply in_bounds_send in S1; [|exact H].
    destruct (negb (rc =? 0)).
    + intros [= <- <-]. exact S1.
    + apply IH. exact S1.
Qed.

Lemma in_bounds_send_chars (fuel : nat) (buff : list Z) :
  forall (s : State) r s',
  in_bounds d s ->
  send_chars d hw fuel buff s = Some (r, s') -> in_bounds d s'.
Proof.
  induction buff as [|ch buff IH]; intros s r s' H.
  - intros [= <- <-]. exact H.
  - cbn [send_chars].
    destruct (u8 ch =? 0); [intros [= <- <-]; exact H|].
    destruct (send d hw fuel ch false (send_timeout_default d) s)
      as [[rc s1]|] eqn:S1; [|discriminate].
    apply in_bounds_send in S1; [|exact H].
    destruct (negb (rc =? 0)).
    + intros [= <- <-]. exact S1.
    + apply IH. exact S1.
Qed.

Lemma in_bounds_recv_loop (fuel : nat) (timeout : Z) :
  forall (buff : list Z) (pos : nat) (bytes delays rc : Z) (s : State)
         r buff' s',
  in_bounds d s ->
  recv_loop d hw fuel timeout buff pos bytes delays rc s
    = Some (r, buff', s') ->
  in_bounds d s'.
Proof.
  induction fuel as [|fuel IH];
    intros buff pos bytes delays rc s r buff' s' H; [discriminate|].
  cbn [recv_loop].
  destruct (0 <? bytes); [|intros [= <- <- <-]; exact H].
  pose proof (in_bounds_recv s H) as H1.
  destruct (recv d s) as [ch s1]. simpl in H1.
  destruct (negb (Z.land (BTR_USART_NO_DATA d) ch =? 0)).
  - destruct (0 <? timeout).
    + destruct (timeout <=? u32 (delays + BTR_USART_RX_DELAY d)).
      * intros [= <- <- <-]. exact H1.
      * apply IH. apply in_bounds_elapse. exact H1.
    + apply IH. apply in_bounds_elapse. exact H1.
  - apply IH. apply in_bounds_elapse. exact H1.
Qed.

(** X15. No operation of the engine moves an index out of its ring or resizes
    a ring: the constructor sets the bounds up, and from a state within
    bounds the two handlers, [open], [recv()] and every blocking call that
    returns leave a state within bounds, as long as the hardware and the
    handlers run between the polls do. So every [rx_buff_[..]] and
    [tx_buff_[..]] access of the engine is to a slot of the array. *)
Theorem rings_stay_in_bounds (s : State) :
  in_bounds d s ->
  (forall id ubrr_h ubrr_l ucsr_a ucsr_b ucsr_c udr sreg_ : Z,
     in_bounds d (Usart d id ubrr_h ubrr_l ucsr_a ucsr_b ucsr_c udr sreg_)) /\
  in_bounds d (onRecv d s) /\
  in_bounds d (onSend d s) /\
  in_bounds d (snd (recv d s)) /\
  in_bounds d (snd (open d s)) /\
  (forall fuel r s', flush d hw fuel s = Some (r, s') -> in_bounds d s') /\
  (forall fuel s', close d hw fuel s = Some s' -> in_bounds d s') /\
  (forall fuel ch drain timeout r s',
     send d hw fuel ch drain timeout s = Some (r, s') -> in_bounds d s') /\
  (forall fuel buff bytes drain r s',
     send_buf d hw fuel buff bytes drain s = Some (r, s') ->
     in_bounds d s') /\
  (forall fuel buff drain r s',
     send_str d hw fuel buff drain s = Some (r, s') -> in_bounds d s') /\
  (forall fuel buff bytes timeout r buff' s',
     recv_buf d hw fuel buff bytes timeout s = Some (r, buff', s') ->
     in_bounds d s').
Proof.
  intros H.
  split.
  { intros. unfold in_bounds, Usart. simpl. rewrite !length_replicate. lia. }
  split; [apply in_bounds_onRecv; exact H|].
  split; [apply in_bounds_onSend; exact H|].
  split; [apply in_bounds_recv; exact H|].
  split; [apply in_bounds_open; exact H|].
  split; [intros fuel r s'; apply in_bounds_flush; exact H|].
  split; [intros fuel s'; apply in_bounds_close; exact H|].
  split; [intros fuel ch drain timeout r s'; apply in_bounds_send; exact H|].
  split.
  { intros fuel buff bytes drain r s'. unfold send_buf.
    destruct (send_bytes d hw fuel buff (Z.to_nat bytes) s)
      as [[rc s1]|] eqn:B; [|discriminate].
    apply in_bounds_send_bytes in B; [|exact H].
    destruct ((rc =? 0) && drain).
    - destruct (flush d hw fuel s1) as [[r1 s2]|] eqn:F; [|discriminate].
      intros [= <- <-]. apply in_bounds_flush in F; assumption.
    - intros [= <- <-]. exact B. }
  split.
  { intros fuel buff drain r s'. unfold send_str.
    destruct (send_chars d hw fuel buff s) as [[rc s1]|] eqn:B;
      [|discriminate].
    apply in_bounds_send_chars in B; [|exact H].
    destruct ((rc =? 0) && drain).
    - destruct (flush d hw fuel s1) as [[r1 s2]|] eqn:F; [|discriminate].
      intros [= <- <-]. apply in_bounds_flush in F; assumption.
    - intros [= <- <-]. exact B. }
  intros fuel buff bytes timeout r buff' s'. unfold recv_buf.
  apply in_bounds_recv_loop. exact H.
Qed.

End Bounds.

(** * The status of a typed read on every width of [int] *)

Section Narrowing.

Import I2C.

Variable Bus : Type.
Variable INT_BITS : Z.
Variable is_ok : Z -> bool.
Variable read_bytes :
  Device Bus -> Z -> Z -> list Z -> Z -> Z * list Z * Device Bus.

Lemma to_int_range (r : Z) :
  0 < INT_BITS ->
  - 2 ^ (INT_BITS - 1) <= to_int INT_BITS r < 2 ^ (INT_BITS - 1).
Proof.
  intros HB. unfold to_int.
  assert (HH : 2 ^ INT_BITS = 2 * 2 ^ (INT_BITS - 1)).
  { replace INT_BITS with (1 + (INT_BITS - 1)) at 1 by lia.
    rewrite Z.pow_add_r by lia. reflexivity. }
  assert (Hpos : 0 < 2 ^ (INT_BITS - 1)) by (apply Z.pow_pos_nonneg; lia).
  pose proof (Z.mod_pos_bound (r + 2 ^ (INT_BITS - 1)) (2 ^ INT_BITS)
                ltac:(lia)).
  lia.
Qed.

(** X16. [read<T>] passes the status through [int rc]. The status comes back
    as the byte-buffer read gave it exactly when it fits an [int], that
    is when it lies within [2^(INT_BITS-1)] of either end of the
    [uint32_t] range; with a 32-bit [int] that is always. Whether [*val]
    is written is decided on the [int], and the scratch buffer keeps what
    the byte-buffer read left there either way. *)
Theorem read_status_through_int (sz : nat) (s : Device Bus)
  (addr reg val : Z) :
  0 < INT_BITS <= 32 ->
  let '(r, buf, s1) := read_bytes s addr reg (buff_ s) (Z.of_nat sz) in
  0 <= r < 4294967296 ->
  let out := read Bus INT_BITS is_ok read_bytes sz s addr reg val in
  (fst (fst out) = r <->
     r < 2 ^ (INT_BITS - 1) \/ 4294967296 - 2 ^ (INT_BITS - 1) <= r) /\
  (INT_BITS = 32 -> fst (fst out) = r) /\
  snd (fst out) =
    (if is_ok (to_int INT_BITS r) then be_value (take sz buf) else val) /\
  snd out = set_buff buf s1.
Proof.
  intros HB. unfold read.
  destruct (read_bytes s addr reg (buff_ s) (Z.of_nat sz)) as [[r buf] s1].
  intros Hr. cbn zeta. cbn [fst snd].
  assert (HH : 2 ^ INT_BITS = 2 * 2 ^ (INT_BITS - 1)).
  { replace INT_BITS with (1 + (INT_BITS - 1)) at 1 by lia.
    rewrite Z.pow_add_r by lia. reflexivity. }
  assert (HM : 4294967296 = 2 ^ (32 - INT_BITS) * (2 * 2 ^ (INT_BITS - 1))).
  { rewrite <- HH, <- Z.pow_add_r by lia.
    replace (32 - INT_BITS + INT_BITS) with 32 by lia. reflexivity. }
  assert (Hpos : 0 < 2 ^ (INT_BITS - 1)) by (apply Z.pow_pos_nonneg; lia).
  assert (Hle : 2 ^ (INT_BITS - 1) <= 2147483648).
  { change 2147483648 with (2 ^ 31). apply Z.pow_le_mono_r; lia. }
  pose proof (to_int_range r ltac:(lia)) as Ht.
  assert (Hiff : u32 (to_int INT_BITS r) = r <->
                 r < 2 ^ (INT_BITS - 1)
                 \/ 4294967296 - 2 ^ (INT_BITS - 1) <= r).
  { set (H := 2 ^ (INT_BITS - 1)) in *.
    set (K := 2 ^ (32 - INT_BITS)) in *.
    split.
    - intros E.
      destruct (Z_lt_le_dec r H) as [L|L]; [left; exact L|].
      destruct (Z_lt_le_dec r (4294967296 - H)) as [L'|L'];
        [|right; exact L'].
      exfalso.
      destruct (Z_lt_le_dec (to_int INT_BITS r) 0) as [N|N].
      + assert (u32 (to_int INT_BITS r) = to_int INT_BITS r + 4294967296).
        { unfold u32.
          replace (to_int INT_BITS r)
            with (to_int INT_BITS r + 4294967296 + (-1) * 4294967296)
            at 1 by lia.
          rewrite Z.mod_add by lia. apply Z.mod_small. lia. }
        lia.
      + rewrite u32_small in E by lia. lia.
    - intros [L|L]; unfold to_int; fold H; rewrite HH; fold H.
      + rewrite (Z.mod_small (r + H)) by lia.
        replace (r + H - H) with r by lia. apply u32_small. lia.
      + replace (r + H) with (r + H - 4294967296 + K * (2 * H)) by lia.
        rewrite Z.mod_add by lia. rewrite Z.mod_small by lia.
        unfold u32.
        replace (r + H - 4294967296 - H) with (r + (-1) * 4294967296)
          by lia.
        rewrite Z.mod_add by lia. apply Z.mod_small. lia. }
  split; [exact Hiff|].
  split.
  { intros E. apply Hiff. rewrite E in *.
    change (2 ^ (32 - 1)) with 2147483648. lia. }
  split; reflexivity.
Qed.

End Narrowing.

(** * The further properties on the sample configurations *)

Lemma available_counts_witness :
  0 <= available sample (busy 0) <= 7 /\
  available sample (onRecv sample (busy 0)) = available sample (busy 0) + 1 /\
  available sample (onRecv sample rx_full) = available sample rx_full /\
  available sample (snd (recv sample (busy 0)))
    = available sample (busy 0) - 1.
Proof.
  destruct (available_counts sample (busy 0))
    as (A & _ & _ & B & _ & C & _).
  - cbn. lia.
  - cbn. lia.
  - cbn. lia.
  - destruct (available_counts sample rx_full) as (_ & _ & _ & _ & D & _).
    + cbn. lia.
    + cbn. lia.
    + cbn. lia.
    + split; [exact A|].
      split; [apply B; vm_compute; discriminate|].
      split; [apply D; reflexivity|].
      apply C. vm_compute. discriminate.
Defined.

Lemma rx_ring_fifo_witness :
  rx_contents sample (onRecv sample (busy 0))
    = rx_contents sample (busy 0) ++ [67] /\
  rx_contents sample (onRecv sample rx_full) = rx_contents sample rx_full /\
  rx_contents sample (busy 0)
    = 65 :: rx_contents sample (snd (recv sample (busy 0))).
Proof.
  destruct (rx_ring_fifo sample (busy 0)) as (A & _ & C & _).
  - cbn. lia.
  - cbn. lia.
  - cbn. lia.
  - reflexivity.
  - destruct (rx_ring_fifo sample rx_full) as (_ & B & _).
    + cbn. lia.
    + cbn. lia.
    + cbn. lia.
    + reflexivity.
    + split; [apply A; vm_compute; discriminate|].
      split; [apply B; reflexivity|].
      apply C. vm_compute. discriminate.
Defined.

Lemma latch_holds_latest_witness :
  rx_error_ (onRecv sample (set_ucsr_a 112 (busy 0))) = 16 /\
  Z.shiftr (fst (recv sample (onRecv sample (set_ucsr_a 112 (busy 0))))) 8
    = 16 /\
  Z.land (fst (recv sample (onRecv sample (set_ucsr_a 112 (busy 0))))) 255
    = 65 /\
  rx_error_ (snd (recv sample (onRecv sample (set_ucsr_a 112 (busy 0)))))
    = 0.
Proof.
  apply (latch_holds_latest sample (set_ucsr_a 112 (busy 0))).
  - cbn. lia.
  - cbn. lia.
  - cbn. lia.
  - vm_compute. discriminate.
  - vm_compute. discriminate.
Defined.

Lemma open_configures_witness :
  open sample (Usart sample 9 0 0 96 0 0 0 0)
    = (-1, Usart sample 9 0 0 96 0 0 0 0) /\
  fst (open sample (fresh 0)) = 0 /\
  ubrr_h_ (snd (open sample (fresh 0))) * 256
    + ubrr_l_ (snd (open sample (fresh 0))) = 8 /\
  bit_is_set (ucsr_b_ (snd (open sample (fresh 0)))) TXEN = true /\
  bit_is_set (ucsr_b_ (snd (open sample (fresh 0)))) UDRIE = false.
Proof.
  split.
  - destruct (open_configures sample (Usart sample 9 0 0 96 0 0 0 0))
      as (A & _); [reflexivity|].
    apply A. intros [_ C]. vm_compute in C. apply C. reflexivity.
  - destruct (open_configures sample (fresh 0)) as (_ & B); [reflexivity|].
    assert (Hid : 1 <= id_ (fresh 0) <= 4)
      by (vm_compute; split; discriminate).
    specialize (B Hid). cbv zeta in B.
    destruct B as (B1 & B2 & _ & _ & _ & _ & B3 & _ & _ & B4 & _).
    split; [exact B1|]. split; [exact B2|]. split; [exact B3|exact B4].
Defined.

Lemma BAUD_CALC_rounds_witness :
  (0 <= BAUD_CALC sample 115200 /\
   16 * 115200 * (BAUD_CALC sample 115200 + 1) - 8 * 115200 <= 16000000 /\
   16000000 < 16 * 115200 * (BAUD_CALC sample 115200 + 1) + 8 * 115200) /\
  (BAUD_CALC sample 4000000 = 4294967295 /\
   u16 (BAUD_CALC sample 4000000) = 65535).
Proof.
  split.
  - pose proof (BAUD_CALC_rounds sample 115200) as H. cbv zeta in H.
    destruct H as (A & _).
    + lia.
    + vm_compute. discriminate.
    + vm_compute. reflexivity.
    + vm_compute. reflexivity.
    + apply A. vm_compute. discriminate.
  - pose proof (BAUD_CALC_rounds sample 4000000) as H. cbv zeta in H.
    destruct H as (_ & B).
    + lia.
    + vm_compute. discriminate.
    + vm_compute. reflexivity.
    + vm_compute. reflexivity.
    + apply B. vm_compute. reflexivity.
Defined.

Lemma instance_port_witness :
  instance (fun n => if n =? 2 then 1 else 0) 3 = None /\
  id_ (Usart sample 2 0 0 96 0 0 0 0) = 2 /\
  isOpen (Usart sample 2 0 0 96 0 0 0 0) = false /\
  isOpen (snd (open sample (Usart sample 2 0 0 96 0 0 0 0))) = true.
Proof.
  split.
  - destruct (instance_port sample (fun n => if n =? 2 then 1 else 0) 3)
      as (A & _).
    apply A. intros [_ C]. vm_compute in C. discriminate.
  - destruct (instance_port sample (fun n => if n =? 2 then 1 else 0) 2)
      as (_ & B).
    destruct (B 2 eq_refl) as (_ & P).
    specialize (P 0 0 96 0 0 0 0). cbv zeta in P.
    destruct P as (P1 & P2 & _ & _ & _ & P3).
    split; [exact P1|]. split; [exact P2|exact P3].
Defined.

Lemma flush_pump_drains_witness :
  exists s',
    flush sample quiet 9 (busy 0) = Some (0, s') /\
    udr_tx s' = [55; 48; 49; 50; 51; 52; 53] /\
    tx_tail_ s' = 6 /\
    bit_is_set (ucsr_b_ s') UDRIE = false.
Proof.
  destruct (flush_pump_drains sample 9 (busy 0))
    as (s' & F & U & _ & T & _ & _ & B & _).
  - cbn. lia.
  - cbn. lia.
  - cbn. lia.
  - vm_compute. discriminate.
  - reflexivity.
  - reflexivity.
  - reflexivity.
  - reflexivity.
  - vm_compute. reflexivity.
  - exists s'. split; [exact F|]. split; [exact U|]. split; [exact T|exact B].
Defined.

Lemma flush_waits_for_hardware_witness :
  flush sample quiet 5 (busy 128) = None /\
  (forall rc s1, flush sample quiet 9 (busy 0) = Some (rc, s1) -> rc = 0).
Proof.
  destruct (flush_waits_for_hardware sample) as (A & B).
  split.
  - apply B.
    + left. reflexivity.
    + left. reflexivity.
  - intros rc s1 F. destruct (A quiet 9%nat (busy 0) rc s1 F) as (R & _).
    exact R.
Defined.

Lemma send_buf_fits_witness :
  exists s',
    send_buf sample quiet 1 [79; 75; 0] 2 false (fresh 0) = Some (0, s') /\
    tx_head_ s' = 2 /\ tx_tail_ s' = 0 /\
    ring_slice (tx_buff_ s') 8 1 2 = [79; 75] /\
    udr_tx s' = [].
Proof.
  destruct (send_buf_fits sample quiet O [79; 75] [0] (fresh 0))
    as (s' & F & H & T & R & _ & _ & _ & U & _).
  - cbn. lia.
  - cbn. lia.
  - cbn. lia.
  - reflexivity.
  - vm_compute. discriminate.
  - reflexivity.
  - exists s'. split; [exact F|]. split; [exact H|]. split; [exact T|].
    split; [exact R|exact U].
Defined.

Lemma send_buf_queue_shift_witness :
  exists s',
    send_buf sample quiet 1 [79; 75; 0] 2 false (fresh 0) = Some (0, s') /\
    tx_contents sample s' = [0; 79] /\
    u8 (default 0 (tx_buff_ s' !! Z.to_nat (tx_head_ s'))) = 75.
Proof.
  destruct (send_buf_queue_shift sample quiet O [79; 75] [0] (fresh 0))
    as (s' & F & Q & L).
  - cbn. lia.
  - cbn. lia.
  - cbn. lia.
  - reflexivity.
  - vm_compute. discriminate.
  - discriminate.
  - reflexivity.
  - exists s'. split; [exact F|]. split; [exact Q|exact L].
Defined.

Lemma send_buf_drain_wire_witness :
  exists s',
    send_buf sample quiet 5 [79; 75; 33] 3 true (fresh 0) = Some (0, s') /\
    udr_tx s' = [0; 79; 75] /\
    tx_head_ s' = tx_tail_ s' /\
    u8 (default 0 (tx_buff_ s' !! Z.to_nat (tx_head_ s'))) = 33.
Proof.
  destruct (send_buf_drain_wire sample 5 [79; 75; 33] [] (fresh 0))
    as (s' & F & U & E & _ & L & _).
  - cbn. lia.
  - cbn. lia.
  - cbn. lia.
  - reflexivity.
  - vm_compute. discriminate.
  - discriminate.
  - reflexivity.
  - reflexivity.
  - reflexivity.
  - vm_compute. reflexivity.
  - exists s'. split; [exact F|]. split; [exact U|]. split; [exact E|exact L].
Defined.

Lemma recv_buf_takes_witness :
  exists s',
    recv_buf sample quiet 3 [9; 9; 9] 2 0 (set_rx_error 0 (busy 0))
      = Some (0, [65; 66; 9], s') /\
    rx_contents sample s' = [] /\
    rx_tail_ s' = 3.
Proof.
  destruct (recv_buf_takes sample 2 3 [9; 9; 9] 0 (set_rx_error 0 (busy 0)))
    as (s' & F & C & T & _).
  - cbn. lia.
  - reflexivity.
  - cbn. lia.
  - cbn. lia.
  - reflexivity.
  - vm_compute. discriminate.
  - cbn. lia.
  - lia.
  - exists s'. split; [exact F|]. split; [exact C|exact T].
Defined.

Lemma recv_buf_drops_flagged_witness :
  exists (fuel : nat) s',
    recv_buf sample quiet fuel [9] 1 3 (set_rx_tail 2 (busy 0))
      = Some (256, [9], s') /\
    rx_head_ s' = rx_tail_ s' /\
    rx_error_ s' = 0.
Proof.
  destruct (recv_buf_drops_flagged sample [9] 1 3 (set_rx_tail 2 (busy 0)))
    as (fuel & s' & F & E & _ & L & _).
  - cbn. lia.
  - cbn. lia.
  - reflexivity.
  - vm_compute. discriminate.
  - vm_compute. discriminate.
  - vm_compute. discriminate.
  - cbn. lia.
  - lia.
  - cbn. lia.
  - lia.
  - exists fuel, s'. split; [exact F|]. split; [exact E|exact L].
Defined.

Lemma send_str_is_send_buf_witness :
  send_str sample quiet 1 [79; 75; 0; 33] false (fresh 0)
    = send_buf sample quiet 1 [79; 75; 0; 33] 2 false (fresh 0).
Proof.
  destruct (send_str_is_send_buf sample quiet 1 [79; 75] [33] false (fresh 0))
    as (A & _).
  - repeat constructor; vm_compute; discriminate.
  - exact A.
Defined.

Lemma rings_stay_in_bounds_witness :
  in_bounds sample (onRecv sample (busy 0)) /\
  in_bounds sample (onSend sample (busy 0)) /\
  in_bounds sample (snd (recv sample (busy 0))) /\
  (forall s', close sample quiet 20 (busy 0) = Some s' ->
     in_bounds sample s').
Proof.
  destruct (rings_stay_in_bounds sample quiet) with (s := busy 0)
    as (_ & A & B & C & _ & _ & D & _).
  - cbn. lia.
  - cbn. lia.
  - intros s H. exact H.
  - unfold in_bounds. cbn. repeat split; lia.
  - split; [exact A|]. split; [exact B|]. split; [exact C|].
    intros s'. apply D.
Defined.

Lemma read_status_through_int_witness :
  fst (fst (I2C.read wire_log 16 status_is_ok (failing_read 65536 171) 1
              idle_device 80 0 119)) <> 65536 /\
  fst (fst (I2C.read wire_log 32 status_is_ok (failing_read 65536 171) 1
              idle_device 80 0 119)) = 65536.
Proof.
  split.
  - pose proof (read_status_through_int wire_log 16 status_is_ok
                  (failing_read 65536 171) 1 idle_device 80 0 119) as H.
    cbv beta iota delta [failing_read] in H.
    assert (HB : 0 < 16 <= 32) by lia.
    assert (Hr : 0 <= 65536 < 4294967296) by lia.
    specialize (H HB Hr). cbv zeta in H.
    destruct H as (A & _).
    intros E. apply A in E. change (2 ^ (16 - 1)) with 32768 in E. lia.
  - pose proof (read_status_through_int wire_log 32 status_is_ok
                  (failing_read 65536 171) 1 idle_device 80 0 119) as H.
    cbv beta iota delta [failing_read] in H.
    assert (HB : 0 < 32 <= 32) by lia.
    assert (Hr : 0 <= 65536 < 4294967296) by lia.
    specialize (H HB Hr). cbv zeta in H.
    destruct H as (_ & B & _).
    apply B. reflexivity.
Defined.

(** * Receiving into a buffer: what a returned call has stored *)

Section StoredCount.

Variable d : Defines.
Variable hw : State -> State.

(** What a returned [recv(buff, bytes, timeout)] has done. The pointer has
    moved by some [k] and [bytes] has gone down by the same [k]: that many
    bytes were stored, in the [k] slots from [pos] on, each of them a
    [char]; nothing else in the buffer changed; and if [k] falls short of
    the count, the call came back through the timeout branch, with the
    timeout flag in the status. *)
Lemma recv_loop_locals_result (fuel : nat) timeout :
  forall buff pos bytes delays rc (s : State) rc' buff' s',
  0 <= bytes ->
  recv_loop d hw fuel timeout buff pos bytes delays rc s
    = Some (rc', buff', s') ->
  exists k : nat,
    recv_loop_locals d hw fuel timeout pos bytes delays s
      = Some ((pos + k)%nat, bytes - Z.of_nat k) /\
    Z.of_nat k <= bytes /\
    length buff' = length buff /\
    (forall i : nat,
       (i < pos)%nat \/ (pos + k <= i)%nat -> buff' !! i = buff !! i) /\
    (forall (i : nat) (b : Z),
       (pos <= i < pos + k)%nat -> buff' !! i = Some b -> 0 <= b < 256) /\
    (Z.of_nat k < bytes ->
       0 < timeout /\
       Z.land rc' (u16 (BTR_USART_TIMEDOUT_ERR d))
         = u16 (BTR_USART_TIMEDOUT_ERR d)).
Proof.
  induction fuel as [|fuel IH];
    intros buff pos bytes delays rc s rc' buff' s' Hb; [discriminate|].
  cbn [recv_loop recv_loop_locals].
  destruct (Z.ltb_spec 0 bytes) as [Hp|Hp].
  - destruct (recv d s) as [ch s1].
    destruct (negb (Z.land (BTR_USART_NO_DATA d) ch =? 0)).
    + destruct (Z.ltb_spec 0 timeout) as [Ht|Ht].
      * destruct (timeout <=? u32 (delays + BTR_USART_RX_DELAY d)).
        -- intros [= <- <- <-]. exists O.
           rewrite Nat.add_0_r, Z.sub_0_r.
           split; [reflexivity|]. split; [lia|]. split; [reflexivity|].
           split; [reflexivity|]. split; [intros i b Hi; lia|].
           intros _. split; [exact Ht|apply u16_lor_land].
        -- intros H. apply (IH _ _ _ _ _ _ _ _ _ Hb H).
      * intros H. apply (IH _ _ _ _ _ _ _ _ _ Hb H).
    + intros H.
      assert (Hb1 : 0 <= bytes - 1) by lia.
      destruct (IH _ _ _ _ _ _ _ _ _ Hb1 H)
        as (k & Hloc & Hk & Hl & Hu & Hr & Ht).
      exists (S k).
      split.
      { rewrite Hloc. f_equal. f_equal; lia. }
      split; [lia|].
      split; [rewrite Hl; apply length_insert|].
      split.
      { intros i Hi. rewrite Hu by lia.
        apply list_lookup_insert_ne. lia. }
      split.
      { intros i b Hi Hlk.
        destruct (Nat.eq_dec i pos) as [->|NE].
        - rewrite Hu in Hlk by lia.
          destruct (Nat.lt_ge_cases pos (length buff)) as [L|L].
          + rewrite list_lookup_insert_eq in Hlk by lia.
            injection Hlk as <-. apply u8_range.
          + rewrite lookup_ge_None_2 in Hlk
              by (rewrite length_insert; lia).
            discriminate.
        - apply (Hr i b); [lia|exact Hlk]. }
      intros Hlt. apply Ht. lia.
  - intros [= <- <- <-]. exists O.
    rewrite Nat.add_0_r, Z.sub_0_r.
    split; [reflexivity|]. split; [lia|]. split; [reflexivity|].
    split; [reflexivity|]. split; [intros i b Hi; lia|].
    intros Hlt. lia.
Qed.

End StoredCount.

Section StoredQuiet.

Variable d : Defines.

Local Abbreviation RXN := (BTR_USART_RX_BUFF_SIZE d).

Lemma rx_contents_nil (s : State) :
  0 < RXN ->
  0 <= rx_head_ s < RXN ->
  0 <= rx_tail_ s < RXN ->
  length (rx_contents d s) = O ->
  rx_head_ s = rx_tail_ s.
Proof.
  intros HN Hh Ht. unfold rx_contents. rewrite ring_slice_length.
  rewrite ring_count by lia.
  destruct (Z.leb_spec (rx_tail_ s) (rx_head_ s)); lia.
Qed.

(** With nothing arriving, the first [k] turns of the loop take the first
    [k] clean bytes of the queue. *)
Lemma recv_loop_prefix (timeout : Z) :
  0 < RXN <= 65536 ->
  Z.land (BTR_USART_NO_DATA d) 255 = 0 ->
  forall (k f : nat) (buff : list Z) (pos : nat) (bytes delays : Z)
         (s : State),
  0 <= rx_head_ s < RXN ->
  0 <= rx_tail_ s < RXN ->
  rx_error_ s = 0 ->
  (k <= length (rx_contents d s))%nat ->
  Z.of_nat k <= bytes ->
  (pos + k <= length buff)%nat ->
  exists s',
    recv_loop d quiet (k + f) timeout buff pos bytes delays 0 s =
      recv_loop d quiet f timeout
        (take pos buff ++ take k (rx_contents d s) ++ drop (pos + k) buff)
        (pos + k) (bytes - Z.of_nat k) delays 0 s' /\
    recv_loop_locals d quiet (k + f) timeout pos bytes delays s =
      recv_loop_locals d quiet f timeout (pos + k) (bytes - Z.of_nat k)
        delays s' /\
    rx_contents d s' = drop k (rx_contents d s) /\
    0 <= rx_head_ s' < RXN /\ 0 <= rx_tail_ s' < RXN /\
    rx_error_ s' = 0.
Proof.
  intros HN Hnd. induction k as [|k IH];
    intros f buff pos bytes delays s Hh Ht He Hk Hby Hp.
  - exists s. cbn [Nat.add]. rewrite Nat.add_0_r, Z.sub_0_r.
    rewrite take_0, app_nil_l, take_drop, drop_0.
    repeat split; try reflexivity; lia.
  - assert (Hne : rx_contents d s <> []).
    { intros C. rewrite C in Hk. simpl in Hk. lia. }
    destruct (recv_clean d s HN Hh Ht Hne He)
      as (b & rest & Hc & Hb & Hr & Hc').
    change (S k + f)%nat with (S (k + f)).
    cbn [recv_loop recv_loop_locals].
    destruct (Z.ltb_spec 0 bytes) as [_|C]; [|lia].
    rewrite Hr.
    rewrite (land_low_byte _ _ Hnd Hb). change (0 =? 0) with true.
    simpl negb. cbv iota.
    rewrite (land_high_byte _ Hb). change (u16 (Z.lor 0 0)) with 0.
    rewrite (u8_small b) by lia.
    set (s1 := elapse quiet
                 (set_rx_error 0
                    (set_rx_tail ((rx_tail_ s + 1) mod RXN) s))).
    assert (Hc1 : rx_contents d s1 = rest) by exact Hc'.
    pose proof (Z.mod_pos_bound (rx_tail_ s + 1) RXN ltac:(lia)) as Hm.
    destruct (IH f (<[pos := b]> buff) (S pos) (bytes - 1) delays s1)
      as (s' & F & G & G1 & G2 & G3 & G4);
      try (subst s1; simpl; lia); try reflexivity.
    { rewrite Hc1. rewrite Hc in Hk. simpl in Hk. lia. }
    { rewrite length_insert. lia. }
    exists s'. rewrite F, G, Hc1, Hc.
    replace (bytes - 1 - Z.of_nat k) with (bytes - Z.of_nat (S k)) by lia.
    replace (S pos + k)%nat with (pos + S k)%nat by lia.
    split.
    { f_equal.
      rewrite insert_take_drop by lia.
      assert (Hlt : length (take pos buff ++ [b]) = S pos).
      { rewrite length_app, length_take. simpl. lia. }
      rewrite (cons_middle b (take pos buff) (drop (S pos) buff)).
      rewrite (app_assoc (take pos buff) [b] (drop (S pos) buff)).
      rewrite take_app_length' by (symmetry; exact Hlt).
      replace (pos + S k)%nat with (S pos + k)%nat by lia.
      rewrite drop_app_add' by (symmetry; exact Hlt).
      rewrite drop_drop, <- app_assoc. reflexivity. }
    split; [reflexivity|].
    split; [rewrite G1, Hc1; reflexivity|].
    split; [exact G2|]. split; [exact G3|exact G4].
Qed.

(** Polls of the empty ring that nothing refills leave the pointer and
    the count where they are. *)
Lemma recv_loop_locals_empty_quiet (timeout : Z) :
  Z.land (BTR_USART_NO_DATA d) (u16 (BTR_USART_NO_DATA d)) <> 0 ->
  forall (fuel : nat) (pos : nat) (bytes delays : Z) (s : State) r,
  0 < bytes ->
  rx_head_ s = rx_tail_ s ->
  recv_loop_locals d quiet fuel timeout pos bytes delays s = Some r ->
  r = (pos, bytes).
Proof.
  intros Hnd. induction fuel as [|fuel IH];
    intros pos bytes delays s r Hb He; [discriminate|].
  cbn [recv_loop_locals].
  destruct (Z.ltb_spec 0 bytes) as [_|C]; [|lia].
  rewrite (recv_empty d s He).
  destruct (Z.eqb_spec (Z.land (BTR_USART_NO_DATA d)
                          (u16 (BTR_USART_NO_DATA d))) 0) as [C|_];
    [contradiction|].
  simpl negb. cbv iota.
  destruct (0 <? timeout).
  - destruct (timeout <=? u32 (delays + BTR_USART_RX_DELAY d)).
    + intros [= <-]. reflexivity.
    + apply IH; [exact Hb|exact He].
  - apply IH; [exact Hb|exact He].
Qed.

(** A partial read: fewer clean bytes are waiting than were asked for and
    nothing arrives afterwards. The call stores what is there and then
    waits out the timeout. *)
Lemma recv_buf_partial (buff : list Z) (bytes timeout : Z) (s : State) :
  0 < timeout ->
  0 < BTR_USART_RX_DELAY d ->
  timeout + BTR_USART_RX_DELAY d <= 4294967296 ->
  0 < RXN <= 65536 ->
  Z.land (BTR_USART_NO_DATA d) 255 = 0 ->
  Z.land (BTR_USART_NO_DATA d) (u16 (BTR_USART_NO_DATA d)) <> 0 ->
  0 <= rx_head_ s < RXN ->
  0 <= rx_tail_ s < RXN ->
  rx_error_ s = 0 ->
  Z.of_nat (length (rx_contents d s)) < bytes ->
  (length (rx_contents d s) <= length buff)%nat ->
  exists (fuel : nat) s',
    recv_buf d quiet fuel buff bytes timeout s
      = Some (u16 (BTR_USART_TIMEDOUT_ERR d),
              rx_contents d s ++ drop (length (rx_contents d s)) buff,
              s') /\
    recv_buf_locals d quiet fuel bytes timeout s
      = Some (length (rx_contents d s),
              bytes - Z.of_nat (length (rx_contents d s))) /\
    rx_head_ s' = rx_tail_ s'.
Proof.
  intros Hto HD Hw HN Hlow Hnd Hh Ht He Hm Hlen.
  set (m := length (rx_contents d s)) in *.
  destruct (delays_reach _ _ HD Hto Hw) as (n & _ & Hge).
  set (F := S (Z.to_nat (bytes - Z.of_nat m) + S n)).
  destruct (recv_loop_prefix timeout HN Hlow m F buff O bytes 0 s
              Hh Ht He ltac:(lia) ltac:(lia) ltac:(lia))
    as (s1 & E1 & E2 & C1 & Hh1 & Ht1 & He1).
  assert (Hemp : rx_head_ s1 = rx_tail_ s1).
  { apply rx_contents_nil; try lia.
    rewrite C1, length_drop. lia. }
  cbn [Nat.add] in E1, E2.
  rewrite take_0, app_nil_l in E1.
  rewrite (take_ge (rx_contents d s) m) in E1 by lia.
  set (buff1 := rx_contents d s ++ drop m buff) in *.
  destruct (recv_loop_returns d quiet timeout (S n) Hto Hge F O buff1 m
              (bytes - Z.of_nat m) 0 s1 ltac:(lia) ltac:(lia) ltac:(lia))
    as [r Hr].
  change (rx_delays d 0) with 0 in Hr.
  destruct (recv_loop_empty_quiet d timeout Hnd F buff1 m
              (bytes - Z.of_nat m) 0 0 s1 r ltac:(lia) Hemp Hr)
    as (s' & -> & G1 & G2 & _).
  destruct (recv_loop_locals_result d quiet F timeout buff1 m
              (bytes - Z.of_nat m) 0 0 s1 _ _ _ ltac:(lia) Hr)
    as (k & Hloc & _).
  pose proof (recv_loop_locals_empty_quiet timeout Hnd F m
                (bytes - Z.of_nat m) 0 s1 _ ltac:(lia) Hemp Hloc) as Hpin.
  rewrite Hpin in Hloc.
  exists (m + F)%nat, s'. unfold recv_buf, recv_buf_locals.
  rewrite E1, E2, Hr, Hloc.
  split; [reflexivity|]. split; [reflexivity|]. congruence.
Qed.

End StoredQuiet.

Section Waiting.

Variable d : Defines.
Variable hw : State -> State.

Local Abbreviation RXN := (BTR_USART_RX_BUFF_SIZE d).

(** C2, as the code has it. [recv(buff, bytes, timeout)] with
    [timeout = 0] on an empty receive ring does not return while the ring
    stays empty: it polls on, with buffer, count and status untouched,
    and goes on from wherever the hardware has got to. With [timeout > 0],
    as soon as the accumulated [delays] can reach the bound, the call
    returns, whatever the hardware does. At the return the pointer has
    moved by some [k] and [bytes] has gone down by the same [k], the
    number of bytes stored; the first [k] slots of the buffer hold bytes,
    everything behind them is untouched; and if [k] is less than the
    count asked for, the status carries the timeout flag. When the ring
    stays empty all along, it returns at the first poll at which [delays]
    has reached the bound, with exactly the timeout flag and the buffer as
    it was. When fewer clean bytes are waiting than were asked for and
    nothing arrives afterwards, it returns with exactly the timeout flag,
    these bytes at the front of the buffer in order and the rest of the
    buffer as it was. *)
Theorem recv_buf_waits (buff : list Z) (bytes timeout : Z) (s : State) :
  0 <= bytes ->
  (timeout = 0 ->
   0 < bytes ->
   Z.land (BTR_USART_NO_DATA d) (u16 (BTR_USART_NO_DATA d)) <> 0 ->
   forall m f : nat,
     (forall i, (i < m)%nat ->
        rx_head_ (elapse_n hw i s) = rx_tail_ (elapse_n hw i s)) ->
     recv_buf d hw m buff bytes timeout s = None /\
     recv_buf d hw (m + f) buff bytes timeout s =
       recv_loop d hw f 0 buff O bytes 0 0 (elapse_n hw m s)) /\
  (0 < timeout ->
   forall n fuel : nat,
     timeout <= rx_delays d n ->
     (Z.to_nat bytes + n < fuel)%nat ->
     exists rc buff' s' (k : nat),
       recv_buf d hw fuel buff bytes timeout s = Some (rc, buff', s') /\
       recv_buf_locals d hw fuel bytes timeout s
         = Some (k, bytes - Z.of_nat k) /\
       Z.of_nat k <= bytes /\
       length buff' = length buff /\
       (forall i : nat, (k <= i)%nat -> buff' !! i = buff !! i) /\
       (forall (i : nat) (b : Z),
          (i < k)%nat -> buff' !! i = Some b -> 0 <= b < 256) /\
       (Z.of_nat k < bytes ->
          Z.land rc (u16 (BTR_USART_TIMEDOUT_ERR d))
            = u16 (BTR_USART_TIMEDOUT_ERR d))) /\
  (0 < timeout ->
   0 < bytes ->
   Z.land (BTR_USART_NO_DATA d) (u16 (BTR_USART_NO_DATA d)) <> 0 ->
   forall n fuel : nat,
     (forall i, (i <= n)%nat ->
        rx_head_ (elapse_n hw i s) = rx_tail_ (elapse_n hw i s)) ->
     (forall j, (1 <= j <= n)%nat -> rx_delays d j < timeout) ->
     timeout <= rx_delays d (S n) ->
     (n < fuel)%nat ->
     recv_buf d hw fuel buff bytes timeout s
       = Some (u16 (BTR_USART_TIMEDOUT_ERR d), buff, elapse_n hw n s)) /\
  (forall (fuel pos : nat) (buff0 : list Z) (left delays rc : Z)
          (s0 : State) rc' buff' s',
     0 <= left ->
     recv_loop d hw fuel timeout buff0 pos left delays rc s0
       = Some (rc', buff', s') ->
     forall i : nat, (i < pos)%nat -> buff' !! i = buff0 !! i) /\
  (0 < timeout ->
   0 < BTR_USART_RX_DELAY d ->
   timeout + BTR_USART_RX_DELAY d <= 4294967296 ->
   0 < RXN <= 65536 ->
   Z.land (BTR_USART_NO_DATA d) 255 = 0 ->
   Z.land (BTR_USART_NO_DATA d) (u16 (BTR_USART_NO_DATA d)) <> 0 ->
   0 <= rx_head_ s < RXN ->
   0 <= rx_tail_ s < RXN ->
   rx_error_ s = 0 ->
   Z.of_nat (length (rx_contents d s)) < bytes ->
   (length (rx_contents d s) <= length buff)%nat ->
   exists (fuel : nat) s',
     recv_buf d quiet fuel buff bytes timeout s
       = Some (u16 (BTR_USART_TIMEDOUT_ERR d),
               rx_contents d s ++ drop (length (rx_contents d s)) buff,
               s') /\
     recv_buf_locals d quiet fuel bytes timeout s
       = Some (length (rx_contents d s),
               bytes - Z.of_nat (length (rx_contents d s))) /\
     rx_head_ s' = rx_tail_ s').
Proof.
  intros Hb. split; [|split; [|split; [|split]]].
  - intros -> Hp Hnd m f He. unfold recv_buf. split.
    + replace m with (m + 0)%nat at 1 by lia.
      rewrite (recv_loop_wait0 d hw m 0) by assumption. reflexivity.
    + apply recv_loop_wait0; assumption.
  - intros Ht n fuel Hn Hf.
    assert (Hn0 : (0 < n)%nat).
    { destruct n; [|lia]. unfold rx_delays in Hn.
      rewrite Z.mul_0_l in Hn. change (u32 0) with 0 in Hn. lia. }
    assert (Hf0 : (Z.to_nat bytes + (n - 0) < fuel)%nat) by lia.
    destruct (recv_loop_returns d hw timeout n Ht Hn fuel O buff O bytes 0 s
                Hn0 Hb Hf0) as [[[rc buff'] s'] Hr].
    change (rx_delays d 0) with 0 in Hr.
    destruct (recv_loop_locals_result d hw _ _ _ _ _ _ _ _ _ _ _ Hb Hr)
      as (k & Hloc & Hk & Hl & Hu & Hrg & Hto).
    exists rc, buff', s', k. unfold recv_buf, recv_buf_locals.
    split; [exact Hr|]. split; [exact Hloc|]. split; [exact Hk|].
    split; [exact Hl|].
    split.
    + intros i Hi. apply Hu. right. lia.
    + split.
      * intros i b Hi. apply Hrg. lia.
      * intros Hlt. apply Hto. exact Hlt.
  - intros Ht Hp Hnd n fuel He Hd Hto Hf. unfold recv_buf.
    replace fuel with (n + S (fuel - S n))%nat by lia.
    rewrite recv_loop_wait; try assumption; try lia.
    + rewrite Z.add_0_l. fold (rx_delays d n).
      cbn [recv_loop].
      destruct (Z.ltb_spec 0 bytes) as [_|C]; [|lia].
      rewrite (recv_empty d (elapse_n hw n s) (He n ltac:(lia))).
      destruct (Z.eqb_spec (Z.land (BTR_USART_NO_DATA d)
                              (u16 (BTR_USART_NO_DATA d))) 0) as [C|_];
        [contradiction|].
      simpl negb. cbv iota.
      destruct (Z.ltb_spec 0 timeout) as [_|C]; [|lia].
      assert (E : u32 (rx_delays d n + BTR_USART_RX_DELAY d)
                  = rx_delays d (S n)).
      { unfold rx_delays. rewrite u32_add_l. f_equal. lia. }
      rewrite E.
      destruct (Z.leb_spec timeout (rx_delays d (S n))) as [_|C]; [|lia].
      reflexivity.
    + intros i Hi. apply He. lia.
  - intros fuel pos buff0 left delays rc s0 rc' buff' s' Hl Hr i Hi.
    destruct (recv_loop_locals_result d hw _ _ _ _ _ _ _ _ _ _ _ Hl Hr)
      as (k & _ & _ & _ & Hu & _).
    apply Hu. left. exact Hi.
  - intros. apply recv_buf_partial; assumption.
Qed.

End Waiting.

Lemma recv_buf_waits_witness :
  recv_buf sample quiet 5 [9; 9] 2 0 (fresh 0) = None /\
  (exists rc buff' s',
     recv_buf sample quiet 6 [9; 9; 9; 7] 3 2 (busy 128)
       = Some (rc, buff', s') /\
     length buff' = 4%nat /\ buff' !! 3%nat = Some 7 /\
     Z.land rc 256 = 256) /\
  recv_buf sample quiet 2 [9; 9] 2 2 (fresh 0)
    = Some (256, [9; 9], elapse_n quiet 1 (fresh 0)) /\
  (exists (fuel : nat) s',
     recv_buf sample quiet fuel [9; 9; 9; 7] 3 2 (set_rx_error 0 (busy 0))
       = Some (256, [65; 66; 9; 7], s') /\
     recv_buf_locals sample quiet fuel 3 2 (set_rx_error 0 (busy 0))
       = Some (2%nat, 1)).
Proof.
  split; [|split; [|split]].
  - destruct (recv_buf_waits sample quiet [9; 9] 2 0 (fresh 0))
      as (H0 & _); [lia|].
    destruct (H0 eq_refl) with (m := 5%nat) (f := O) as [Hnone _].
    + lia.
    + vm_compute. discriminate.
    + intros i _.
      destruct (elapse_n_quiet_rx i (fresh 0)) as [-> ->].
      reflexivity.
    + exact Hnone.
  - destruct (recv_buf_waits sample quiet [9; 9; 9; 7] 3 2 (busy 128))
      as (_ & Hto & _); [lia|].
    destruct (Hto ltac:(lia) 2%nat 6%nat)
      as (rc & buff' & s' & k & Hr & Hloc & Hk & Hl & Hu & _ & Hbit).
    + vm_compute. discriminate.
    + simpl. lia.
    + assert (Hk1 : k = 1%nat).
      { vm_compute in Hloc. injection Hloc as <- _. reflexivity. }
      subst k.
      exists rc, buff', s'. split; [exact Hr|]. split; [exact Hl|].
      split; [rewrite Hu; [reflexivity|lia]|].
      apply Hbit. lia.
  - destruct (recv_buf_waits sample quiet [9; 9] 2 2 (fresh 0))
      as (_ & _ & Hidle & _); [lia|].
    apply (Hidle ltac:(lia) ltac:(lia)) with (n := 1%nat) (fuel := 2%nat).
    + vm_compute. discriminate.
    + intros i _.
      destruct (elapse_n_quiet_rx i (fresh 0)) as [-> ->].
      reflexivity.
    + intros j Hj. assert (j = 1%nat) as -> by lia. vm_compute. reflexivity.
    + vm_compute. discriminate.
    + lia.
  - destruct (recv_buf_waits sample quiet [9; 9; 9; 7] 3 2
                (set_rx_error 0 (busy 0)))
      as (_ & _ & _ & _ & Hpart); [lia|].
    destruct Hpart as (fuel & s' & Hr & Hloc & _).
    + lia.
    + cbn. lia.
    + cbn. lia.
    + cbn. lia.
    + reflexivity.
    + vm_compute. discriminate.
    + cbn. lia.
    + cbn. lia.
    + reflexivity.
    + vm_compute. reflexivity.
    + vm_compute. lia.
    + exists fuel, s'. split; [exact Hr|exact Hloc].
Defined.

(** * Closing a port with output queued *)

Section Stranded.

Variable d : Defines.

Local Abbreviation TXN := (BTR_USART_TX_BUFF_SIZE d).
Local Abbreviation RXN := (BTR_USART_RX_BUFF_SIZE d).

(** [close()] after [send(buff, bytes, false)], interrupts disabled and
    the transmitter idle: the flush inside [close] pumps the handler until
    the ring reads empty. By then the data register has got the bytes
    that were waiting, the byte the slot at the old [tx_head_] held, and
    the new bytes except the last. The last byte is still in its slot, at
    [tx_head_ = tx_tail_], and the port is closed. *)
Lemma close_strands_last (fuel : nat) (l rest : list Z) (s : State) :
  0 < RXN <= 65536 ->
  0 < TXN <= 65536 ->
  0 <= tx_head_ s < TXN ->
  0 <= tx_tail_ s < TXN ->
  length (tx_buff_ s) = Z.to_nat TXN ->
  tx_pending d s + Z.of_nat (length l) <= TXN - 1 ->
  l <> [] ->
  bit_is_set (sreg s) SREG_I = false ->
  bit_is_set (ucsr_a_ s) UDRE = true ->
  bit_is_set (ucsr_a_ s) TXC = true ->
  tx_pending d s + Z.of_nat (length l) < Z.of_nat fuel ->
  exists s1 s2,
    send_buf d quiet fuel (l ++ rest) (Z.of_nat (length l)) false s
      = Some (0, s1) /\
    tx_pending d s1 = tx_pending d s + Z.of_nat (length l) /\
    close d quiet fuel s1 = Some s2 /\
    udr_tx s2 =
      udr_tx s ++ tx_contents d s
        ++ u8 (default 0 (tx_buff_ s !! Z.to_nat (tx_head_ s)))
        :: removelast (map u8 l) /\
    tx_head_ s2 = tx_tail_ s2 /\
    u8 (default 0 (tx_buff_ s2 !! Z.to_nat (tx_head_ s2)))
      = u8 (List.last l 0) /\
    isOpen s2 = false.
Proof.
  intros HR HN Hh Ht Hlen Hroom Hl Hi He Hc Hf.
  assert (Hp0 : 0 <= tx_pending d s < TXN).
  { unfold tx_pending. apply Z.mod_pos_bound. lia. }
  destruct fuel as [|fuel]; [lia|].
  destruct (send_bytes_fits d quiet fuel HN l rest s Hh Ht Hroom)
    as (s1 & F & H1 & H2 & H3 & H4 & H5 & _ & H6 & _ & H7 & H8 & _).
  destruct (tx_contents_after d l s s1 HN Hh Ht Hlen Hroom Hl H1 H2 H3 H4)
    as (Hq & Hlast).
  assert (Hk : (0 < length l)%nat).
  { destruct l; [contradiction|simpl; lia]. }
  pose proof (Z.mod_pos_bound (tx_head_ s + Z.of_nat (length l)) TXN
                ltac:(lia)) as Hm.
  assert (Hi1 : bit_is_set (sreg s1) SREG_I = false) by congruence.
  assert (He1 : bit_is_set (ucsr_a_ s1) UDRE = true) by congruence.
  assert (Hc1 : bit_is_set (ucsr_a_ s1) TXC = true) by congruence.
  assert (Hb1 : bit_is_set (ucsr_b_ s1) UDRIE = true) by (apply H5, Hl).
  assert (Hh1 : 0 <= tx_head_ s1 < TXN) by lia.
  assert (Ht1 : 0 <= tx_tail_ s1 < TXN) by lia.
  assert (Hp1 : tx_pending d s1
                = Z.of_nat (S (Z.to_nat (tx_pending d s1) - 1))) by lia.
  assert (Hf1 : (S (Z.to_nat (tx_pending d s1) - 1) < S fuel)%nat) by lia.
  destruct (flush_pump_aux d HN
              (Z.to_nat (tx_pending d s1) - 1) (S fuel) s1
              Hh1 Ht1 Hi1 He1 Hc1 Hb1 Hp1 Hf1)
    as (s' & F' & U & P1 & P2 & P3 & P4 & _).
  assert (Hcl : exists s2, close d quiet (S fuel) s1 = Some s2).
  { unfold close. rewrite F'. eauto. }
  destruct Hcl as (s2 & Hcl).
  destruct (close_discards d quiet (S fuel) s1 s2 HR Hcl)
    as (sf & Ff & _ & _ & _ & _ & _ & _ & _ & Ho & _ & _ & _ & _ & _
        & T1 & T2 & T3 & T4).
  rewrite F' in Ff. injection Ff as <-.
  exists s1, s2. unfold send_buf. rewrite Nat2Z.id, F.
  change ((0 =? 0) && false) with false. cbv iota.
  split; [reflexivity|]. split; [exact H4|]. split; [exact Hcl|].
  split.
  { rewrite T4, U, H6, <- Hq. unfold tx_contents. f_equal. f_equal. lia. }
  split; [congruence|].
  split; [rewrite T1, T3, P2, P3; exact Hlast|exact Ho].
Qed.

End Stranded.

(** C6 on the sample port. Five bytes are queued with
    [send("hello", 5, false)] on a port just opened, then the port is
    closed. [close()] returns with the port closed, but of the five bytes
    only four have reached the data register, behind the zero the first
    slot of the ring held; the ['o'] is left in slot 5 of a ring that
    reads empty. This is so when interrupts are disabled and the flush
    inside [close] pumps the handler itself, and as well when interrupts
    are enabled and the handler has run after every single [send]. *)
Theorem close_strands_last_byte :
  (exists s1 s2,
     send_buf sample quiet 20 hello 5 false (snd (open sample (fresh 0)))
       = Some (0, s1) /\
     tx_pending sample s1 = 5 /\
     close sample quiet 20 s1 = Some s2 /\
     udr_tx s2 = [0; 104; 101; 108; 108] /\
     tx_buff_ s2 !! 5%nat = Some 111 /\
     tx_head_ s2 = tx_tail_ s2 /\
     isOpen s2 = false) /\
  (exists s2,
     close sample (udre_isr sample) 20
       (send_each sample hello (snd (open sample (fresh 128)))) = Some s2 /\
     udr_tx s2 = [0; 104; 101; 108; 108] /\
     tx_buff_ s2 !! 5%nat = Some 111 /\
     tx_head_ s2 = tx_tail_ s2 /\
     isOpen s2 = false).
Proof.
  split.
  - eexists. eexists. split; [vm_compute; reflexivity|].
    split; [vm_compute; reflexivity|].
    split; [vm_compute; reflexivity|].
    repeat split; reflexivity.
  - eexists. split; [vm_compute; reflexivity|]. repeat split; reflexivity.
Qed.
